(** * reversemenu: key lifecycle and account-state engine of [app.js]

    A shallow embedding of the engine of [src/app.js] (CONFIG, Utils,
    Storage, Validator, UserManager, Auth, KeyManager) and the properties
    of it that the specification states.

    Conventions of the embedding.
    - A JavaScript string is a [string], its code units taken in the range
      of [ascii]; [s.length] is [String.length s], [a === b] on strings is
      [String.eqb a b], and [!s] holds of the empty string only.
    - A date is the number of milliseconds since the epoch, a [Z].  The
      code stores dates as ISO strings ([toISOString]) and reads them back
      with [new Date(iso)]; ISO strings carry milliseconds, so the round
      trip is the identity on the time values that [toISOString] prints.
      The clock ([Date.now()], [new Date()]) is the parameter [now] of the
      operation that reads it: one synchronous call sees one clock value.
    - [null] and [undefined] are [None]; an object is truthy.
    - [localStorage] is a state that every operation threads through; an
      object that a function mutates ([user] in [updateKeyStatus] and in
      [redeem]) is returned with the result. *)

From Stdlib Require Import ZArith Ascii String List Bool Lia.
From stdpp Require Import gmap strings list fin_maps pretty.

Local Open Scope string_scope.
Local Open Scope Z_scope.

(* ===================================================================== *)
(** ** Regular expressions

    The two patterns of [Validator] are anchored on both sides ([^...$],
    no flags), so [RegExp.prototype.test] decides whether the whole string
    belongs to the language of the pattern.  [test] does it with
    Brzozowski derivatives. *)
(* ===================================================================== *)

Module RegExp.

Inductive regex : Type :=
| Never                                   (* matches nothing *)
| Empty                                   (* matches the empty string *)
| Class (ranges : list (ascii * ascii))   (* [a-zA-Z0-9_], a literal *)
| Cat (r1 r2 : regex)
| Alt (r1 r2 : regex)
| Star (r : regex).

Definition in_range (c : ascii) (r : ascii * ascii) : bool :=
  (nat_of_ascii (fst r) <=? nat_of_ascii c)%nat
  && (nat_of_ascii c <=? nat_of_ascii (snd r))%nat.

Definition in_class (ranges : list (ascii * ascii)) (c : ascii) : bool :=
  existsb (in_range c) ranges.

(** [r{n}] and [r+]. *)
Fixpoint Repeat (n : nat) (r : regex) : regex :=
  match n with
  | O => Empty
  | S n' => Cat r (Repeat n' r)
  end.

Definition Plus (r : regex) : regex := Cat r (Star r).

Definition Lit (c : ascii) : regex := Class [(c, c)].

Fixpoint nullable (r : regex) : bool :=
  match r with
  | Never => false
  | Empty => true
  | Class _ => false
  | Cat r1 r2 => nullable r1 && nullable r2
  | Alt r1 r2 => nullable r1 || nullable r2
  | Star _ => true
  end.

Fixpoint deriv (c : ascii) (r : regex) : regex :=
  match r with
  | Never => Never
  | Empty => Never
  | Class ranges => if in_class ranges c then Empty else Never
  | Cat r1 r2 =>
      if nullable r1
      then Alt (Cat (deriv c r1) r2) (deriv c r2)
      else Cat (deriv c r1) r2
  | Alt r1 r2 => Alt (deriv c r1) (deriv c r2)
  | Star r1 => Cat (deriv c r1) (Star r1)
  end.

Fixpoint derivs (s : string) (r : regex) : regex :=
  match s with
  | EmptyString => r
  | String c s' => derivs s' (deriv c r)
  end.

(** [/^r$/.test(s)] *)
Definition test (r : regex) (s : string) : bool := nullable (derivs s r).

End RegExp.

(* ===================================================================== *)
(** ** CONFIG & CONSTANTS *)
(* ===================================================================== *)

(** An entry of [CONFIG.VALID_KEYS]. *)
Module KeyData.
Record t : Type := mk { code : string; duration : string; type : string }.
End KeyData.

(** An entry of [CONFIG.DURATIONS]; [ms] is [null] for a lifetime key. *)
Module Duration.
Record t : Type := mk { ms : option Z; label : string }.
End Duration.

Module CONFIG.

Definition VALID_KEYS : list KeyData.t :=
  [ KeyData.mk "DEMO-1234-ABCD-5678" "1day" "Trial";
    KeyData.mk "TEST-KEY1-2025-GAME" "1week" "Standard";
    KeyData.mk "FREE-BETA-KEY9-2025" "1month" "Premium";
    KeyData.mk "PREMIUM-2025-ALPHA" "lifetime" "Premium";
    KeyData.mk "SPECIAL-ACCESS-2025" "lifetime" "Premium";
    KeyData.mk "ADMIN-2025-MASTER-KEY" "lifetime" "Admin" ].

Definition STORAGE_PREFIX : string := "user_".
Definition CURRENT_USER_KEY : string := "currentUser".
Definition MIN_USERNAME_LENGTH : nat := 3.
Definition MAX_USERNAME_LENGTH : nat := 20.
Definition MIN_PASSWORD_LENGTH : nat := 6.

Definition DURATIONS : list (string * Duration.t) :=
  [ ("1day", Duration.mk (Some (24 * 60 * 60 * 1000)) "1 Day");
    ("1week", Duration.mk (Some (7 * 24 * 60 * 60 * 1000)) "1 Week");
    ("1month", Duration.mk (Some (30 * 24 * 60 * 60 * 1000)) "1 Month");
    ("lifetime", Duration.mk None "Lifetime") ].

(** [CONFIG.DURATIONS[duration]]: [None] is [undefined]. *)
Fixpoint lookup_duration (table : list (string * Duration.t)) (duration : string)
  : option Duration.t :=
  match table with
  | [] => None
  | (name, d) :: rest =>
      if String.eqb name duration then Some d else lookup_duration rest duration
  end.

End CONFIG.

(* ===================================================================== *)
(** ** UTILITY FUNCTIONS *)
(* ===================================================================== *)

Module Utils.

(** [isExpired(expiryDate)], the clock reading [now]. *)
Definition isExpired (now : Z) (expiryDate : option Z) : bool :=
  match expiryDate with
  | None => false
  | Some expiry => now >? expiry
  end.

(** [calculateExpiryDate(duration)], the clock reading [now].
    [?.ms] of a missing entry is [undefined]; [!ms] holds of [undefined],
    [null] and [0]. *)
Definition calculateExpiryDate (now : Z) (duration : string) : option Z :=
  if String.eqb duration "lifetime" then None
  else
    match CONFIG.lookup_duration CONFIG.DURATIONS duration with
    | None => None
    | Some d =>
        match Duration.ms d with
        | None => None
        | Some ms => if ms =? 0 then None else Some (now + ms)
        end
    end.

(** [Math.ceil(diff / ms)] for an integer [diff] and a positive integer
    [ms].  The source divides two doubles; for dates of the era of the clock
    the difference is an integer below 2^53 and the quotient is below 2^27,
    where a double that is no integer keeps a distance of more than 1/ms from
    the integers, so the ceiling of the double is that of the exact
    quotient. *)
Definition ceilDiv (diff ms : Z) : Z := - ((- diff) / ms).

(** [getDaysRemaining(expiryDate)], the clock reading [now]; [`${days}`]
    prints the integer in decimal. *)
Definition getDaysRemaining (now : Z) (expiryDate : option Z) : string :=
  match expiryDate with
  | None => "Unlimited"
  | Some expiry =>
      let diff := expiry - now in
      let days := ceilDiv diff (1000 * 60 * 60 * 24) in
      if days >? 0 then pretty days ++ " days" else "Expired"
  end.

(** [c.toUpperCase()] of a code unit below 128; the upper case of the other
    code units is not modelled ([None]). *)
Definition upperCaseUnit (c : ascii) : option ascii :=
  let n := nat_of_ascii c in
  if (128 <=? n)%nat then None
  else if ((97 <=? n) && (n <=? 122))%nat then Some (ascii_of_nat (n - 32))
  else Some c.

Fixpoint toUpperCase (s : string) : option string :=
  match s with
  | EmptyString => Some EmptyString
  | String c s' =>
      match upperCaseUnit c, toUpperCase s' with
      | Some c', Some t => Some (String c' t)
      | _, _ => None
      end
  end.

Fixpoint repeatUnit (c : ascii) (n : nat) : string :=
  match n with
  | O => EmptyString
  | S n' => String c (repeatUnit c n')
  end.

(** [s.padEnd(n, c)] for a one-unit filler. *)
Definition padEnd (s : string) (n : nat) (c : ascii) : string :=
  s ++ repeatUnit c (n - String.length s).

(** [s.charAt(i)]: the empty string when [i] is out of range. *)
Definition charAt (s : string) (i : nat) : string :=
  match String.get i s with
  | Some c => String c EmptyString
  | None => EmptyString
  end.

Definition chars : string := "ABCDEFGHIJKLMNOPQRSTUVWXYZ0123456789".

(** The inner loop of [generateKey]: [n] characters, the value of
    [Math.floor(Math.random() * chars.length)] at the i-th call of
    [Math.random] being [draw i], from the call [first] on. *)
Fixpoint randomSegment (draw : nat -> nat) (first n : nat) : string :=
  match n with
  | O => EmptyString
  | S n' => charAt chars (draw first) ++ randomSegment draw (S first) n'
  end.

(** [generateKey(prefix, duration)]; the defaults of the source are
    ['GEN'] and ['lifetime'], and it does not read [duration]. *)
Definition generateKey (draw : nat -> nat) (prefix duration : string) : option string :=
  match toUpperCase prefix with
  | None => None
  | Some upper =>
      Some (String.substring 0 4 (padEnd upper 4 "0")
            ++ "-" ++ randomSegment draw 0 4
            ++ "-" ++ randomSegment draw 4 4
            ++ "-" ++ randomSegment draw 8 4)
  end.

End Utils.

(* ===================================================================== *)
(** ** VALIDATION *)
(* ===================================================================== *)

(** The objects [{ valid: false, message }] and [{ valid: true, data }];
    the validators without data return [valid tt]. *)
Inductive validation (A : Type) : Type :=
| valid (data : A)
| invalid (message : string).
Arguments valid {A} data.
Arguments invalid {A} message.

Module Validator.
Import RegExp.

Definition upper_alnum : regex := Class [("A"%char, "Z"%char); ("0"%char, "9"%char)].

Definition word_char : regex :=
  Class [("a"%char, "z"%char); ("A"%char, "Z"%char); ("0"%char, "9"%char);
         ("_"%char, "_"%char)].

(** [/^[a-zA-Z0-9_]+$/] *)
Definition usernamePattern : regex := Plus word_char.

(** [/^[A-Z0-9]{4}-[A-Z0-9]{4}-[A-Z0-9]{4}-[A-Z0-9]{4}$/] *)
Definition keyPattern : regex :=
  Cat (Repeat 4 upper_alnum)
    (Cat (Lit "-")
      (Cat (Repeat 4 upper_alnum)
        (Cat (Lit "-")
          (Cat (Repeat 4 upper_alnum)
            (Cat (Lit "-") (Repeat 4 upper_alnum)))))).

Definition username (username : string) : validation unit :=
  if String.eqb username "" then invalid "Username is required"
  else if (String.length username <? CONFIG.MIN_USERNAME_LENGTH)%nat
  then invalid "Username must be at least 3 characters"
  else if (CONFIG.MAX_USERNAME_LENGTH <? String.length username)%nat
  then invalid "Username must be less than 20 characters"
  else if negb (test usernamePattern username)
  then invalid "Username can only contain letters, numbers and underscores"
  else valid tt.

Definition password (password : string) : validation unit :=
  if String.eqb password "" then invalid "Password is required"
  else if (String.length password <? CONFIG.MIN_PASSWORD_LENGTH)%nat
  then invalid "Password must be at least 6 characters"
  else valid tt.

(** [Validator.key] over an arbitrary catalog; [find] returns the first
    entry whose code is the key. *)
Definition key_in (catalog : list KeyData.t) (key : string) : validation KeyData.t :=
  if String.eqb key "" then invalid "Key is required"
  else if negb (test keyPattern key)
  then invalid "Invalid key format (use: XXXX-XXXX-XXXX-XXXX)"
  else
    match List.find (fun k => String.eqb (KeyData.code k) key) catalog with
    | None => invalid "Invalid or expired key"
    | Some keyData => valid keyData
    end.

Definition key (key : string) : validation KeyData.t :=
  key_in CONFIG.VALID_KEYS key.

End Validator.

(* ===================================================================== *)
(** ** The stored records *)
(* ===================================================================== *)

(** An element of [user.keys]. *)
Module Key.
Record t : Type := mk {
  code : string;
  game : string;
  type : string;
  duration : string;
  active : bool;
  activatedDate : Z;
  expiryDate : option Z
}.

Definition set_active (a : bool) (k : t) : t :=
  mk (code k) (game k) (type k) (duration k) a (activatedDate k) (expiryDate k).
End Key.

(** The object [userData] of [UserManager.create]. *)
Module User.
Record t : Type := mk {
  username : string;
  password : string;
  isAdmin : bool;
  keys : list Key.t;
  joinDate : Z;
  balance : Z;
  totalOrders : Z;
  lastLogin : Z
}.

Definition set_keys (ks : list Key.t) (u : t) : t :=
  mk (username u) (password u) (isAdmin u) ks (joinDate u) (balance u)
     (totalOrders u) (lastLogin u).

Definition set_password (p : string) (u : t) : t :=
  mk (username u) p (isAdmin u) (keys u) (joinDate u) (balance u)
     (totalOrders u) (lastLogin u).

Definition set_lastLogin (d : Z) (u : t) : t :=
  mk (username u) (password u) (isAdmin u) (keys u) (joinDate u) (balance u)
     (totalOrders u) d.
End User.

(** The result objects [{ success, message }] and [{ success, redirectTo }]. *)
Module Result.
Record t : Type := mk {
  success : bool;
  message : option string;
  redirectTo : option string
}.

Definition failure (m : string) : t := mk false (Some m) None.
Definition ok (m : string) : t := mk true (Some m) None.
Definition redirect (page : string) : t := mk true None (Some page).
End Result.

(* ===================================================================== *)
(** ** STORAGE UTILITY

    The program keeps two kinds of items in [localStorage]: user records
    (JSON objects under the keys ['user_' + username], written by
    [UserManager]) and the name of the current user (a JSON string under
    ['currentUser'], which does not start with ['user_']).  The state holds
    them in two typed components, [items] by storage key and [currentUser],
    and the functions [get], [set] and [remove] of the source, which the
    program calls at these two types, come once for each;
    [JSON.parse (JSON.stringify v)] is [v] for both.

    [setItem] is the one call that can throw (quota, storage unavailable);
    [Storage.set] catches it and returns [false].  Whether the n-th call of
    [setItem] throws is given by [setItem_throws]; [setItem_calls] counts
    the calls made so far. *)
(* ===================================================================== *)

Record LocalStorage : Type := mkLocalStorage {
  items : gmap string User.t;
  currentUser : option string;
  setItem_calls : nat;
  setItem_throws : nat -> bool
}.

Module Storage.

(** [Storage.get(key)] of a user record. *)
Definition get (key : string) (ls : LocalStorage) : option User.t :=
  items ls !! key.

(** [Storage.set(key, value)] of a user record. *)
Definition set (key : string) (value : User.t) (ls : LocalStorage)
  : bool * LocalStorage :=
  let n := setItem_calls ls in
  if setItem_throws ls n
  then (false, mkLocalStorage (items ls) (currentUser ls) (S n) (setItem_throws ls))
  else (true, mkLocalStorage (<[key := value]> (items ls)) (currentUser ls) (S n)
                (setItem_throws ls)).

(** [Storage.remove(key)] of a user record. *)
Definition remove (key : string) (ls : LocalStorage) : bool * LocalStorage :=
  (true, mkLocalStorage (base.delete key (items ls)) (currentUser ls)
           (setItem_calls ls) (setItem_throws ls)).

(** [Storage.get(CONFIG.CURRENT_USER_KEY)] *)
Definition getCurrentUserKey (ls : LocalStorage) : option string :=
  currentUser ls.

(** [Storage.set(CONFIG.CURRENT_USER_KEY, username)] *)
Definition setCurrentUserKey (username : string) (ls : LocalStorage)
  : bool * LocalStorage :=
  let n := setItem_calls ls in
  if setItem_throws ls n
  then (false, mkLocalStorage (items ls) (currentUser ls) (S n) (setItem_throws ls))
  else (true, mkLocalStorage (items ls) (Some username) (S n) (setItem_throws ls)).

(** [Storage.remove(CONFIG.CURRENT_USER_KEY)] *)
Definition removeCurrentUserKey (ls : LocalStorage) : bool * LocalStorage :=
  (true, mkLocalStorage (items ls) None (setItem_calls ls) (setItem_throws ls)).

(** [Storage.getAllUsers()]: the records under the keys that start with
    [CONFIG.STORAGE_PREFIX], in the order of the store. *)
Definition getAllUsers (ls : LocalStorage) : list User.t :=
  map snd
    (List.filter (fun kv => String.prefix CONFIG.STORAGE_PREFIX (fst kv))
       (map_to_list (items ls))).

End Storage.

(* ===================================================================== *)
(** ** USER MANAGEMENT *)
(* ===================================================================== *)

Module UserManager.

Definition storageKey (username : string) : string :=
  CONFIG.STORAGE_PREFIX ++ username.

Definition exists_ (username : string) (ls : LocalStorage) : bool :=
  match Storage.get (storageKey username) ls with
  | Some _ => true
  | None => false
  end.

Definition get (username : string) (ls : LocalStorage) : option User.t :=
  Storage.get (storageKey username) ls.

(** The object that [create] builds. *)
Definition userData (now : Z) (username password : string) (keyData : KeyData.t)
  : User.t :=
  let isAdmin := String.eqb (KeyData.type keyData) "Admin" in
  let expiryDate := Utils.calculateExpiryDate now (KeyData.duration keyData) in
  User.mk username password isAdmin
    [ Key.mk (KeyData.code keyData) "Reverse" (KeyData.type keyData)
        (KeyData.duration keyData) (negb (Utils.isExpired now expiryDate))
        now expiryDate ]
    now 0 0 now.

Definition create (now : Z) (username password : string) (keyData : KeyData.t)
    (ls : LocalStorage) : bool * LocalStorage :=
  Storage.set (storageKey username) (userData now username password keyData) ls.

Definition update (username : string) (userData : User.t) (ls : LocalStorage)
  : bool * LocalStorage :=
  Storage.set (storageKey username) userData ls.

Definition delete (username : string) (ls : LocalStorage) : bool * LocalStorage :=
  Storage.remove (storageKey username) ls.

(** The [forEach] of [updateKeyStatus]: the keys with their flag
    recomputed, and the value of [changed] after the loop, which enters
    it with the value [changed]. *)
Fixpoint refreshKeys (now : Z) (changed : bool) (keys : list Key.t)
  : list Key.t * bool :=
  match keys with
  | [] => ([], changed)
  | key :: rest =>
      let wasActive := Key.active key in
      let key' := Key.set_active (negb (Utils.isExpired now (Key.expiryDate key))) key in
      let changed' := if negb (Bool.eqb wasActive (Key.active key')) then true else changed in
      let (rest', changed'') := refreshKeys now changed' rest in
      (key' :: rest', changed'')
  end.

(** [updateKeyStatus(user)]: the user object after the call, which is
    also the value returned, and the store. *)
Definition updateKeyStatus (now : Z) (user : User.t) (ls : LocalStorage)
  : User.t * LocalStorage :=
  let (keys', changed) := refreshKeys now false (User.keys user) in
  let user' := User.set_keys keys' user in
  if changed
  then (user', snd (update (User.username user') user' ls))
  else (user', ls).

End UserManager.

(* ===================================================================== *)
(** ** AUTHENTICATION *)
(* ===================================================================== *)

Module Auth.

Definition login (now : Z) (username password : string) (ls : LocalStorage)
  : Result.t * LocalStorage :=
  match UserManager.get username ls with
  | None => (Result.failure "User not found", ls)
  | Some user =>
      if negb (String.eqb (User.password user) password)
      then (Result.failure "Incorrect password", ls)
      else
        let user1 := User.set_lastLogin now user in
        let (user2, ls1) := UserManager.updateKeyStatus now user1 ls in
        let ls2 := snd (UserManager.update username user2 ls1) in
        let ls3 := snd (Storage.setCurrentUserKey username ls2) in
        (Result.redirect (if User.isAdmin user2 then "admin.html" else "dashboard.html"),
         ls3)
  end.

Definition register (now : Z) (username password key : string) (ls : LocalStorage)
  : Result.t * LocalStorage :=
  match Validator.username username with
  | invalid m => (Result.failure m, ls)
  | valid _ =>
  match Validator.password password with
  | invalid m => (Result.failure m, ls)
  | valid _ =>
  match Validator.key key with
  | invalid m => (Result.failure m, ls)
  | valid keyData =>
      if UserManager.exists_ username ls
      then (Result.failure "Username already taken", ls)
      else
        let allUsers := Storage.getAllUsers ls in
        let keyUsed :=
          existsb (fun user =>
                     existsb (fun k => String.eqb (Key.code k) key) (User.keys user))
                  allUsers in
        if keyUsed then (Result.failure "Key already used", ls)
        else
          let (created, ls') := UserManager.create now username password keyData ls in
          (if created
           then Result.ok "Account created successfully!"
           else Result.failure "Failed to create account",
           ls')
  end end end.

Definition logout (ls : LocalStorage) : LocalStorage :=
  snd (Storage.removeCurrentUserKey ls).

Definition getCurrentUser (now : Z) (ls : LocalStorage)
  : option User.t * LocalStorage :=
  match Storage.getCurrentUserKey ls with
  | None => (None, ls)
  | Some username =>
      if String.eqb username "" then (None, ls)
      else
        match UserManager.get username ls with
        | None => (None, ls)
        | Some user =>
            let (user', ls') := UserManager.updateKeyStatus now user ls in
            (Some user', ls')
        end
  end.

Definition changePassword (now : Z) (currentPassword newPassword confirmPassword : string)
    (ls : LocalStorage) : Result.t * LocalStorage :=
  match getCurrentUser now ls with
  | (None, ls1) => (Result.failure "Not logged in", ls1)
  | (Some user, ls1) =>
      if negb (String.eqb (User.password user) currentPassword)
      then (Result.failure "Current password is incorrect", ls1)
      else
        match Validator.password newPassword with
        | invalid m => (Result.failure m, ls1)
        | valid _ =>
            if negb (String.eqb newPassword confirmPassword)
            then (Result.failure "Passwords do not match", ls1)
            else
              let user' := User.set_password newPassword user in
              let ls2 := snd (UserManager.update (User.username user') user' ls1) in
              (Result.ok "Password changed successfully", ls2)
        end
  end.

End Auth.

(* ===================================================================== *)
(** ** KEY MANAGEMENT *)
(* ===================================================================== *)

Module KeyManager.

(** [redeem(key, user)]: the result, the user object after the call
    (the call pushes onto [user.keys]), and the store. *)
Definition redeem (now : Z) (key : string) (user : option User.t) (ls : LocalStorage)
  : Result.t * option User.t * LocalStorage :=
  match user with
  | None => (Result.failure "Not logged in", None, ls)
  | Some user =>
      match Validator.key key with
      | invalid m => (Result.failure m, Some user, ls)
      | valid data =>
          if existsb (fun k => String.eqb (Key.code k) key) (User.keys user)
          then (Result.failure "You already have this key", Some user, ls)
          else
            let expiryDate := Utils.calculateExpiryDate now (KeyData.duration data) in
            let user' :=
              User.set_keys
                (User.keys user ++
                   [ Key.mk key "Reverse" (KeyData.type data) (KeyData.duration data)
                       (negb (Utils.isExpired now expiryDate)) now expiryDate ])
                user in
            let ls' := snd (UserManager.update (User.username user') user' ls) in
            (Result.ok "Key activated successfully!", Some user', ls')
      end
  end.

Definition getActiveCount (user : User.t) : nat :=
  length (List.filter (fun k => Key.active k) (User.keys user)).

End KeyManager.

(* ===================================================================== *)
(** ** Notions of the specification *)
(* ===================================================================== *)

(** The language of a pattern. *)
Inductive matches : RegExp.regex -> string -> Prop :=
| matches_empty : matches RegExp.Empty ""
| matches_class ranges c :
    RegExp.in_class ranges c = true ->
    matches (RegExp.Class ranges) (String c "")
| matches_cat r1 r2 s1 s2 :
    matches r1 s1 -> matches r2 s2 -> matches (RegExp.Cat r1 r2) (s1 ++ s2)
| matches_alt_l r1 r2 s : matches r1 s -> matches (RegExp.Alt r1 r2) s
| matches_alt_r r1 r2 s : matches r2 s -> matches (RegExp.Alt r1 r2) s
| matches_star_nil r : matches (RegExp.Star r) ""
| matches_star_app r s1 s2 :
    matches r s1 -> matches (RegExp.Star r) s2 -> matches (RegExp.Star r) (s1 ++ s2).

(** An uppercase letter or a digit. *)
Definition upper_alnum_char (c : ascii) : Prop :=
  (nat_of_ascii "A" <= nat_of_ascii c <= nat_of_ascii "Z")%nat
  \/ (nat_of_ascii "0" <= nat_of_ascii c <= nat_of_ascii "9")%nat.

(** A group of four uppercase-alphanumeric characters. *)
Definition key_group (g : string) : Prop :=
  String.length g = 4%nat /\ Forall upper_alnum_char (list_ascii_of_string g).

(** Four such groups separated by hyphens: [XXXX-XXXX-XXXX-XXXX]. *)
Definition key_format (key : string) : Prop :=
  exists g1 g2 g3 g4,
    key_group g1 /\ key_group g2 /\ key_group g3 /\ key_group g4
    /\ key = g1 ++ "-" ++ g2 ++ "-" ++ g3 ++ "-" ++ g4.

(** The flag that a status refresh at [now] gives a key. *)
Definition refreshKey (now : Z) (k : Key.t) : Key.t :=
  Key.set_active (negb (Utils.isExpired now (Key.expiryDate k))) k.

(** The stored flag of the key is not the one a refresh at [now] gives. *)
Definition staleKey (now : Z) (k : Key.t) : bool :=
  negb (Bool.eqb (Key.active k) (negb (Utils.isExpired now (Key.expiryDate k)))).

(** The number of keys of the account whose expiry date is null or not
    before [now]. *)
Definition unexpiredCount (now : Z) (user : User.t) : nat :=
  length
    (List.filter
       (fun k => match Key.expiryDate k with
                 | None => true
                 | Some expiry => now <=? expiry
                 end)
       (User.keys user)).

(** Every key of the account without expiry date is flagged active. *)
Definition lifetime_active (user : User.t) : Prop :=
  forall k, In k (User.keys user) -> Key.expiryDate k = None -> Key.active k = true.

(** The same of every stored account. *)
Definition store_lifetime_active (ls : LocalStorage) : Prop :=
  forall key user, items ls !! key = Some user -> lifetime_active user.

(** The account holds the key code. *)
Definition holds (code : string) (user : User.t) : bool :=
  existsb (fun k => String.eqb (Key.code k) code) (User.keys user).

(** Some stored account holds the key code. *)
Definition held_in_store (code : string) (ls : LocalStorage) : Prop :=
  exists username user,
    UserManager.get username ls = Some user /\ holds code user = true.

(** No key code is held by two stored accounts. *)
Definition unique_keys (ls : LocalStorage) : Prop :=
  forall name1 name2 user1 user2 code,
    UserManager.get name1 ls = Some user1 ->
    UserManager.get name2 ls = Some user2 ->
    holds code user1 = true ->
    holds code user2 = true ->
    name1 = name2.

(** The messages of the three validators. *)
Definition usernameMessages : list string :=
  [ "Username is required";
    "Username must be at least 3 characters";
    "Username must be less than 20 characters";
    "Username can only contain letters, numbers and underscores" ].

Definition passwordMessages : list string :=
  [ "Password is required"; "Password must be at least 6 characters" ].

Definition keyMessages : list string :=
  [ "Key is required";
    "Invalid key format (use: XXXX-XXXX-XXXX-XXXX)";
    "Invalid or expired key" ].

(** A store without items whose [setItem] never throws. *)
Definition emptyStorage : LocalStorage :=
  mkLocalStorage ∅ None 0 (fun _ => false).

(** The same items in a store whose quota is reached: every [setItem]
    throws. *)
Definition quotaReached (ls : LocalStorage) : LocalStorage :=
  mkLocalStorage (items ls) (currentUser ls) (setItem_calls ls) (fun _ => true).

(** The stores of the scenarios: alice registers with the one-day key, bob
    with the one-week key, and alice logs in. *)
Definition aliceStore : LocalStorage :=
  snd (Auth.register 1000 "alice" "secret1" "DEMO-1234-ABCD-5678" emptyStorage).

Definition aliceBobStore : LocalStorage :=
  snd (Auth.register 2000 "bob" "secret1" "TEST-KEY1-2025-GAME" aliceStore).

Definition aliceLoggedIn : LocalStorage :=
  snd (Auth.login 3000 "alice" "secret1" aliceStore).

(** An account with a key that has no expiry date, and a store that holds
    it. *)
Definition lifetimeUser : User.t :=
  User.mk "erin" "secret1" false
    [ Key.mk "PREMIUM-2025-ALPHA" "Reverse" "Premium" "lifetime" true 0 None ]
    0 0 0 0.

Definition lifetimeStore : LocalStorage :=
  mkLocalStorage {[ "user_erin" := lifetimeUser ]} None 1 (fun _ => false).

(** An account whose one-day key, activated at time 0, is still flagged
    active in the stored record. *)
Definition staleUser : User.t :=
  User.mk "dave" "secret1" false
    [ Key.mk "DEMO-1234-ABCD-5678" "Reverse" "Trial" "1day" true 0 (Some 86400000) ]
    0 0 0 0.

(** The catalog codes that have the format of the key pattern. *)
Definition redeemableCodes : list string :=
  [ "DEMO-1234-ABCD-5678"; "TEST-KEY1-2025-GAME"; "FREE-BETA-KEY9-2025" ].

(** A letter, a digit or an underscore. *)
Definition word_unit (c : ascii) : Prop :=
  (nat_of_ascii "a" <= nat_of_ascii c <= nat_of_ascii "z")%nat
  \/ (nat_of_ascii "A" <= nat_of_ascii c <= nat_of_ascii "Z")%nat
  \/ (nat_of_ascii "0" <= nat_of_ascii c <= nat_of_ascii "9")%nat
  \/ c = "_"%char.

(** Three to twenty letters, digits and underscores. *)
Definition username_shape (username : string) : Prop :=
  (3 <= String.length username <= 20)%nat
  /\ Forall word_unit (list_ascii_of_string username).

(** The store accepts the next write; it accepts every write. *)
Definition accepts (ls : LocalStorage) : Prop :=
  setItem_throws ls (setItem_calls ls) = false.

Definition reliable (ls : LocalStorage) : Prop :=
  forall n, setItem_throws ls n = false.

(** Every stored record sits under the key of its own username. *)
Definition named (ls : LocalStorage) : Prop :=
  forall name user, UserManager.get name ls = Some user -> User.username user = name.

(** A run of registrations, each with its clock value, username, password
    and key, from the first on. *)
Fixpoint registerAll (requests : list (Z * string * string * string))
    (ls : LocalStorage) : LocalStorage :=
  match requests with
  | [] => ls
  | (now, username, password, key) :: rest =>
      registerAll rest (snd (Auth.register now username password key ls))
  end.

(** The account is no admin and holds one key, one of the codes that the
    key pattern accepts. *)
Definition plain_account (user : User.t) : Prop :=
  User.isAdmin user = false
  /\ exists k, User.keys user = [k] /\ In (Key.code k) redeemableCodes.

(** What registrations keep: no code in two accounts, every record under
    its own username, every account plain. *)
Definition registered (ls : LocalStorage) : Prop :=
  unique_keys ls /\ named ls
  /\ forall name user, UserManager.get name ls = Some user -> plain_account user.

(** The code of the first key of the account of an item. *)
Definition firstCode (item : string * User.t) : string :=
  hd "" (map Key.code (User.keys (snd item))).

(** The account holds no code twice and only codes that the key pattern
    accepts. *)
Definition tidy (user : User.t) : Prop :=
  NoDup (map Key.code (User.keys user))
  /\ Forall (fun code => In code redeemableCodes) (map Key.code (User.keys user)).

(** The second account is the first one grown: the same username, admin
    flag and join date, and the same keys up to their flags, followed by
    further keys. *)
Definition grows (user user' : User.t) : Prop :=
  User.username user' = User.username user
  /\ User.isAdmin user' = User.isAdmin user
  /\ User.joinDate user' = User.joinDate user
  /\ exists extra,
       map (Key.set_active false) (User.keys user')
       = (map (Key.set_active false) (User.keys user) ++ extra)%list.

(** Every account of the first store is in the second one, grown. *)
Definition store_grows (ls ls' : LocalStorage) : Prop :=
  forall name user,
    UserManager.get name ls = Some user ->
    exists user', UserManager.get name ls' = Some user' /\ grows user user'.

(** A letter or a digit of ASCII. *)
Definition alnum_unit (c : ascii) : Prop :=
  (nat_of_ascii "a" <= nat_of_ascii c <= nat_of_ascii "z")%nat
  \/ (nat_of_ascii "A" <= nat_of_ascii c <= nat_of_ascii "Z")%nat
  \/ (nat_of_ascii "0" <= nat_of_ascii c <= nat_of_ascii "9")%nat.

(** The key codes of an account, in order. *)
Definition codes (user : User.t) : list string := map Key.code (User.keys user).

(** The two stores have the same usernames, each with the same key codes. *)
Definition same_codes (ls ls' : LocalStorage) : Prop :=
  forall name,
    codes <$> UserManager.get name ls' = codes <$> UserManager.get name ls.

(** One day in milliseconds. *)
Definition day : Z := 86400000.

(* ===================================================================== *)
(** ** The derivative matcher decides the language *)
(* ===================================================================== *)

Section Matcher.
Import RegExp.

Lemma append_empty_inv (s1 s2 : string) : s1 ++ s2 = "" -> s1 = "" /\ s2 = "".
Proof.
  destruct s1 as [|c s1].
  - change ("" ++ s2) with s2. tauto.
  - change (String c s1 ++ s2) with (String c (s1 ++ s2)). discriminate.
Qed.

Lemma matches_cat_inv (r1 r2 : regex) (s : string) :
  matches (Cat r1 r2) s ->
  exists s1 s2, s = s1 ++ s2 /\ matches r1 s1 /\ matches r2 s2.
Proof. inversion 1; subst; eauto. Qed.

Lemma matches_alt_inv (r1 r2 : regex) (s : string) :
  matches (Alt r1 r2) s -> matches r1 s \/ matches r2 s.
Proof. inversion 1; subst; auto. Qed.

Lemma matches_class_inv (ranges : list (ascii * ascii)) (s : string) :
  matches (Class ranges) s ->
  exists c, s = String c "" /\ in_class ranges c = true.
Proof. inversion 1; subst; eauto. Qed.

Lemma matches_empty_inv (s : string) : matches Empty s -> s = "".
Proof. now inversion 1. Qed.

Lemma matches_cat_cons (r1 r2 : regex) (c : ascii) (s1 s2 : string) :
  matches r1 (String c s1) -> matches r2 s2 ->
  matches (Cat r1 r2) (String c (s1 ++ s2)).
Proof.
  intros H1 H2. change (String c (s1 ++ s2)) with (String c s1 ++ s2).
  now constructor.
Qed.

Lemma nullable_matches (r : regex) : nullable r = true <-> matches r "".
Proof.
  induction r as [| | ranges | r1 IH1 r2 IH2 | r1 IH1 r2 IH2 | r IH]; simpl.
  - split; [discriminate | inversion 1].
  - split; [constructor | reflexivity].
  - split; [discriminate | inversion 1].
  - rewrite andb_true_iff, IH1, IH2. split.
    + intros [H1 H2]. change "" with ("" ++ ""). now constructor.
    + intros H. apply matches_cat_inv in H as (s1 & s2 & E & H1 & H2).
      symmetry in E. apply append_empty_inv in E as [-> ->]. tauto.
  - rewrite orb_true_iff, IH1, IH2. split.
    + intros [H | H]; [now apply matches_alt_l | now apply matches_alt_r].
    + apply matches_alt_inv.
  - split; [constructor | reflexivity].
Qed.

Lemma matches_star_cons_inv (r : regex) (c : ascii) (s : string) :
  matches (Star r) (String c s) ->
  exists s1 s2, s = s1 ++ s2 /\ matches r (String c s1) /\ matches (Star r) s2.
Proof.
  intros H. remember (Star r) as r' eqn:Er. remember (String c s) as w eqn:Ew.
  revert s Ew.
  induction H as [| | | | | |r0 s1 s2 H1 _ H2 IH2]; intros t Ew; try discriminate.
  injection Er as ->.
  destruct s1 as [|c1 s1'].
  - now apply IH2.
  - change (String c1 s1' ++ s2) with (String c1 (s1' ++ s2)) in Ew.
    injection Ew as E1 E2. subst. now exists s1', s2.
Qed.

Lemma deriv_matches (r : regex) (c : ascii) (s : string) :
  matches (deriv c r) s <-> matches r (String c s).
Proof.
  revert s.
  induction r as [| | ranges | r1 IH1 r2 IH2 | r1 IH1 r2 IH2 | r IH]; intros s; simpl.
  - split; inversion 1.
  - split; inversion 1.
  - destruct (in_class ranges c) eqn:E; split; intros H.
    + apply matches_empty_inv in H as ->. now constructor.
    + apply matches_class_inv in H as (c' & Es & _). injection Es as _ ->. constructor.
    + inversion H.
    + apply matches_class_inv in H as (c' & Es & Hc). injection Es as -> _. congruence.
  - assert (Hl : matches (Cat (deriv c r1) r2) s -> matches (Cat r1 r2) (String c s)).
    { intros H. apply matches_cat_inv in H as (s1 & s2 & -> & H1 & H2).
      apply matches_cat_cons; [now apply IH1 | assumption]. }
    assert (Hr : matches (Cat r1 r2) (String c s) ->
                 matches (Cat (deriv c r1) r2) s
                 \/ (matches r1 "" /\ matches (deriv c r2) s)).
    { intros H. apply matches_cat_inv in H as (s1 & s2 & E & H1 & H2).
      destruct s1 as [|c1 s1'].
      - right. change ("" ++ s2) with s2 in E. subst s2.
        split; [assumption | now apply IH2].
      - left. change (String c1 s1' ++ s2) with (String c1 (s1' ++ s2)) in E.
        injection E as E1 E2. subst. constructor; [now apply IH1 | assumption]. }
    destruct (nullable r1) eqn:N; split; intros H.
    + apply matches_alt_inv in H as [H | H]; [now apply Hl |].
      change (String c s) with ("" ++ String c s). constructor.
      * now apply nullable_matches.
      * now apply IH2.
    + apply Hr in H as [H | [_ H]]; [now apply matches_alt_l | now apply matches_alt_r].
    + now apply Hl.
    + apply Hr in H as [H | [H _]]; [assumption |].
      apply nullable_matches in H. congruence.
  - split; intros H; apply matches_alt_inv in H as [H | H].
    + apply matches_alt_l. now apply IH1.
    + apply matches_alt_r. now apply IH2.
    + apply matches_alt_l. now apply IH1.
    + apply matches_alt_r. now apply IH2.
  - split; intros H.
    + apply matches_cat_inv in H as (s1 & s2 & -> & H1 & H2).
      change (String c (s1 ++ s2)) with (String c s1 ++ s2).
      constructor; [now apply IH | assumption].
    + apply matches_star_cons_inv in H as (s1 & s2 & -> & H1 & H2).
      constructor; [now apply IH | assumption].
Qed.

Lemma test_matches (r : regex) (s : string) : test r s = true <-> matches r s.
Proof.
  unfold test. revert r.
  induction s as [|c s IH]; intros r; simpl.
  - apply nullable_matches.
  - rewrite IH. apply deriv_matches.
Qed.

End Matcher.

(* ===================================================================== *)
(** ** The key pattern and the format [XXXX-XXXX-XXXX-XXXX] *)
(* ===================================================================== *)

Section KeyPattern.
Import RegExp.

Lemma matches_cat_iff (r1 r2 : regex) (s : string) :
  matches (Cat r1 r2) s <->
  exists s1 s2, s = s1 ++ s2 /\ matches r1 s1 /\ matches r2 s2.
Proof.
  split; [apply matches_cat_inv |].
  intros (s1 & s2 & -> & H1 & H2). now constructor.
Qed.

Lemma in_class_upper_alnum (c : ascii) :
  in_class [("A"%char, "Z"%char); ("0"%char, "9"%char)] c = true
  <-> upper_alnum_char c.
Proof.
  unfold in_class, in_range, upper_alnum_char, existsb, fst, snd.
  rewrite !orb_true_iff, !andb_true_iff, !Nat.leb_le. intuition discriminate.
Qed.

Lemma matches_lit (c : ascii) (s : string) :
  matches (Lit c) s <-> s = String c "".
Proof.
  unfold Lit. split.
  - intros H. apply matches_class_inv in H as (c' & -> & Hc).
    unfold in_class, in_range, existsb, fst, snd in Hc.
    rewrite orb_false_r, andb_true_iff, !Nat.leb_le in Hc.
    assert (E : nat_of_ascii c' = nat_of_ascii c) by lia.
    apply (f_equal ascii_of_nat) in E. rewrite !ascii_nat_embedding in E.
    now subst.
  - intros ->. constructor.
    unfold in_class, in_range, existsb, fst, snd.
    now rewrite orb_false_r, Nat.leb_refl.
Qed.

Lemma matches_repeat_upper_alnum (n : nat) (s : string) :
  matches (Repeat n Validator.upper_alnum) s <->
  String.length s = n /\ Forall upper_alnum_char (list_ascii_of_string s).
Proof.
  revert s. induction n as [|n IH]; intros s.
  - change (Repeat 0 Validator.upper_alnum) with Empty. split.
    + intros H. apply matches_empty_inv in H as ->. split; [reflexivity | constructor].
    + intros [H _]. destruct s; [constructor | discriminate].
  - change (Repeat (S n) Validator.upper_alnum)
      with (Cat Validator.upper_alnum (Repeat n Validator.upper_alnum)).
    rewrite matches_cat_iff. split.
    + intros (s1 & s2 & -> & H1 & H2).
      apply matches_class_inv in H1 as (c & -> & Hc).
      apply IH in H2 as [Hlen Hall].
      change (String c "" ++ s2) with (String c s2). split.
      * simpl. now f_equal.
      * simpl. constructor; [now apply in_class_upper_alnum | assumption].
    + intros [Hlen Hall]. destruct s as [|c s]; [discriminate |].
      simpl in Hlen, Hall. injection Hlen as Hlen.
      apply Forall_cons_iff in Hall as [Hc Hall].
      exists (String c ""), s. split; [reflexivity |]. split.
      * constructor. now apply in_class_upper_alnum.
      * apply IH. now split.
Qed.

Lemma key_format_matches (key : string) :
  matches Validator.keyPattern key <-> key_format key.
Proof.
  unfold Validator.keyPattern, key_format, key_group.
  split.
  - intros H.
    apply matches_cat_inv in H as (g1 & t1 & -> & G1 & H).
    apply matches_cat_inv in H as (h1 & t2 & -> & ->%matches_lit & H).
    apply matches_cat_inv in H as (g2 & t3 & -> & G2 & H).
    apply matches_cat_inv in H as (h2 & t4 & -> & ->%matches_lit & H).
    apply matches_cat_inv in H as (g3 & t5 & -> & G3 & H).
    apply matches_cat_inv in H as (h3 & g4 & -> & ->%matches_lit & G4).
    exists g1, g2, g3, g4.
    rewrite <- !matches_repeat_upper_alnum. auto.
  - intros (g1 & g2 & g3 & g4 & H1 & H2 & H3 & H4 & ->).
    repeat (constructor; [now apply matches_repeat_upper_alnum |]);
    repeat (constructor; [now apply matches_lit |]).
    repeat (constructor; [now apply matches_repeat_upper_alnum |];
            constructor; [now apply matches_lit |]).
    now apply matches_repeat_upper_alnum.
Qed.

(** The regular expression of [Validator.key] accepts exactly the keys
    of the format. *)
Lemma key_format_test (key : string) :
  test Validator.keyPattern key = true <-> key_format key.
Proof. rewrite test_matches. apply key_format_matches. Qed.

End KeyPattern.

(* ===================================================================== *)
(** ** Validator.key *)
(* ===================================================================== *)

Lemma key_format_nonempty (key : string) : key_format key -> key <> "".
Proof. intros H ->. apply key_format_test in H. discriminate. Qed.

Lemma find_code_none (catalog : list KeyData.t) (key : string) :
  (forall k, In k catalog -> KeyData.code k <> key) ->
  List.find (fun k => String.eqb (KeyData.code k) key) catalog = None.
Proof.
  intros Hnone.
  destruct (List.find _ catalog) as [k|] eqn:E; [| reflexivity].
  apply List.find_some in E as [Hin Heq]. apply String.eqb_eq in Heq.
  now destruct (Hnone k Hin).
Qed.

(** C5. [Validator.key] answers 'Key is required' on the empty key; on a
    non-empty key that is not of the format XXXX-XXXX-XXXX-XXXX (four groups
    of four uppercase letters or digits, separated by hyphens) it answers
    'Invalid key format (use: XXXX-XXXX-XXXX-XXXX)' whatever the catalog
    holds, so before any catalog lookup; on a key of the format whose code
    no catalog entry has, it answers 'Invalid or expired key'; and on a key
    of the format that is the code of a catalog entry it is valid and returns
    that entry. *)
Theorem validateKey_cases (key : string) :
  (key = "" -> Validator.key key = invalid "Key is required")
  /\ (key <> "" -> ~ key_format key ->
      forall catalog,
        Validator.key_in catalog key
        = invalid "Invalid key format (use: XXXX-XXXX-XXXX-XXXX)")
  /\ (key_format key ->
      (forall k, In k CONFIG.VALID_KEYS -> KeyData.code k <> key) ->
      Validator.key key = invalid "Invalid or expired key")
  /\ (key_format key ->
      forall k, In k CONFIG.VALID_KEYS -> KeyData.code k = key ->
      Validator.key key = valid k).
Proof.
  repeat split.
  - intros ->. reflexivity.
  - intros Hne Hfmt catalog. unfold Validator.key_in.
    apply String.eqb_neq in Hne. rewrite Hne.
    destruct (RegExp.test Validator.keyPattern key) eqn:T; [| reflexivity].
    apply key_format_test in T. contradiction.
  - intros Hfmt Hnone. unfold Validator.key, Validator.key_in.
    pose proof (key_format_nonempty key Hfmt) as Hne.
    apply String.eqb_neq in Hne. rewrite Hne.
    apply key_format_test in Hfmt. rewrite Hfmt. simpl negb. cbv iota.
    now rewrite find_code_none.
  - intros Hfmt k Hin Hcode. apply key_format_test in Hfmt.
    simpl in Hin.
    destruct Hin as [<- | [<- | [<- | [<- | [<- | [<- | []]]]]]];
      simpl in Hcode; subst key; solve [reflexivity | discriminate Hfmt].
Qed.

Lemma validateKey_cases_witness :
  Validator.key "" = invalid "Key is required"
  /\ Validator.key_in [] "BAD-FORMAT"
     = invalid "Invalid key format (use: XXXX-XXXX-XXXX-XXXX)"
  /\ Validator.key "ABCD-EFGH-1234-5678" = invalid "Invalid or expired key"
  /\ Validator.key "TEST-KEY1-2025-GAME"
     = valid (KeyData.mk "TEST-KEY1-2025-GAME" "1week" "Standard").
Proof.
  split; [| split; [| split]].
  - apply (validateKey_cases ""). reflexivity.
  - apply (validateKey_cases "BAD-FORMAT").
    + discriminate.
    + intros H. apply key_format_test in H. vm_compute in H. discriminate.
  - apply (validateKey_cases "ABCD-EFGH-1234-5678").
    + apply key_format_test. vm_compute. reflexivity.
    + intros k Hin. simpl in Hin.
      destruct Hin as [<- | [<- | [<- | [<- | [<- | [<- | []]]]]]]; discriminate.
  - apply (validateKey_cases "TEST-KEY1-2025-GAME").
    + apply key_format_test. vm_compute. reflexivity.
    + simpl. auto.
    + reflexivity.
Defined.

(* ===================================================================== *)
(** ** Utils.calculateExpiryDate and Utils.isExpired *)
(* ===================================================================== *)

(** C6. For the three bounded durations the expiry date is the clock value
    plus exactly one day, seven days and thirty days of milliseconds, and
    for a lifetime key it is null.  A null expiry date is never expired; a
    date is expired exactly when the clock is past it, so not yet when the
    clock equals it and from one millisecond later on. *)
Theorem expiry_exact (now : Z) (expiry : Z) :
  Utils.calculateExpiryDate now "1day" = Some (now + 86400000)
  /\ Utils.calculateExpiryDate now "1week" = Some (now + 7 * 86400000)
  /\ Utils.calculateExpiryDate now "1month" = Some (now + 30 * 86400000)
  /\ Utils.calculateExpiryDate now "lifetime" = None
  /\ Utils.isExpired now None = false
  /\ (Utils.isExpired now (Some expiry) = true <-> now > expiry)
  /\ (Utils.isExpired now (Some expiry) = true <-> expiry + 1 <= now)
  /\ Utils.isExpired expiry (Some expiry) = false
  /\ Utils.isExpired (expiry + 1) (Some expiry) = true.
Proof.
  unfold Utils.isExpired.
  split; [reflexivity |]. split; [reflexivity |]. split; [reflexivity |].
  split; [reflexivity |]. split; [reflexivity |].
  rewrite !Z.gtb_ltb, Z.ltb_lt, Z.ltb_irrefl.
  repeat split; intros; lia.
Qed.

(* ===================================================================== *)
(** ** Registration with the admin key *)
(* ===================================================================== *)

(** C2. The catalog code ADMIN-2025-MASTER-KEY has groups of five, four, six
    and three characters, so the key pattern rejects it: on every store,
    registering bob with it fails with the format message and leaves the
    store as it was; no admin account is created. *)
Theorem register_admin_key_rejected (now : Z) (ls : LocalStorage) :
  Auth.register now "bob" "secret1" "ADMIN-2025-MASTER-KEY" ls
  = (Result.failure "Invalid key format (use: XXXX-XXXX-XXXX-XXXX)", ls).
Proof. reflexivity. Qed.

(* ===================================================================== *)
(** ** UserManager.updateKeyStatus *)
(* ===================================================================== *)

Lemma refreshKeys_spec (now : Z) (changed : bool) (keys : list Key.t) :
  UserManager.refreshKeys now changed keys
  = (map (refreshKey now) keys, changed || existsb (staleKey now) keys).
Proof.
  revert changed. induction keys as [|k keys IH]; intros changed; simpl.
  - now rewrite orb_false_r.
  - rewrite IH. f_equal. unfold staleKey.
    destruct (negb (Bool.eqb _ _)), changed; reflexivity.
Qed.

Lemma refreshKey_idem (now : Z) (k : Key.t) :
  refreshKey now (refreshKey now k) = refreshKey now k.
Proof. reflexivity. Qed.

Lemma refreshKey_not_stale (now : Z) (k : Key.t) :
  staleKey now (refreshKey now k) = false.
Proof. unfold staleKey, refreshKey. simpl. now rewrite Bool.eqb_reflx. Qed.

Lemma refreshed_not_stale (now : Z) (keys : list Key.t) (user : User.t) :
  existsb (staleKey now)
    (User.keys (User.set_keys (map (refreshKey now) keys) user)) = false.
Proof.
  simpl. induction keys as [|k ks IH]; [reflexivity |].
  simpl. now rewrite refreshKey_not_stale, IH.
Qed.

Lemma refreshed_fixed (now : Z) (keys : list Key.t) (user : User.t) :
  map (refreshKey now) (User.keys (User.set_keys (map (refreshKey now) keys) user))
  = User.keys (User.set_keys (map (refreshKey now) keys) user).
Proof.
  simpl. rewrite map_map. apply map_ext. intros k. apply refreshKey_idem.
Qed.

Lemma updateKeyStatus_user (now : Z) (user : User.t) (ls : LocalStorage) :
  fst (UserManager.updateKeyStatus now user ls)
  = User.set_keys (map (refreshKey now) (User.keys user)) user.
Proof.
  unfold UserManager.updateKeyStatus. rewrite refreshKeys_spec.
  now destruct (false || existsb _ _).
Qed.

Lemma updateKeyStatus_store (now : Z) (user : User.t) (ls : LocalStorage) :
  snd (UserManager.updateKeyStatus now user ls)
  = if existsb (staleKey now) (User.keys user)
    then snd (UserManager.update (User.username user)
                (User.set_keys (map (refreshKey now) (User.keys user)) user) ls)
    else ls.
Proof.
  unfold UserManager.updateKeyStatus. rewrite refreshKeys_spec. simpl orb.
  now destruct (existsb _ _).
Qed.

(** C7. A second status refresh at the same clock value, of the account
    that the first one returned and on the store that the first one left,
    returns that account and that store: no item changes and [setItem] is
    not called, as the count of its calls is part of the store. *)
Theorem updateKeyStatus_idempotent (now : Z) (user : User.t) (ls : LocalStorage) :
  UserManager.updateKeyStatus now
    (fst (UserManager.updateKeyStatus now user ls))
    (snd (UserManager.updateKeyStatus now user ls))
  = UserManager.updateKeyStatus now user ls.
Proof.
  set (r := UserManager.updateKeyStatus now user ls).
  assert (Eu : fst r = User.set_keys (map (refreshKey now) (User.keys user)) user)
    by apply updateKeyStatus_user.
  rewrite (surjective_pairing (UserManager.updateKeyStatus now (fst r) (snd r))).
  rewrite updateKeyStatus_user, updateKeyStatus_store.
  assert (Hfresh : existsb (staleKey now) (User.keys (fst r)) = false)
    by (rewrite Eu; apply refreshed_not_stale).
  rewrite Hfresh.
  assert (Hkeys : map (refreshKey now) (User.keys (fst r)) = User.keys (fst r))
    by (rewrite Eu; apply refreshed_fixed).
  rewrite Hkeys.
  replace (User.set_keys (User.keys (fst r)) (fst r)) with (fst r)
    by now destruct (fst r).
  symmetry. apply surjective_pairing.
Qed.

(** Scenario E: the one-day key of [staleUser] is two days old; the refresh
    clears its flag and calls [setItem] once, and a second refresh calls it
    no more. *)
Example scenario_E :
  let r := UserManager.updateKeyStatus 172800000 staleUser emptyStorage in
  map Key.active (User.keys (fst r)) = [false]
  /\ setItem_calls (snd r) = 1%nat
  /\ UserManager.get "dave" (snd r) = Some (fst r)
  /\ setItem_calls (snd (UserManager.updateKeyStatus 172800000 (fst r) (snd r))) = 1%nat.
Proof. vm_compute. repeat split. Qed.

(* ===================================================================== *)
(** ** KeyManager.getActiveCount *)
(* ===================================================================== *)

Lemma count_refreshed (now : Z) (keys : list Key.t) :
  length (List.filter (fun k => Key.active k) (map (refreshKey now) keys))
  = length
      (List.filter
         (fun k => match Key.expiryDate k with
                   | None => true
                   | Some expiry => now <=? expiry
                   end) keys).
Proof.
  induction keys as [|k keys IH]; [reflexivity |].
  simpl. destruct (Key.expiryDate k) as [expiry|]; simpl.
  - rewrite Z.gtb_ltb, <- Z.leb_antisym.
    destruct (now <=? expiry); simpl; now rewrite IH.
  - now rewrite IH.
Qed.

Lemma count_flags (keys : list Key.t) :
  length (List.filter (fun k => Key.active k) keys)
  = count_occ bool_dec (map Key.active keys) true.
Proof.
  induction keys as [|k keys IH]; [reflexivity |].
  simpl. destruct (Key.active k); simpl; now rewrite IH.
Qed.

(** C3, as the code has it.  [getActiveCount] takes no clock value and
    refreshes nothing: its value is the number of occurrences of [true]
    among the stored flags of the keys.  On the account that a status
    refresh at [now] returns, it is the number of keys whose expiry date is
    null or not before [now], whatever the flags were before the refresh. *)
Theorem getActiveCount_after_refresh (now : Z) (user : User.t) (ls : LocalStorage) :
  KeyManager.getActiveCount user
  = count_occ bool_dec (map Key.active (User.keys user)) true
  /\ KeyManager.getActiveCount (fst (UserManager.updateKeyStatus now user ls))
     = unexpiredCount now user.
Proof.
  split; [apply count_flags |].
  rewrite updateKeyStatus_user. unfold KeyManager.getActiveCount, unexpiredCount.
  simpl. apply count_refreshed.
Qed.

(** C3, as the specification states it, fails: two days after its activation the
    one-day key of [staleUser] has expired, and [getActiveCount] still
    counts it, because its stored flag is set. *)
Lemma getActiveCount_counts_stale_flag :
  KeyManager.getActiveCount staleUser <> unexpiredCount 172800000 staleUser.
Proof. vm_compute. discriminate. Qed.

(* ===================================================================== *)
(** ** UserManager.create and UserManager.get *)
(* ===================================================================== *)

(** The session pointer is no user record: its key has not the prefix of
    the user keys, so [getAllUsers] skips it and no username maps to it. *)
Lemma session_key_is_no_user_key (username : string) :
  String.prefix CONFIG.STORAGE_PREFIX CONFIG.CURRENT_USER_KEY = false
  /\ UserManager.storageKey username <> CONFIG.CURRENT_USER_KEY.
Proof.
  split; [reflexivity |]. unfold UserManager.storageKey. discriminate.
Qed.

Lemma set_accepted (key : string) (value : User.t) (ls : LocalStorage) :
  setItem_throws ls (setItem_calls ls) = false ->
  Storage.set key value ls
  = (true, mkLocalStorage (<[key := value]> (items ls)) (currentUser ls)
             (S (setItem_calls ls)) (setItem_throws ls)).
Proof. intros H. unfold Storage.set. now rewrite H. Qed.

Lemma set_refused (key : string) (value : User.t) (ls : LocalStorage) :
  setItem_throws ls (setItem_calls ls) = true ->
  Storage.set key value ls
  = (false, mkLocalStorage (items ls) (currentUser ls)
              (S (setItem_calls ls)) (setItem_throws ls)).
Proof. intros H. unfold Storage.set. now rewrite H. Qed.

Lemma set_true_accepted (key : string) (value : User.t) (ls : LocalStorage) :
  fst (Storage.set key value ls) = true ->
  setItem_throws ls (setItem_calls ls) = false.
Proof.
  unfold Storage.set. now destruct (setItem_throws ls (setItem_calls ls)).
Qed.

(** C8. When [create] reports success, [get] of the same username on the
    store it leaves returns an account with exactly one key, which has the
    code, the type and the duration of the catalog entry, and the account is
    an admin exactly when the type of the entry is Admin. *)
Theorem create_get_roundtrip
    (now : Z) (username password : string) (keyData : KeyData.t) (ls : LocalStorage) :
  fst (UserManager.create now username password keyData ls) = true ->
  exists user k,
    UserManager.get username
      (snd (UserManager.create now username password keyData ls)) = Some user
    /\ User.keys user = [k]
    /\ Key.code k = KeyData.code keyData
    /\ Key.type k = KeyData.type keyData
    /\ Key.duration k = KeyData.duration keyData
    /\ (User.isAdmin user = true <-> KeyData.type keyData = "Admin").
Proof.
  unfold UserManager.create. intros Hok.
  apply set_true_accepted in Hok. rewrite (set_accepted _ _ _ Hok).
  eexists. eexists. split.
  - unfold UserManager.get, Storage.get. simpl. apply lookup_insert_eq.
  - simpl. repeat split; try reflexivity; apply String.eqb_eq.
Qed.

Lemma create_get_roundtrip_witness :
  exists user k,
    UserManager.get "alice"
      (snd (UserManager.create 1000 "alice" "secret1"
              (KeyData.mk "DEMO-1234-ABCD-5678" "1day" "Trial") emptyStorage))
    = Some user
    /\ User.keys user = [k]
    /\ Key.code k = "DEMO-1234-ABCD-5678"
    /\ Key.type k = "Trial"
    /\ Key.duration k = "1day"
    /\ (User.isAdmin user = true <-> "Trial" = "Admin").
Proof.
  apply (create_get_roundtrip 1000 "alice" "secret1"
           (KeyData.mk "DEMO-1234-ABCD-5678" "1day" "Trial") emptyStorage).
  reflexivity.
Defined.

(* ===================================================================== *)
(** ** Storage.getAllUsers *)
(* ===================================================================== *)

Lemma prefix_append (p s : string) :
  String.prefix p s = true <-> exists r, s = p ++ r.
Proof.
  revert s. induction p as [|a p IH]; intros s.
  - split; [intros _; now exists s | intros _; now destruct s].
  - destruct s as [|b s].
    + split; [discriminate | intros [r Hr]; discriminate Hr].
    + simpl String.prefix. destruct (ascii_dec a b) as [->|Hab].
      * rewrite IH. split; intros [r Hr]; exists r.
        -- change (String b p ++ r) with (String b (p ++ r)). now f_equal.
        -- change (String b p ++ r) with (String b (p ++ r)) in Hr. now injection Hr.
      * split; [discriminate |]. intros [r Hr].
        change (String a p ++ r) with (String a (p ++ r)) in Hr. congruence.
Qed.

Lemma In_getAllUsers (user : User.t) (ls : LocalStorage) :
  In user (Storage.getAllUsers ls) <->
  exists username, UserManager.get username ls = Some user.
Proof.
  unfold Storage.getAllUsers, UserManager.get, UserManager.storageKey, Storage.get.
  rewrite in_map_iff. split.
  - intros ([k u] & Eu & Hin). simpl in Eu. subst u.
    apply filter_In in Hin as [Hin Hpre]. simpl in Hpre.
    apply prefix_append in Hpre as [name ->]. exists name.
    apply list_elem_of_In in Hin. now apply elem_of_map_to_list in Hin.
  - intros [name Hget]. exists (CONFIG.STORAGE_PREFIX ++ name, user).
    split; [reflexivity |]. apply filter_In. split.
    + apply list_elem_of_In. now apply elem_of_map_to_list.
    + simpl. apply prefix_append. now exists name.
Qed.

(** The scan of [register] finds the key exactly when a stored account
    holds it. *)
Lemma keyUsed_held (key : string) (ls : LocalStorage) :
  existsb (fun user => existsb (fun k => String.eqb (Key.code k) key) (User.keys user))
    (Storage.getAllUsers ls) = true
  <-> held_in_store key ls.
Proof.
  unfold held_in_store. rewrite existsb_exists. split.
  - intros (user & Hin & Hholds). apply In_getAllUsers in Hin as [name Hget].
    now exists name, user.
  - intros (name & user & Hget & Hholds). exists user. split; [| assumption].
    apply In_getAllUsers. now exists name.
Qed.

(* ===================================================================== *)
(** ** Auth.register *)
(* ===================================================================== *)

Lemma username_messages (username m : string) :
  Validator.username username = invalid m -> In m usernameMessages.
Proof.
  unfold Validator.username, usernameMessages.
  repeat match goal with |- context [if ?b then _ else _] => destruct b end;
    intros H; inversion H; simpl; auto.
Qed.

Lemma password_messages (password m : string) :
  Validator.password password = invalid m -> In m passwordMessages.
Proof.
  unfold Validator.password, passwordMessages.
  repeat match goal with |- context [if ?b then _ else _] => destruct b end;
    intros H; inversion H; simpl; auto.
Qed.

Lemma key_messages (key m : string) :
  Validator.key key = invalid m -> In m keyMessages.
Proof.
  unfold Validator.key, Validator.key_in, keyMessages.
  repeat match goal with |- context [if ?b then _ else _] => destruct b end;
    try destruct (List.find _ _); intros H; inversion H; simpl; auto.
Qed.

(** C9. [register] reports the message of the username validator when it
    fails; else that of the password validator when it fails; else that of
    the key validator when it fails; and in these cases it leaves the store
    as it was.  With the three fields valid it answers 'Username already
    taken' when the account exists, also when the key is held; else 'Key
    already used' when some stored account holds the key; else it calls
    [create]: when the store accepts the write the result is a success and
    the new account is stored, an admin exactly when the type of the matched
    catalog entry is Admin, and when the store refuses the write the answer
    is 'Failed to create account' and no item changes.  The messages of
    the failure kinds are pairwise distinct. *)
Theorem register_order (now : Z) (username password key : string) (ls : LocalStorage) :
  let r := Auth.register now username password key ls in
  (forall m, Validator.username username = invalid m ->
             r = (Result.failure m, ls))
  /\ (Validator.username username = valid tt ->
      forall m, Validator.password password = invalid m ->
                r = (Result.failure m, ls))
  /\ (Validator.username username = valid tt ->
      Validator.password password = valid tt ->
      forall m, Validator.key key = invalid m ->
                r = (Result.failure m, ls))
  /\ (Validator.username username = valid tt ->
      Validator.password password = valid tt ->
      forall keyData, Validator.key key = valid keyData ->
        (UserManager.exists_ username ls = true ->
         r = (Result.failure "Username already taken", ls))
        /\ (UserManager.exists_ username ls = false ->
            held_in_store key ls ->
            r = (Result.failure "Key already used", ls))
        /\ (UserManager.exists_ username ls = false ->
            ~ held_in_store key ls ->
            setItem_throws ls (setItem_calls ls) = false ->
            fst r = Result.ok "Account created successfully!"
            /\ exists user,
                 UserManager.get username (snd r) = Some user
                 /\ user = UserManager.userData now username password keyData
                 /\ (User.isAdmin user = true <-> KeyData.type keyData = "Admin"))
        /\ (UserManager.exists_ username ls = false ->
            ~ held_in_store key ls ->
            setItem_throws ls (setItem_calls ls) = true ->
            fst r = Result.failure "Failed to create account"
            /\ items (snd r) = items ls
            /\ currentUser (snd r) = currentUser ls))
  /\ (forall m, Validator.username username = invalid m -> In m usernameMessages)
  /\ (forall m, Validator.password password = invalid m -> In m passwordMessages)
  /\ (forall m, Validator.key key = invalid m -> In m keyMessages)
  /\ NoDup (usernameMessages ++ passwordMessages ++ keyMessages
            ++ ["Username already taken"; "Key already used";
                "Failed to create account"]).
Proof.
  intros r. subst r. unfold Auth.register.
  split; [| split; [| split; [| split; [| split; [| split; [| split]]]]]].
  - intros m ->. reflexivity.
  - intros -> m ->. reflexivity.
  - intros -> -> m ->. reflexivity.
  - intros -> -> keyData ->.
    split; [| split; [| split]].
    + intros ->. reflexivity.
    + intros -> Hheld. apply keyUsed_held in Hheld. now rewrite Hheld.
    + intros -> Hfree Hok.
      destruct (existsb _ (Storage.getAllUsers ls)) eqn:Hscan;
        [apply keyUsed_held in Hscan; contradiction |].
      unfold UserManager.create. rewrite (set_accepted _ _ _ Hok). simpl.
      split; [reflexivity |].
      exists (UserManager.userData now username password keyData).
      split; [| split; [reflexivity |]].
      * unfold UserManager.get, Storage.get. simpl. apply lookup_insert_eq.
      * simpl. apply String.eqb_eq.
    + intros -> Hfree Hfull.
      destruct (existsb _ (Storage.getAllUsers ls)) eqn:Hscan;
        [apply keyUsed_held in Hscan; contradiction |].
      unfold UserManager.create. rewrite (set_refused _ _ _ Hfull). simpl.
      auto.
  - apply username_messages.
  - apply password_messages.
  - apply key_messages.
  - unfold usernameMessages, passwordMessages, keyMessages. simpl.
    repeat (apply NoDup_cons_2; [rewrite ?elem_of_cons, elem_of_nil; intuition discriminate |]).
    apply NoDup_nil_2.
Qed.

Lemma register_order_witness :
  Auth.register 3000 "x" "pw12345" "BAD-FORMAT" aliceStore
  = (Result.failure "Username must be at least 3 characters", aliceStore)
  /\ Auth.register 3000 "carol" "pw12345" "DEMO-1234-ABCD-5678" aliceStore
     = (Result.failure "Key already used", aliceStore)
  /\ fst (Auth.register 1000 "alice" "secret1" "DEMO-1234-ABCD-5678" emptyStorage)
     = Result.ok "Account created successfully!".
Proof.
  split; [| split].
  - pose proof (register_order 3000 "x" "pw12345" "BAD-FORMAT" aliceStore) as (H & _).
    apply H. reflexivity.
  - pose proof (register_order 3000 "carol" "pw12345" "DEMO-1234-ABCD-5678" aliceStore)
      as (_ & _ & _ & H & _).
    destruct (H eq_refl eq_refl _ eq_refl) as (_ & Hused & _).
    apply Hused; [reflexivity |].
    exists "alice".
    exists (UserManager.userData 1000 "alice" "secret1"
              (KeyData.mk "DEMO-1234-ABCD-5678" "1day" "Trial")).
    split; vm_compute; reflexivity.
  - pose proof (register_order 1000 "alice" "secret1" "DEMO-1234-ABCD-5678" emptyStorage)
      as (_ & _ & _ & H & _).
    destruct (H eq_refl eq_refl _ eq_refl) as (_ & _ & Hnew & _).
    apply Hnew; [reflexivity | | reflexivity].
    intros (name & user & Hget & _). vm_compute in Hget. discriminate.
Defined.

(** Scenarios A, C and D on the code. *)
Example scenario_A :
  fst (Auth.login 3000 "alice" "secret1" aliceStore) = Result.redirect "dashboard.html"
  /\ (KeyManager.getActiveCount <$> UserManager.get "alice" aliceLoggedIn) = Some 1%nat.
Proof. vm_compute. split; reflexivity. Qed.

Example scenario_C :
  fst (Auth.register 3000 "carol" "pw12345" "DEMO-1234-ABCD-5678" aliceStore)
  = Result.failure "Key already used".
Proof. vm_compute. reflexivity. Qed.

Example scenario_D :
  fst (Auth.register 3000 "x" "pw12345" "BAD-FORMAT" emptyStorage)
  = Result.failure "Username must be at least 3 characters"
  /\ fst (Auth.register 3000 "xyz" "pw12345" "BAD-FORMAT" emptyStorage)
     = Result.failure "Invalid key format (use: XXXX-XXXX-XXXX-XXXX)".
Proof. vm_compute. split; reflexivity. Qed.

(* ===================================================================== *)
(** ** Keys without expiry date stay active *)
(* ===================================================================== *)

Section LifetimeKeys.

Variable now : Z.

Lemma lifetime_active_refreshed (keys : list Key.t) (user : User.t) :
  lifetime_active (User.set_keys (map (refreshKey now) keys) user).
Proof.
  intros k Hin Hnull. simpl in Hin.
  apply in_map_iff in Hin as (k0 & <- & _).
  unfold refreshKey in *. simpl in *. now rewrite Hnull.
Qed.

Lemma lifetime_active_updateKeyStatus (user : User.t) (ls : LocalStorage) :
  lifetime_active (fst (UserManager.updateKeyStatus now user ls)).
Proof. rewrite updateKeyStatus_user. apply lifetime_active_refreshed. Qed.

Lemma lifetime_active_userData (username password : string) (keyData : KeyData.t) :
  lifetime_active (UserManager.userData now username password keyData).
Proof.
  intros k [<- | []] Hnull. simpl in *. now rewrite Hnull.
Qed.

Lemma lifetime_active_redeem (key : string) (user user' : User.t) (ls : LocalStorage) :
  lifetime_active user ->
  snd (fst (KeyManager.redeem now key (Some user) ls)) = Some user' ->
  lifetime_active user'.
Proof.
  intros Hinv. unfold KeyManager.redeem.
  destruct (Validator.key key) as [data | m]; simpl.
  - destruct (existsb _ (User.keys user)); simpl; intros [= <-]; [assumption |].
    intros k Hin Hnull. simpl in Hin. apply in_app_iff in Hin as [Hin | [<- | []]].
    + now apply Hinv.
    + simpl in *. now rewrite Hnull.
  - now intros [= <-].
Qed.

Lemma store_inv_set (key : string) (value : User.t) (ls : LocalStorage) :
  lifetime_active value ->
  store_lifetime_active ls ->
  store_lifetime_active (snd (Storage.set key value ls)).
Proof.
  intros Hv Hls. unfold Storage.set.
  destruct (setItem_throws ls (setItem_calls ls)); simpl; [exact Hls |].
  intros k u Hlook. simpl in Hlook.
  apply lookup_insert_Some in Hlook as [[_ <-] | [_ Hlook]]; [assumption |].
  exact (Hls k u Hlook).
Qed.

Lemma store_inv_setCurrentUserKey (username : string) (ls : LocalStorage) :
  store_lifetime_active ls ->
  store_lifetime_active (snd (Storage.setCurrentUserKey username ls)).
Proof.
  intros Hls. unfold Storage.setCurrentUserKey.
  now destruct (setItem_throws ls (setItem_calls ls)).
Qed.

Lemma store_inv_updateKeyStatus (user : User.t) (ls : LocalStorage) :
  store_lifetime_active ls ->
  store_lifetime_active (snd (UserManager.updateKeyStatus now user ls)).
Proof.
  intros Hls. rewrite updateKeyStatus_store.
  destruct (existsb _ _); [| assumption].
  apply store_inv_set; [apply lifetime_active_refreshed | assumption].
Qed.

Lemma store_inv_register (username password key : string) (ls : LocalStorage) :
  store_lifetime_active ls ->
  store_lifetime_active (snd (Auth.register now username password key ls)).
Proof.
  intros Hls. unfold Auth.register.
  destruct (Validator.username username); [| assumption].
  destruct (Validator.password password); [| assumption].
  destruct (Validator.key key) as [keyData | m]; [| assumption].
  destruct (UserManager.exists_ username ls); [assumption |].
  destruct (existsb _ _); [assumption |].
  unfold UserManager.create.
  pose proof (store_inv_set (UserManager.storageKey username)
                (UserManager.userData now username password keyData) ls
                (lifetime_active_userData _ _ _) Hls) as H.
  now destruct (Storage.set _ _ ls).
Qed.

Lemma store_inv_login (username password : string) (ls : LocalStorage) :
  store_lifetime_active ls ->
  store_lifetime_active (snd (Auth.login now username password ls)).
Proof.
  intros Hls. unfold Auth.login.
  destruct (UserManager.get username ls) as [user |]; [| assumption].
  destruct (negb _); [assumption |].
  pose proof (lifetime_active_updateKeyStatus (User.set_lastLogin now user) ls) as Hu.
  pose proof (store_inv_updateKeyStatus (User.set_lastLogin now user) ls Hls) as Hs.
  destruct (UserManager.updateKeyStatus now _ ls) as [user2 ls1]. simpl in *.
  apply store_inv_setCurrentUserKey. unfold UserManager.update.
  now apply store_inv_set.
Qed.

Lemma getCurrentUser_inv (ls : LocalStorage) :
  store_lifetime_active ls ->
  store_lifetime_active (snd (Auth.getCurrentUser now ls))
  /\ forall user, fst (Auth.getCurrentUser now ls) = Some user -> lifetime_active user.
Proof.
  intros Hls. unfold Auth.getCurrentUser.
  destruct (Storage.getCurrentUserKey ls) as [username |]; [| now split].
  destruct (String.eqb username ""); [now split |].
  destruct (UserManager.get username ls) as [user |]; [| now split].
  pose proof (lifetime_active_updateKeyStatus user ls) as Hu.
  pose proof (store_inv_updateKeyStatus user ls Hls) as Hs.
  destruct (UserManager.updateKeyStatus now user ls) as [user' ls']. simpl in *.
  split; [assumption |]. now intros ? [= <-].
Qed.

Lemma store_inv_changePassword (currentPassword newPassword confirmPassword : string)
    (ls : LocalStorage) :
  store_lifetime_active ls ->
  store_lifetime_active
    (snd (Auth.changePassword now currentPassword newPassword confirmPassword ls)).
Proof.
  intros Hls. unfold Auth.changePassword.
  destruct (getCurrentUser_inv ls Hls) as [Hs Hu].
  destruct (Auth.getCurrentUser now ls) as [[user |] ls1]; simpl in *; [| assumption].
  destruct (negb _); [assumption |].
  destruct (Validator.password newPassword); [| assumption].
  destruct (negb _); [assumption |].
  unfold UserManager.update. apply store_inv_set; [| assumption].
  intros k Hin. apply (Hu user eq_refl k Hin).
Qed.

Lemma store_inv_redeem (key : string) (user : User.t) (ls : LocalStorage) :
  lifetime_active user ->
  store_lifetime_active ls ->
  store_lifetime_active (snd (KeyManager.redeem now key (Some user) ls)).
Proof.
  intros Hu Hls.
  pose proof (lifetime_active_redeem key user) as Hredeem.
  unfold KeyManager.redeem in *.
  destruct (Validator.key key) as [data | m]; [| assumption].
  destruct (existsb _ (User.keys user)); [assumption |].
  simpl in *. unfold UserManager.update. apply store_inv_set; [| assumption].
  now apply (Hredeem _ ls Hu).
Qed.

End LifetimeKeys.

(** C10. A status refresh leaves every key without expiry date flagged
    active, whatever the flags were; so does the account that [create]
    builds; [redeem] appends a key that is active when it has no expiry date
    and touches no other flag.  Hence in a store where every such key is
    active, it is still so after a refresh, a registration, a login, a
    session resolution, a password change, a logout, and a redemption for an
    account that has the property. *)
Theorem lifetime_keys_stay_active (now : Z) :
  (forall user ls, lifetime_active (fst (UserManager.updateKeyStatus now user ls)))
  /\ (forall username password keyData,
        lifetime_active (UserManager.userData now username password keyData))
  /\ (forall key user user' ls,
        lifetime_active user ->
        snd (fst (KeyManager.redeem now key (Some user) ls)) = Some user' ->
        lifetime_active user')
  /\ (forall ls,
        store_lifetime_active ls ->
        (forall user, store_lifetime_active (snd (UserManager.updateKeyStatus now user ls)))
        /\ (forall username password key,
              store_lifetime_active (snd (Auth.register now username password key ls)))
        /\ (forall username password,
              store_lifetime_active (snd (Auth.login now username password ls)))
        /\ store_lifetime_active (snd (Auth.getCurrentUser now ls))
        /\ (forall currentPassword newPassword confirmPassword,
              store_lifetime_active
                (snd (Auth.changePassword now currentPassword newPassword
                        confirmPassword ls)))
        /\ store_lifetime_active (Auth.logout ls)
        /\ (forall key user,
              lifetime_active user ->
              store_lifetime_active (snd (KeyManager.redeem now key (Some user) ls)))).
Proof.
  split; [| split; [| split]].
  - apply lifetime_active_updateKeyStatus.
  - apply lifetime_active_userData.
  - intros key user user' ls. apply lifetime_active_redeem.
  - intros ls Hls. repeat split.
    + intros user. now apply store_inv_updateKeyStatus.
    + intros. now apply store_inv_register.
    + intros. now apply store_inv_login.
    + now apply getCurrentUser_inv.
    + intros. now apply store_inv_changePassword.
    + exact Hls.
    + intros. now apply store_inv_redeem.
Qed.

Lemma lifetime_active_lifetimeUser : lifetime_active lifetimeUser.
Proof. intros k [<- | []] _. reflexivity. Qed.

Lemma store_lifetime_active_lifetimeStore : store_lifetime_active lifetimeStore.
Proof.
  intros key user Hlook. simpl in Hlook.
  apply lookup_singleton_Some in Hlook as [_ <-].
  apply lifetime_active_lifetimeUser.
Qed.

Lemma lifetime_keys_stay_active_witness :
  (forall user',
      snd (fst (KeyManager.redeem 5000 "TEST-KEY1-2025-GAME" (Some lifetimeUser)
                  lifetimeStore)) = Some user' ->
      lifetime_active user')
  /\ store_lifetime_active (snd (Auth.login 5000 "erin" "secret1" lifetimeStore))
  /\ store_lifetime_active
       (snd (KeyManager.redeem 5000 "TEST-KEY1-2025-GAME" (Some lifetimeUser)
               lifetimeStore)).
Proof.
  destruct (lifetime_keys_stay_active 5000) as (_ & _ & Hredeem & Hstore).
  destruct (Hstore lifetimeStore store_lifetime_active_lifetimeStore)
    as (_ & _ & Hlogin & _ & _ & _ & Hredeem').
  split; [| split].
  - intros user'. apply Hredeem. apply lifetime_active_lifetimeUser.
  - apply Hlogin.
  - apply Hredeem'. apply lifetime_active_lifetimeUser.
Defined.

(* ===================================================================== *)
(** ** KeyManager.redeem and the other accounts *)
(* ===================================================================== *)

(** The answer of [redeem] does not depend on the store: the only keys it
    looks at are those of the account it is given. *)
Lemma redeem_result_ignores_store
    (now : Z) (key : string) (user : option User.t) (ls1 ls2 : LocalStorage) :
  fst (KeyManager.redeem now key user ls1) = fst (KeyManager.redeem now key user ls2).
Proof.
  unfold KeyManager.redeem. destruct user as [user |]; [| reflexivity].
  destruct (Validator.key key); [| reflexivity].
  now destruct (existsb _ (User.keys user)).
Qed.

Lemma storageKey_inj (name1 name2 : string) :
  UserManager.storageKey name1 = UserManager.storageKey name2 -> name1 = name2.
Proof.
  unfold UserManager.storageKey, CONFIG.STORAGE_PREFIX. intros H.
  cbv [String.append] in H. now injection H.
Qed.

Lemma key_valid_code (key : string) (keyData : KeyData.t) :
  Validator.key key = valid keyData -> KeyData.code keyData = key.
Proof.
  unfold Validator.key, Validator.key_in.
  destruct (String.eqb key ""); [discriminate |].
  destruct (negb _); [discriminate |].
  destruct (List.find _ CONFIG.VALID_KEYS) as [k |] eqn:E; [| discriminate].
  intros [= <-]. apply List.find_some in E as [_ E]. now apply String.eqb_eq.
Qed.

(** The scan of [register] keeps the key codes apart: a registration
    leaves no code in two accounts when there was none before. *)
Lemma register_keeps_keys_unique
    (now : Z) (username password key : string) (ls : LocalStorage) :
  unique_keys ls ->
  unique_keys (snd (Auth.register now username password key ls)).
Proof.
  intros Huniq. unfold Auth.register.
  destruct (Validator.username username); [| assumption].
  destruct (Validator.password password); [| assumption].
  destruct (Validator.key key) as [keyData | m] eqn:Hkey; [| assumption].
  destruct (UserManager.exists_ username ls) eqn:Hexists; [assumption |].
  destruct (existsb _ (Storage.getAllUsers ls)) eqn:Hscan; [assumption |].
  assert (Hfree : ~ held_in_store key ls).
  { intros H. apply keyUsed_held in H. congruence. }
  apply key_valid_code in Hkey.
  unfold UserManager.create, Storage.set.
  destruct (setItem_throws ls (setItem_calls ls)); simpl; [exact Huniq |].
  assert (Hnew : forall code,
             holds code (UserManager.userData now username password keyData) = true ->
             code = key).
  { intros code H. unfold holds in H. simpl in H. rewrite orb_false_r in H.
    apply String.eqb_eq in H. congruence. }
  intros name1 name2 user1 user2 code G1 G2 H1 H2.
  unfold UserManager.get, Storage.get in G1, G2. simpl in G1, G2.
  apply lookup_insert_Some in G1 as [[E1 <-] | [N1 G1]];
    apply lookup_insert_Some in G2 as [[E2 <-] | [N2 G2]].
  - apply storageKey_inj. congruence.
  - apply Hnew in H1 as ->. destruct Hfree. now exists name2, user2.
  - apply Hnew in H2 as ->. destruct Hfree. now exists name1, user1.
  - exact (Huniq name1 name2 user1 user2 code G1 G2 H1 H2).
Qed.

Lemma unique_keys_aliceBobStore : unique_keys aliceBobStore.
Proof.
  unfold aliceBobStore, aliceStore.
  do 2 apply register_keeps_keys_unique.
  intros name1 name2 user1 user2 code G1. vm_compute in G1. discriminate.
Qed.

(** C1. Alice registers with DEMO-1234-ABCD-5678 and bob with
    TEST-KEY1-2025-GAME; no code is in two accounts.  Bob then redeems
    alice's key: [redeem] answers 'Key activated successfully!', and in the
    store it leaves both accounts hold DEMO-1234-ABCD-5678, so the key codes
    are no longer apart.  A third registration with that key is still
    refused by the scan of [register]. *)
Theorem redeem_shares_key :
  let bob := UserManager.get "bob" aliceBobStore in
  let r := KeyManager.redeem 3000 "DEMO-1234-ABCD-5678" bob aliceBobStore in
  unique_keys aliceBobStore
  /\ fst (fst r) = Result.ok "Key activated successfully!"
  /\ (holds "DEMO-1234-ABCD-5678" <$> UserManager.get "alice" (snd r)) = Some true
  /\ (holds "DEMO-1234-ABCD-5678" <$> UserManager.get "bob" (snd r)) = Some true
  /\ ~ unique_keys (snd r)
  /\ fst (Auth.register 4000 "carol" "pw12345" "DEMO-1234-ABCD-5678" aliceBobStore)
     = Result.failure "Key already used".
Proof.
  split; [apply unique_keys_aliceBobStore |].
  split; [vm_compute; reflexivity |].
  split; [vm_compute; reflexivity |].
  split; [vm_compute; reflexivity |].
  split; [| vm_compute; reflexivity].
  intros Huniq.
  assert (E : "alice" = "bob"); [| discriminate E].
  eapply (Huniq "alice" "bob" _ _ "DEMO-1234-ABCD-5678"); vm_compute; reflexivity.
Qed.

(* ===================================================================== *)
(** ** Writes that the store refuses *)
(* ===================================================================== *)

(** A refused write changes no item. *)
Lemma set_refused_items (key : string) (value : User.t) (ls : LocalStorage) :
  fst (Storage.set key value ls) = false ->
  items (snd (Storage.set key value ls)) = items ls
  /\ currentUser (snd (Storage.set key value ls)) = currentUser ls.
Proof.
  unfold Storage.set. now destruct (setItem_throws ls (setItem_calls ls)).
Qed.

(** C4. With the quota of the store reached, every [setItem] throws and
    [Storage.set] returns false.  [register] then answers 'Failed to create
    account'.  [redeem], [login] and [changePassword] drop the value that
    [UserManager.update] returns: they answer with a success while the items
    and the session pointer of the store are what they were, so the key is
    not stored, the session is not recorded and the password is the old
    one. *)
Theorem refused_write_reported_as_success :
  let full := quotaReached aliceStore in
  let alice := UserManager.get "alice" full in
  let redeemed := KeyManager.redeem 5000 "TEST-KEY1-2025-GAME" alice full in
  let logged := Auth.login 5000 "alice" "secret1" full in
  let session := quotaReached aliceLoggedIn in
  let changed := Auth.changePassword 5000 "secret1" "secret2" "secret2" session in
  fst (Auth.register 5000 "bob" "secret1" "TEST-KEY1-2025-GAME" full)
  = Result.failure "Failed to create account"
  /\ fst (fst redeemed) = Result.ok "Key activated successfully!"
  /\ items (snd redeemed) = items full
  /\ (holds "TEST-KEY1-2025-GAME" <$> UserManager.get "alice" (snd redeemed))
     = Some false
  /\ fst logged = Result.redirect "dashboard.html"
  /\ items (snd logged) = items full
  /\ currentUser (snd logged) = None
  /\ fst changed = Result.ok "Password changed successfully"
  /\ items (snd changed) = items session
  /\ (User.password <$> UserManager.get "alice" (snd changed)) = Some "secret1".
Proof. vm_compute. repeat split. Qed.

(* ===================================================================== *)
(** ** Which keys and which usernames the validators accept *)
(* ===================================================================== *)

Lemma key_valid_in_catalog (key : string) (keyData : KeyData.t) :
  Validator.key key = valid keyData ->
  In keyData CONFIG.VALID_KEYS /\ RegExp.test Validator.keyPattern key = true.
Proof.
  unfold Validator.key, Validator.key_in.
  destruct (String.eqb key ""); [discriminate |].
  destruct (RegExp.test Validator.keyPattern key); [| discriminate].
  destruct (List.find _ CONFIG.VALID_KEYS) as [k |] eqn:E; [| discriminate].
  intros [= <-]. apply List.find_some in E as [E _]. now split.
Qed.

(** X1. [Validator.key] accepts exactly three keys: the one-day, the
    one-week and the one-month code of the catalog, each with its own
    catalog entry.  The two Premium lifetime codes and the Admin code of the
    catalog are not of the format of the key pattern, so no key validates to
    a lifetime duration or to the Admin type. *)
Theorem key_accepts_three_codes (key : string) (keyData : KeyData.t) :
  (Validator.key key = valid keyData
   <-> In keyData CONFIG.VALID_KEYS /\ KeyData.code keyData = key
       /\ In key redeemableCodes)
  /\ (Validator.key key = valid keyData ->
      KeyData.duration keyData <> "lifetime" /\ KeyData.type keyData <> "Admin"
      /\ In (KeyData.duration keyData) ["1day"; "1week"; "1month"]).
Proof.
  assert (Hfwd : Validator.key key = valid keyData ->
                 (In keyData CONFIG.VALID_KEYS /\ KeyData.code keyData = key
                  /\ In key redeemableCodes)
                 /\ KeyData.duration keyData <> "lifetime"
                 /\ KeyData.type keyData <> "Admin"
                 /\ In (KeyData.duration keyData) ["1day"; "1week"; "1month"]).
  { intros H. pose proof (key_valid_code _ _ H) as Hcode.
    apply key_valid_in_catalog in H as [Hin Htest]. subst key.
    simpl in Hin.
    destruct Hin as [<- | [<- | [<- | [<- | [<- | [<- | []]]]]]];
      vm_compute in Htest; try discriminate Htest; simpl; intuition discriminate. }
  split; [split |].
  - intros H. now apply Hfwd.
  - intros (Hin & Hcode & Hred). subst key. simpl in Hin.
    destruct Hin as [<- | [<- | [<- | [<- | [<- | [<- | []]]]]]]; try reflexivity;
      simpl in Hred; intuition discriminate.
  - intros H. now apply Hfwd.
Qed.

Lemma key_accepts_three_codes_witness :
  KeyData.duration (KeyData.mk "FREE-BETA-KEY9-2025" "1month" "Premium") <> "lifetime"
  /\ KeyData.type (KeyData.mk "FREE-BETA-KEY9-2025" "1month" "Premium") <> "Admin"
  /\ In (KeyData.duration (KeyData.mk "FREE-BETA-KEY9-2025" "1month" "Premium"))
        ["1day"; "1week"; "1month"].
Proof.
  apply (key_accepts_three_codes "FREE-BETA-KEY9-2025"
           (KeyData.mk "FREE-BETA-KEY9-2025" "1month" "Premium")).
  reflexivity.
Defined.

Section UsernamePattern.
Import RegExp.

Lemma list_ascii_of_append (s1 s2 : string) :
  list_ascii_of_string (s1 ++ s2)
  = (list_ascii_of_string s1 ++ list_ascii_of_string s2)%list.
Proof.
  induction s1 as [|c s1 IH]; [reflexivity |].
  change (String c s1 ++ s2) with (String c (s1 ++ s2)). simpl. now rewrite IH.
Qed.

Lemma matches_star_class (ranges : list (ascii * ascii)) (s : string) :
  matches (Star (Class ranges)) s
  <-> Forall (fun c => in_class ranges c = true) (list_ascii_of_string s).
Proof.
  split.
  - intros H. remember (Star (Class ranges)) as r eqn:Er.
    induction H as [| | | | | r0 | r0 s1 s2 H1 _ H2 IH2]; try discriminate.
    + constructor.
    + injection Er as ->.
      apply matches_class_inv in H1 as (c & -> & Hc).
      rewrite list_ascii_of_append. simpl. constructor; auto.
  - induction s as [|c s IH]; intros H.
    + constructor.
    + simpl in H. apply Forall_cons_iff in H as [Hc H].
      change (String c s) with (String c "" ++ s).
      constructor; [now constructor | now apply IH].
Qed.

Lemma in_class_word (c : ascii) :
  in_class [("a"%char, "z"%char); ("A"%char, "Z"%char); ("0"%char, "9"%char);
            ("_"%char, "_"%char)] c = true
  <-> word_unit c.
Proof.
  unfold in_class, in_range, word_unit, existsb, fst, snd.
  rewrite !orb_true_iff, !andb_true_iff, !Nat.leb_le.
  assert (Hu : (nat_of_ascii "_" <= nat_of_ascii c /\ nat_of_ascii c <= nat_of_ascii "_")%nat
               <-> c = "_"%char).
  { split.
    - intros [H1 H2]. assert (E : nat_of_ascii c = nat_of_ascii "_") by lia.
      apply (f_equal ascii_of_nat) in E. now rewrite !ascii_nat_embedding in E.
    - intros ->. lia. }
  rewrite Hu. intuition discriminate.
Qed.

(** The pattern of [Validator.username] accepts the non-empty strings of
    letters, digits and underscores. *)
Lemma usernamePattern_test (username : string) :
  test Validator.usernamePattern username = true
  <-> username <> "" /\ Forall word_unit (list_ascii_of_string username).
Proof.
  rewrite test_matches. unfold Validator.usernamePattern, Plus, Validator.word_char.
  rewrite matches_cat_iff. split.
  - intros (s1 & s2 & -> & H1 & H2).
    apply matches_class_inv in H1 as (c & -> & Hc).
    apply matches_star_class in H2. split; [discriminate |].
    change (String c "" ++ s2) with (String c s2). simpl.
    constructor; [now apply in_class_word |].
    eapply Forall_impl; [exact H2 |]. intros a Ha. now apply in_class_word.
  - intros [Hne H]. destruct username as [|c s]; [contradiction |].
    simpl in H. apply Forall_cons_iff in H as [Hc H].
    exists (String c ""), s. split; [reflexivity |]. split.
    + constructor. now apply in_class_word.
    + apply matches_star_class. eapply Forall_impl; [exact H |].
      intros a Ha. now apply in_class_word.
Qed.

End UsernamePattern.

(** X2. [Validator.username] accepts exactly the names of three to twenty
    letters, digits and underscores; a name of twenty characters passes,
    although the message for longer names says 'less than 20'.  It reports
    the empty name as required, then a name of one or two characters as too
    short and a name of more than twenty as too long whatever their
    characters, and only then a character outside the pattern. *)
Theorem username_cases (username : string) :
  (Validator.username username = valid tt <-> username_shape username)
  /\ (username = "" ->
      Validator.username username = invalid "Username is required")
  /\ ((0 < String.length username < 3)%nat ->
      Validator.username username = invalid "Username must be at least 3 characters")
  /\ ((20 < String.length username)%nat ->
      Validator.username username = invalid "Username must be less than 20 characters")
  /\ ((3 <= String.length username <= 20)%nat ->
      ~ Forall word_unit (list_ascii_of_string username) ->
      Validator.username username
      = invalid "Username can only contain letters, numbers and underscores").
Proof.
  unfold Validator.username, username_shape,
    CONFIG.MIN_USERNAME_LENGTH, CONFIG.MAX_USERNAME_LENGTH.
  destruct (String.eqb_spec username "") as [-> | Hne].
  { simpl. repeat split; intros; try discriminate; try lia; tauto. }
  assert (Hpos : (0 < String.length username)%nat).
  { destruct username; [contradiction | simpl; lia]. }
  destruct (Nat.ltb_spec (String.length username) 3) as [Hs | Hs].
  { repeat split; intros; try discriminate; try contradiction; try lia; tauto. }
  destruct (Nat.ltb_spec 20 (String.length username)) as [Hl | Hl].
  { repeat split; intros; try discriminate; try contradiction; try lia; tauto. }
  pose proof (usernamePattern_test username) as Hpat.
  destruct (RegExp.test Validator.usernamePattern username); simpl.
  - destruct Hpat as [Hpat _]. destruct (Hpat eq_refl) as [_ Hall].
    repeat split; intros; try contradiction; try lia; auto.
  - assert (Hbad : ~ Forall word_unit (list_ascii_of_string username)).
    { intros H. destruct Hpat as [_ Hpat]. now discriminate Hpat. }
    repeat split; intros; try discriminate; try contradiction; try lia; tauto.
Qed.

Lemma username_cases_witness :
  Validator.username "" = invalid "Username is required"
  /\ Validator.username "ab" = invalid "Username must be at least 3 characters"
  /\ Validator.username "a-234567890123456789012"
     = invalid "Username must be less than 20 characters"
  /\ Validator.username "bob!"
     = invalid "Username can only contain letters, numbers and underscores".
Proof.
  split; [| split; [| split]].
  - pose proof (username_cases "") as (_ & H & _). now apply H.
  - pose proof (username_cases "ab") as (_ & _ & H & _). apply H. simpl. lia.
  - pose proof (username_cases "a-234567890123456789012") as (_ & _ & _ & H & _).
    apply H. simpl. lia.
  - pose proof (username_cases "bob!") as (_ & _ & _ & _ & H).
    apply H; [simpl; lia |].
    intros Hall. simpl in Hall.
    apply Forall_cons_iff in Hall as [_ Hall].
    apply Forall_cons_iff in Hall as [_ Hall].
    apply Forall_cons_iff in Hall as [_ Hall].
    apply Forall_cons_iff in Hall as [Hbang _].
    unfold word_unit in Hbang. vm_compute in Hbang.
    destruct Hbang as [Hb | [Hb | [Hb | Hb]]]; try lia. discriminate Hb.
Defined.

(* ===================================================================== *)
(** ** Expiry dates and remaining days *)
(* ===================================================================== *)

(** X3. [calculateExpiryDate] returns null exactly for the durations other
    than '1day', '1week' and '1month', so a duration that the table does not
    know is treated like a lifetime.  A date it returns lies between one day
    and thirty days after the clock value, so a key is not expired at the
    time of its creation nor at any time of the following day. *)
Theorem calculateExpiryDate_cases (now : Z) (duration : string) :
  (Utils.calculateExpiryDate now duration = None
   <-> ~ In duration ["1day"; "1week"; "1month"])
  /\ (forall expiry, Utils.calculateExpiryDate now duration = Some expiry ->
                     now + day <= expiry <= now + 30 * day)
  /\ (forall t, t <= now + day ->
                Utils.isExpired t (Utils.calculateExpiryDate now duration) = false).
Proof.
  assert (Hcases :
            (Utils.calculateExpiryDate now duration = None
             /\ ~ In duration ["1day"; "1week"; "1month"])
            \/ (exists ms, Utils.calculateExpiryDate now duration = Some (now + ms)
                           /\ day <= ms <= 30 * day
                           /\ In duration ["1day"; "1week"; "1month"])).
  { unfold Utils.calculateExpiryDate, CONFIG.DURATIONS, CONFIG.lookup_duration.
    destruct (String.eqb_spec duration "lifetime") as [-> | _].
    { left. split; [reflexivity |]. simpl. intuition discriminate. }
    destruct (String.eqb_spec "1day" duration) as [<- | N1].
    { right. exists day. unfold day. simpl. split; [reflexivity |]. split; [lia | auto]. }
    destruct (String.eqb_spec "1week" duration) as [<- | N2].
    { right. exists (7 * day). unfold day. simpl.
      split; [reflexivity |]. split; [lia | auto]. }
    destruct (String.eqb_spec "1month" duration) as [<- | N3].
    { right. exists (30 * day). unfold day. simpl.
      split; [reflexivity |]. split; [lia | auto]. }
    left. destruct (String.eqb_spec "lifetime" duration); simpl;
      (split; [reflexivity | intuition congruence]). }
  destruct Hcases as [[E Hout] | (ms & E & Hms & Hin)]; rewrite E.
  - split; [tauto |]. split; [discriminate | reflexivity].
  - split; [split; [discriminate | contradiction] |].
    split.
    + intros expiry [= <-]. lia.
    + intros t Ht. unfold Utils.isExpired. rewrite Z.gtb_ltb. apply Z.ltb_ge. lia.
Qed.

Lemma calculateExpiryDate_cases_witness :
  1000 + day <= 1000 + 7 * day <= 1000 + 30 * day
  /\ Utils.isExpired 2000 (Utils.calculateExpiryDate 1000 "1week") = false.
Proof.
  pose proof (calculateExpiryDate_cases 1000 "1week") as (_ & Hbounds & Hfresh).
  split.
  - apply Hbounds. reflexivity.
  - apply Hfresh. unfold day. lia.
Defined.

(* ===================================================================== *)
(** ** What a status refresh changes *)
(* ===================================================================== *)

Lemma refreshKey_flag (now : Z) (k : Key.t) :
  Key.active (refreshKey now k) = true
  <-> Key.expiryDate k = None
      \/ exists expiry, Key.expiryDate k = Some expiry /\ now <= expiry.
Proof.
  unfold refreshKey, Utils.isExpired. simpl.
  destruct (Key.expiryDate k) as [expiry |].
  - rewrite Z.gtb_ltb, negb_true_iff, Z.ltb_ge. split.
    + intros H. right. now exists expiry.
    + intros [H | (e & [= <-] & H)]; [discriminate | assumption].
  - split; auto.
Qed.

(** X4. [updateKeyStatus] changes nothing but the active flags: the account
    fields and, key by key and in order, the code, game, type, duration and
    dates are those of the account given.  The flag it leaves on a key is set
    exactly when the key has no expiry date or the clock is not past it.  It
    calls [setItem] once when some stored flag was wrong, under the key of
    the username of the account, and not at all otherwise; the session
    pointer is never touched. *)
Theorem updateKeyStatus_effect (now : Z) (user : User.t) (ls : LocalStorage) :
  let user' := fst (UserManager.updateKeyStatus now user ls) in
  let ls' := snd (UserManager.updateKeyStatus now user ls) in
  user' = User.set_keys (User.keys user') user
  /\ map (Key.set_active false) (User.keys user')
     = map (Key.set_active false) (User.keys user)
  /\ Forall (fun k => Key.active k = true
                      <-> Key.expiryDate k = None
                          \/ exists expiry, Key.expiryDate k = Some expiry
                                            /\ now <= expiry)
       (User.keys user')
  /\ currentUser ls' = currentUser ls
  /\ (existsb (staleKey now) (User.keys user) = false -> ls' = ls)
  /\ (existsb (staleKey now) (User.keys user) = true ->
      setItem_calls ls' = S (setItem_calls ls)
      /\ (accepts ls ->
          items ls' = <[UserManager.storageKey (User.username user) := user']> (items ls))
      /\ (~ accepts ls -> items ls' = items ls)).
Proof.
  intros user' ls'. subst user' ls'.
  rewrite updateKeyStatus_user, updateKeyStatus_store.
  split; [reflexivity |]. split.
  { simpl. rewrite map_map. apply map_ext. now intros []. }
  split.
  { simpl. apply List.Forall_forall. intros k Hin.
    apply in_map_iff in Hin as (k0 & <- & _).
    change (Key.expiryDate (refreshKey now k0)) with (Key.expiryDate k0).
    apply refreshKey_flag. }
  unfold accepts, UserManager.update, Storage.set.
  destruct (existsb (staleKey now) (User.keys user));
    destruct (setItem_throws ls (setItem_calls ls)); simpl;
    repeat split; intros; try reflexivity; try discriminate; try congruence.
  all: exfalso; auto.
Qed.

Lemma updateKeyStatus_effect_witness :
  setItem_calls (snd (UserManager.updateKeyStatus 172800000 staleUser emptyStorage))
  = 1%nat
  /\ snd (UserManager.updateKeyStatus 1000 staleUser emptyStorage) = emptyStorage.
Proof.
  pose proof (updateKeyStatus_effect 172800000 staleUser emptyStorage)
    as (_ & _ & _ & _ & _ & Hstale).
  pose proof (updateKeyStatus_effect 1000 staleUser emptyStorage)
    as (_ & _ & _ & _ & Hfresh & _).
  split.
  - apply Hstale. reflexivity.
  - apply Hfresh. reflexivity.
Defined.

Lemma unexpired_antitone (t1 t2 : Z) (keys : list Key.t) :
  t1 <= t2 ->
  (length (List.filter (fun k => Key.active k) (map (refreshKey t2) keys))
   <= length (List.filter (fun k => Key.active k) (map (refreshKey t1) keys)))%nat.
Proof.
  intros Ht. induction keys as [|k keys IH]; [reflexivity |].
  simpl. unfold Utils.isExpired.
  destruct (Key.expiryDate k) as [expiry |]; simpl.
  - rewrite !Z.gtb_ltb.
    destruct (Z.ltb_spec expiry t1), (Z.ltb_spec expiry t2); simpl; lia.
  - lia.
Qed.

Lemma refreshKey_inactive_later (t1 t2 : Z) (k : Key.t) :
  t1 <= t2 ->
  Key.active (refreshKey t1 k) = false ->
  Key.active (refreshKey t2 k) = false.
Proof.
  intros Ht H1. destruct (Key.active (refreshKey t2 k)) eqn:E; [| reflexivity].
  apply refreshKey_flag in E.
  assert (H : Key.active (refreshKey t1 k) = true); [| congruence].
  apply refreshKey_flag. destruct E as [E | (expiry & E & Hle)]; [now left |].
  right. exists expiry. split; [assumption | lia].
Qed.

(** X5. A later status refresh supersedes an earlier one: refreshing at
    [t2] the account that a refresh at [t1] returned gives the account that
    a refresh at [t2] of the original gives, whatever the two times.  When
    [t1] is not after [t2], a key that the refresh at [t1] flags inactive is
    flagged inactive at [t2] as well, so the count of active keys does not
    grow with time. *)
Theorem refresh_supersedes (t1 t2 : Z) (user : User.t) (ls1 ls2 : LocalStorage) :
  fst (UserManager.updateKeyStatus t2 (fst (UserManager.updateKeyStatus t1 user ls1)) ls2)
  = fst (UserManager.updateKeyStatus t2 user ls2)
  /\ (t1 <= t2 ->
      Forall2 (fun k1 k2 => Key.active k1 = false -> Key.active k2 = false)
        (User.keys (fst (UserManager.updateKeyStatus t1 user ls1)))
        (User.keys (fst (UserManager.updateKeyStatus t2 user ls2)))
      /\ (KeyManager.getActiveCount (fst (UserManager.updateKeyStatus t2 user ls2))
          <= KeyManager.getActiveCount (fst (UserManager.updateKeyStatus t1 user ls1)))%nat).
Proof.
  rewrite !updateKeyStatus_user. split.
  - simpl. rewrite map_map. reflexivity.
  - intros Ht. split.
    + simpl. induction (User.keys user) as [|k keys IH]; simpl; constructor; auto.
      now apply refreshKey_inactive_later.
    + unfold KeyManager.getActiveCount. simpl. now apply unexpired_antitone.
Qed.

Lemma refresh_supersedes_witness :
  (KeyManager.getActiveCount (fst (UserManager.updateKeyStatus 172800000 staleUser emptyStorage))
   <= KeyManager.getActiveCount (fst (UserManager.updateKeyStatus 1000 staleUser emptyStorage)))%nat.
Proof.
  apply (refresh_supersedes 1000 172800000 staleUser emptyStorage emptyStorage).
  lia.
Defined.

Lemma ceilDiv_spec (diff ms : Z) :
  0 < ms ->
  (Utils.ceilDiv diff ms - 1) * ms < diff <= Utils.ceilDiv diff ms * ms.
Proof.
  intros Hms. unfold Utils.ceilDiv.
  pose proof (Z.div_mod (- diff) ms) as Hdm.
  pose proof (Z.mod_pos_bound (- diff) ms Hms) as Hmod.
  nia.
Qed.

Lemma pretty_go_no_E (x : N) (s : string) :
  (forall t, s <> String "E" t) ->
  forall t, pretty_N_go x s <> String "E" t.
Proof.
  revert s. induction (N.lt_wf_0 x) as [x _ IH]. intros s Hs t.
  destruct (N.eq_dec x 0%N) as [-> | Hx].
  - rewrite pretty_N_go_0. apply Hs.
  - rewrite pretty_N_go_step by lia. apply IH.
    + apply N.div_lt; lia.
    + intros t'. unfold pretty_N_char. repeat case_match; discriminate.
Qed.

Lemma days_label_not_expired (days : Z) :
  0 < days -> pretty days ++ " days" <> "Expired".
Proof.
  destruct days as [| p | p]; try lia. intros _.
  unfold pretty, pretty_Z, pretty, pretty_positive, pretty, pretty_N.
  case_decide; [discriminate |].
  pose proof (pretty_go_no_E (N.pos p) "" ltac:(discriminate)) as Hhead.
  destruct (pretty_N_go (N.pos p) "") as [| c w].
  - discriminate.
  - change (String c w ++ " days") with (String c (w ++ " days")).
    intros [= -> _]. now destruct (Hhead w).
Qed.

(** X6. [getDaysRemaining] answers 'Unlimited' for a null expiry date and
    'Expired' exactly when the clock has reached the date; before the date
    it answers the number of days begun, n days with n at least 1 and the
    remaining time above n - 1 days and at most n days.  At the millisecond
    of the expiry date it already says 'Expired' while [isExpired] is still
    false there. *)
Theorem getDaysRemaining_cases (now expiry : Z) :
  Utils.getDaysRemaining now None = "Unlimited"
  /\ (Utils.getDaysRemaining now (Some expiry) = "Expired" <-> expiry <= now)
  /\ (now < expiry ->
      exists n, 1 <= n
                /\ (n - 1) * day < expiry - now <= n * day
                /\ Utils.getDaysRemaining now (Some expiry) = pretty n ++ " days")
  /\ Utils.getDaysRemaining expiry (Some expiry) = "Expired"
  /\ Utils.isExpired expiry (Some expiry) = false.
Proof.
  assert (Hday : 1000 * 60 * 60 * 24 = day) by reflexivity.
  assert (Hshape : forall t e,
             (e <= t /\ Utils.getDaysRemaining t (Some e) = "Expired")
             \/ (t < e /\ 1 <= Utils.ceilDiv (e - t) day
                 /\ Utils.getDaysRemaining t (Some e)
                    = pretty (Utils.ceilDiv (e - t) day) ++ " days")).
  { intros t e. unfold Utils.getDaysRemaining. rewrite Hday.
    pose proof (ceilDiv_spec (e - t) day ltac:(reflexivity)) as Hc.
    destruct (Z.gtb_spec (Utils.ceilDiv (e - t) day) 0) as [Hpos | Hnpos].
    - right. unfold day in *. repeat split; try reflexivity; nia.
    - left. unfold day in *. split; [nia | reflexivity]. }
  split; [reflexivity |]. split; [| split; [| split]].
  - destruct (Hshape now expiry) as [[Hle E] | (Hlt & Hn & E)]; rewrite E.
    + tauto.
    + split; [| lia]. intros H. apply days_label_not_expired in H; [contradiction | lia].
  - intros Hlt. destruct (Hshape now expiry) as [[Hle E] | (_ & Hn & E)]; [lia |].
    exists (Utils.ceilDiv (expiry - now) day). split; [assumption |].
    split; [| assumption]. apply ceilDiv_spec. reflexivity.
  - destruct (Hshape expiry expiry) as [[_ E] | (Hlt & _)]; [assumption | lia].
  - unfold Utils.isExpired. rewrite Z.gtb_ltb. apply Z.ltb_irrefl.
Qed.

Lemma getDaysRemaining_cases_witness :
  exists n, 1 <= n
            /\ (n - 1) * day < 86401000 - 1000 <= n * day
            /\ Utils.getDaysRemaining 1000 (Some 86401000) = pretty n ++ " days".
Proof.
  apply (getDaysRemaining_cases 1000 86401000). lia.
Defined.

Example getDaysRemaining_samples :
  Utils.getDaysRemaining 1000 (Some 86401000) = "1 days"
  /\ Utils.getDaysRemaining 1000 (Some 86401001) = "2 days"
  /\ Utils.getDaysRemaining 1000 (Some 1000) = "Expired".
Proof. vm_compute. repeat split. Qed.

(* ===================================================================== *)
(** ** Reading after writing *)
(* ===================================================================== *)

Lemma storageKey_eqb (name1 name2 : string) :
  UserManager.storageKey name1 = UserManager.storageKey name2 <-> name1 = name2.
Proof. split; [apply storageKey_inj | now intros ->]. Qed.

Lemma get_update (name other : string) (user : User.t) (ls : LocalStorage) :
  UserManager.get other (snd (UserManager.update name user ls))
  = if setItem_throws ls (setItem_calls ls) then UserManager.get other ls
    else if String.eqb name other then Some user
         else UserManager.get other ls.
Proof.
  unfold UserManager.update, UserManager.get, Storage.set, Storage.get.
  destruct (setItem_throws ls (setItem_calls ls)); simpl; [reflexivity |].
  destruct (String.eqb_spec name other) as [-> | Hne].
  - apply lookup_insert_eq.
  - apply lookup_insert_ne. intros H. now apply storageKey_inj in H.
Qed.

Lemma update_shape (name : string) (user : User.t) (ls : LocalStorage) :
  currentUser (snd (UserManager.update name user ls)) = currentUser ls
  /\ setItem_calls (snd (UserManager.update name user ls)) = S (setItem_calls ls)
  /\ setItem_throws (snd (UserManager.update name user ls)) = setItem_throws ls
  /\ fst (UserManager.update name user ls) = negb (setItem_throws ls (setItem_calls ls)).
Proof.
  unfold UserManager.update, Storage.set.
  now destruct (setItem_throws ls (setItem_calls ls)).
Qed.

Lemma get_delete (name other : string) (ls : LocalStorage) :
  UserManager.get other (snd (UserManager.delete name ls))
  = if String.eqb name other then None else UserManager.get other ls.
Proof.
  unfold UserManager.delete, UserManager.get, Storage.remove, Storage.get. simpl.
  destruct (String.eqb_spec name other) as [-> | Hne].
  - apply lookup_delete_eq.
  - apply lookup_delete_ne. intros H. now apply storageKey_inj in H.
Qed.

(** X7. A write that the store accepts is read back: after [update] of a
    username, [get] returns the record written and [exists] holds; a write
    that the store refuses returns false and [get] returns what it returned
    before.  Either way the records of the other usernames and the session
    pointer are untouched.  [delete] always returns true, also for a username
    without record; after it [get] returns null and [exists] fails for that
    username only.  It leaves the session pointer, so after the account of
    the session is deleted [getCurrentUser] returns null. *)
Theorem update_get_delete (now : Z) (name : string) (user : User.t) (ls : LocalStorage) :
  (accepts ls ->
   fst (UserManager.update name user ls) = true
   /\ UserManager.get name (snd (UserManager.update name user ls)) = Some user
   /\ UserManager.exists_ name (snd (UserManager.update name user ls)) = true)
  /\ (~ accepts ls ->
      fst (UserManager.update name user ls) = false
      /\ UserManager.get name (snd (UserManager.update name user ls))
         = UserManager.get name ls)
  /\ (forall other, other <> name ->
        UserManager.get other (snd (UserManager.update name user ls))
        = UserManager.get other ls)
  /\ currentUser (snd (UserManager.update name user ls)) = currentUser ls
  /\ fst (UserManager.delete name ls) = true
  /\ UserManager.get name (snd (UserManager.delete name ls)) = None
  /\ UserManager.exists_ name (snd (UserManager.delete name ls)) = false
  /\ (forall other, other <> name ->
        UserManager.get other (snd (UserManager.delete name ls))
        = UserManager.get other ls)
  /\ (currentUser ls = Some name ->
      Auth.getCurrentUser now (snd (UserManager.delete name ls))
      = (None, snd (UserManager.delete name ls))).
Proof.
  unfold accepts.
  pose proof (get_update name name user ls) as Hsame.
  pose proof (update_shape name user ls) as (Hcur & _ & _ & Hres).
  rewrite String.eqb_refl in Hsame.
  split; [| split; [| split; [| split; [| split; [| split; [| split; [| split]]]]]]].
  - intros Hok. rewrite Hok in *. repeat split; try assumption.
    unfold UserManager.exists_. fold (UserManager.get name (snd (UserManager.update name user ls))).
    now rewrite Hsame.
  - intros Hno. destruct (setItem_throws ls (setItem_calls ls)); [| contradiction].
    now split.
  - intros other Hne. rewrite get_update.
    destruct (setItem_throws ls (setItem_calls ls)); [reflexivity |].
    destruct (String.eqb_spec name other); [congruence | reflexivity].
  - exact Hcur.
  - reflexivity.
  - rewrite get_delete. now rewrite String.eqb_refl.
  - unfold UserManager.exists_.
    fold (UserManager.get name (snd (UserManager.delete name ls))).
    rewrite get_delete. now rewrite String.eqb_refl.
  - intros other Hne. rewrite get_delete.
    destruct (String.eqb_spec name other); [congruence | reflexivity].
  - intros Hsession. unfold Auth.getCurrentUser, Storage.getCurrentUserKey.
    change (currentUser (snd (UserManager.delete name ls))) with (currentUser ls).
    rewrite Hsession. destruct (String.eqb name ""); [reflexivity |].
    rewrite get_delete. now rewrite String.eqb_refl.
Qed.

Lemma update_get_delete_witness :
  UserManager.get "dave" (snd (UserManager.update "dave" staleUser emptyStorage))
  = Some staleUser
  /\ UserManager.get "dave"
       (snd (UserManager.update "dave" staleUser (quotaReached emptyStorage)))
     = None
  /\ UserManager.get "alice" (snd (UserManager.delete "bob" aliceBobStore))
     = UserManager.get "alice" aliceBobStore
  /\ Auth.getCurrentUser 5000 (snd (UserManager.delete "alice" aliceLoggedIn))
     = (None, snd (UserManager.delete "alice" aliceLoggedIn)).
Proof.
  split; [| split; [| split]].
  - pose proof (update_get_delete 0 "dave" staleUser emptyStorage) as (H & _).
    apply H. reflexivity.
  - pose proof (update_get_delete 0 "dave" staleUser (quotaReached emptyStorage))
      as (_ & H & _).
    apply H. discriminate.
  - pose proof (update_get_delete 0 "bob" staleUser aliceBobStore)
      as (_ & _ & _ & _ & _ & _ & _ & H & _).
    apply H. discriminate.
  - pose proof (update_get_delete 5000 "alice" staleUser aliceLoggedIn)
      as (_ & _ & _ & _ & _ & _ & _ & _ & H).
    apply H. reflexivity.
Defined.

(* ===================================================================== *)
(** ** The listing of the accounts *)
(* ===================================================================== *)

Lemma filter_Permutation_compat {A : Type} (f : A -> bool) (l1 l2 : list A) :
  Permutation l1 l2 -> Permutation (List.filter f l1) (List.filter f l2).
Proof.
  induction 1 as [| x l1 l2 _ IH | x y l | l1 l2 l3 _ IH1 _ IH2]; simpl.
  - constructor.
  - destruct (f x); [now constructor | assumption].
  - destruct (f x), (f y); try reflexivity. constructor.
  - now transitivity (List.filter f l2).
Qed.

Lemma storageKey_prefix (name : string) :
  String.prefix CONFIG.STORAGE_PREFIX (UserManager.storageKey name) = true.
Proof. apply prefix_append. now exists name. Qed.

(** X8. [getAllUsers] lists the records that [get] returns for some
    username, and no other item of the store.  Writing the record of a
    username that had none adds that record to the listing and deleting an
    account removes it, the rest of the listing being the same up to order;
    the listing of the empty store is empty. *)
Theorem getAllUsers_lists_accounts (name : string) (user : User.t) (ls : LocalStorage) :
  (forall u, In u (Storage.getAllUsers ls)
             <-> exists username, UserManager.get username ls = Some u)
  /\ (UserManager.get name ls = None -> accepts ls ->
      Permutation (Storage.getAllUsers (snd (UserManager.update name user ls)))
        (user :: Storage.getAllUsers ls))
  /\ (UserManager.get name ls = Some user ->
      Permutation (Storage.getAllUsers ls)
        (user :: Storage.getAllUsers (snd (UserManager.delete name ls))))
  /\ Storage.getAllUsers emptyStorage = [].
Proof.
  split; [| split; [| split]].
  - intros u. apply In_getAllUsers.
  - intros Hnone Hok. unfold accepts in Hok.
    unfold Storage.getAllUsers, UserManager.update, Storage.set. rewrite Hok. simpl.
    pose proof (map_to_list_insert (items ls) (UserManager.storageKey name) user Hnone)
      as Hperm.
    apply (filter_Permutation_compat
             (fun kv => String.prefix CONFIG.STORAGE_PREFIX (fst kv))) in Hperm.
    cbn [List.filter fst] in Hperm. rewrite storageKey_prefix in Hperm.
    apply (Permutation_map snd) in Hperm. exact Hperm.
  - intros Hsome. unfold Storage.getAllUsers, UserManager.delete, Storage.remove. simpl.
    pose proof (map_to_list_delete (items ls) (UserManager.storageKey name) user Hsome)
      as Hperm.
    apply (filter_Permutation_compat
             (fun kv => String.prefix CONFIG.STORAGE_PREFIX (fst kv))) in Hperm.
    cbn [List.filter fst] in Hperm. rewrite storageKey_prefix in Hperm.
    apply (Permutation_map snd) in Hperm. symmetry. exact Hperm.
  - reflexivity.
Qed.

Lemma getAllUsers_lists_accounts_witness :
  Permutation
    (Storage.getAllUsers (snd (UserManager.update "dave" staleUser aliceStore)))
    (staleUser :: Storage.getAllUsers aliceStore)
  /\ Permutation (Storage.getAllUsers lifetimeStore)
       (lifetimeUser :: Storage.getAllUsers (snd (UserManager.delete "erin" lifetimeStore))).
Proof.
  split.
  - pose proof (getAllUsers_lists_accounts "dave" staleUser aliceStore) as (_ & H & _).
    apply H; reflexivity.
  - pose proof (getAllUsers_lists_accounts "erin" lifetimeUser lifetimeStore)
      as (_ & _ & H & _).
    apply H. reflexivity.
Defined.

(* ===================================================================== *)
(** ** When a registration succeeds and what it creates *)
(* ===================================================================== *)

Lemma username_valid_shape (username : string) :
  Validator.username username = valid tt <-> username_shape username.
Proof.
  unfold Validator.username, username_shape,
    CONFIG.MIN_USERNAME_LENGTH, CONFIG.MAX_USERNAME_LENGTH.
  destruct (String.eqb_spec username "") as [-> | Hne].
  { simpl. split; [discriminate | intros [? _]; lia]. }
  destruct (Nat.ltb_spec (String.length username) 3) as [Hs | Hs].
  { split; [discriminate | intros [? _]; lia]. }
  destruct (Nat.ltb_spec 20 (String.length username)) as [Hl | Hl].
  { split; [discriminate | intros [? _]; lia]. }
  pose proof (usernamePattern_test username) as Hpat.
  destruct (RegExp.test Validator.usernamePattern username); simpl.
  - split; [| reflexivity]. intros _. split; [lia |]. now apply Hpat.
  - split; [discriminate |]. intros [_ H].
    destruct Hpat as [_ Hpat]. now discriminate Hpat.
Qed.

Lemma username_valid_tt (username : string) (data : unit) :
  Validator.username username = valid data <-> username_shape username.
Proof. destruct data. apply username_valid_shape. Qed.

Lemma password_valid_length (password : string) (data : unit) :
  Validator.password password = valid data <-> (6 <= String.length password)%nat.
Proof.
  destruct data. unfold Validator.password, CONFIG.MIN_PASSWORD_LENGTH.
  destruct (String.eqb_spec password "") as [-> | Hne].
  { simpl. split; [discriminate | lia]. }
  destruct (Nat.ltb_spec (String.length password) 6); split;
    try discriminate; try reflexivity; lia.
Qed.

Lemma key_valid_entry (key : string) (keyData : KeyData.t) :
  Validator.key key = valid keyData ->
  In keyData (firstn 3 CONFIG.VALID_KEYS) /\ KeyData.code keyData = key.
Proof.
  intros H. pose proof (key_valid_code _ _ H) as Hcode.
  apply key_valid_in_catalog in H as [Hin Htest]. subst key.
  split; [| reflexivity]. simpl in Hin. simpl.
  destruct Hin as [<- | [<- | [<- | [<- | [<- | [<- | []]]]]]];
    auto; vm_compute in Htest; discriminate Htest.
Qed.

Lemma key_valid_redeemable (key : string) :
  (exists keyData, Validator.key key = valid keyData) <-> In key redeemableCodes.
Proof.
  split.
  - intros [keyData H]. apply key_valid_entry in H as [Hin <-]. simpl in Hin.
    destruct Hin as [<- | [<- | [<- | []]]]; simpl; auto.
  - simpl. intros [<- | [<- | [<- | []]]]; eexists; reflexivity.
Qed.

Lemma exists_get (username : string) (ls : LocalStorage) :
  UserManager.exists_ username ls = false <-> UserManager.get username ls = None.
Proof.
  unfold UserManager.exists_, UserManager.get.
  destruct (Storage.get _ ls); split; congruence.
Qed.

(** The outcome of [register] as one case distinction. *)
Lemma register_outcome (now : Z) (username password key : string) (ls : LocalStorage) :
  (Result.success (fst (Auth.register now username password key ls)) = false
   /\ snd (Auth.register now username password key ls) = ls
   /\ ~ (username_shape username /\ (6 <= String.length password)%nat
         /\ In key redeemableCodes /\ UserManager.get username ls = None
         /\ ~ held_in_store key ls))
  \/ (exists keyData,
        username_shape username /\ (6 <= String.length password)%nat
        /\ In key redeemableCodes /\ UserManager.get username ls = None
        /\ ~ held_in_store key ls
        /\ Validator.key key = valid keyData
        /\ Auth.register now username password key ls
           = (if negb (setItem_throws ls (setItem_calls ls))
              then Result.ok "Account created successfully!"
              else Result.failure "Failed to create account",
              snd (UserManager.update username
                     (UserManager.userData now username password keyData) ls))).
Proof.
  unfold Auth.register.
  destruct (Validator.username username) as [d1 | m] eqn:Hu.
  2: { left. repeat split. intros (H & _). apply username_valid_shape in H. congruence. }
  apply username_valid_tt in Hu.
  destruct (Validator.password password) as [d2 | m] eqn:Hp.
  2: { left. repeat split. intros (_ & H & _).
       apply (password_valid_length password tt) in H. congruence. }
  apply password_valid_length in Hp.
  destruct (Validator.key key) as [keyData | m] eqn:Hk.
  2: { left. repeat split. intros (_ & _ & H & _).
       apply key_valid_redeemable in H as [kd H]. congruence. }
  assert (Hred : In key redeemableCodes).
  { apply key_valid_redeemable. now exists keyData. }
  destruct (UserManager.exists_ username ls) eqn:He.
  { left. repeat split. intros (_ & _ & _ & H & _).
    apply exists_get in H. congruence. }
  apply exists_get in He.
  destruct (existsb _ (Storage.getAllUsers ls)) eqn:Hscan.
  { left. repeat split. intros (_ & _ & _ & _ & H).
    apply keyUsed_held in Hscan. contradiction. }
  assert (Hfree : ~ held_in_store key ls).
  { intros H. apply keyUsed_held in H. congruence. }
  right. exists keyData. do 5 (split; [assumption |]). split; [reflexivity |].
  unfold UserManager.create, UserManager.update, Storage.set.
  now destruct (setItem_throws ls (setItem_calls ls)).
Qed.

(** X9. [register] succeeds exactly when the username has three to twenty
    letters, digits and underscores, the password has at least six
    characters, the key is one of the three codes that the key pattern
    accepts, no account has the username, no stored account holds the key,
    and the store accepts the write. *)
Theorem register_succeeds_iff
    (now : Z) (username password key : string) (ls : LocalStorage) :
  Result.success (fst (Auth.register now username password key ls)) = true
  <-> username_shape username
      /\ (6 <= String.length password)%nat
      /\ In key redeemableCodes
      /\ UserManager.get username ls = None
      /\ ~ held_in_store key ls
      /\ accepts ls.
Proof.
  unfold accepts.
  destruct (register_outcome now username password key ls)
    as [(Hfail & _ & Hnot) | (keyData & Hu & Hp & Hk & Hg & Hf & _ & E)].
  - rewrite Hfail. split; [discriminate | tauto].
  - rewrite E. destruct (setItem_throws ls (setItem_calls ls)); simpl.
    + split; [discriminate | intros (_ & _ & _ & _ & _ & H); discriminate H].
    + tauto.
Qed.


(** The three entries that validate: bounded durations, no admin type. *)
Lemma entry_expiry (now : Z) (keyData : KeyData.t) :
  In keyData (firstn 3 CONFIG.VALID_KEYS) ->
  exists ms,
    In ms [day; 7 * day; 30 * day]
    /\ Utils.calculateExpiryDate now (KeyData.duration keyData) = Some (now + ms)
    /\ String.eqb (KeyData.type keyData) "Admin" = false
    /\ 0 <= ms.
Proof.
  simpl. intros [<- | [<- | [<- | []]]].
  - exists day. unfold day. simpl. repeat split; auto; lia.
  - exists (7 * day). unfold day. simpl. repeat split; auto; lia.
  - exists (30 * day). unfold day. simpl. repeat split; auto; lia.
Qed.



(** X11. [register] never touches an existing account or the session: the
    record of every username that had one is the same after the call,
    whatever the outcome, and so is the session pointer.  After a failure
    all items are the same, and when a validator, the username check or the
    key scan refuses, [setItem] is not called. *)
Theorem register_keeps_accounts
    (now : Z) (username password key : string) (ls : LocalStorage) :
  let r := Auth.register now username password key ls in
  (forall name user, UserManager.get name ls = Some user ->
                     UserManager.get name (snd r) = Some user)
  /\ currentUser (snd r) = currentUser ls
  /\ (Result.success (fst r) = false -> items (snd r) = items ls)
  /\ (Result.message (fst r) <> Some "Account created successfully!" ->
      Result.message (fst r) <> Some "Failed to create account" ->
      snd r = ls).
Proof.
  intros r. subst r.
  destruct (register_outcome now username password key ls)
    as [(Hfail & Hsame & _) | (keyData & _ & _ & _ & Hnone & _ & _ & E)].
  - rewrite Hsame. repeat split; auto.
  - rewrite E. simpl fst. simpl snd.
    pose proof (update_shape username
                  (UserManager.userData now username password keyData) ls)
      as (Hcur & _).
    split; [| split; [exact Hcur | split]].
    + intros name user Hget. rewrite get_update.
      destruct (setItem_throws ls (setItem_calls ls)); [assumption |].
      destruct (String.eqb_spec username name) as [-> | _]; [congruence | assumption].
    + unfold UserManager.update, Storage.set.
      destruct (setItem_throws ls (setItem_calls ls)); simpl; [reflexivity | discriminate].
    + destruct (setItem_throws ls (setItem_calls ls)); simpl; intros H1 H2;
        [now destruct H2 | now destruct H1].
Qed.

Lemma register_keeps_accounts_witness :
  UserManager.get "alice" aliceBobStore
  = Some (UserManager.userData 1000 "alice" "secret1"
            (KeyData.mk "DEMO-1234-ABCD-5678" "1day" "Trial"))
  /\ snd (Auth.register 3000 "carol" "pw12345" "DEMO-1234-ABCD-5678" aliceStore)
     = aliceStore.
Proof.
  pose proof (register_keeps_accounts 2000 "bob" "secret1" "TEST-KEY1-2025-GAME"
                aliceStore) as (Hkeep & _).
  pose proof (register_keeps_accounts 3000 "carol" "pw12345" "DEMO-1234-ABCD-5678"
                aliceStore) as (_ & _ & _ & Hsame).
  split.
  - apply Hkeep. vm_compute. reflexivity.
  - apply Hsame; vm_compute; discriminate.
Defined.

(* ===================================================================== *)
(** ** Runs of registrations *)
(* ===================================================================== *)

Section Registrations.

Lemma registered_register (now : Z) (username password key : string) (ls : LocalStorage) :
  registered ls -> registered (snd (Auth.register now username password key ls)).
Proof.
  intros (Huniq & Hnamed & Hplain).
  split; [now apply register_keeps_keys_unique |].
  destruct (register_outcome now username password key ls)
    as [(_ & -> & _) | (keyData & _ & _ & _ & _ & _ & Hk & ->)]; [now split |].
  simpl snd. apply key_valid_entry in Hk as [Hin Hcode].
  split.
  - intros name user. rewrite get_update.
    destruct (setItem_throws ls (setItem_calls ls)); [apply Hnamed |].
    destruct (String.eqb_spec username name) as [-> | _]; [| apply Hnamed].
    now intros [= <-].
  - intros name user. rewrite get_update.
    destruct (setItem_throws ls (setItem_calls ls)); [apply Hplain |].
    destruct (String.eqb_spec username name) as [-> | _]; [| apply Hplain].
    intros [= <-]. destruct (entry_expiry now keyData Hin) as (ms & _ & _ & Hadmin & _).
    split; [exact Hadmin |]. eexists. split; [reflexivity |]. simpl.
    rewrite Hcode. apply key_valid_redeemable.
    destruct Hin as [<- | [<- | [<- | []]]]; subst key; eexists; reflexivity.
Qed.

Lemma registered_registerAll (requests : list (Z * string * string * string))
    (ls : LocalStorage) :
  registered ls -> registered (registerAll requests ls).
Proof.
  revert ls. induction requests as [| [[[now username] password] key] rest IH];
    intros ls H; simpl; [assumption |].
  apply IH. now apply registered_register.
Qed.

Lemma registered_empty : registered emptyStorage.
Proof.
  split; [| split].
  - intros name1 name2 user1 user2 code G. vm_compute in G. discriminate.
  - intros name user G. vm_compute in G. discriminate.
  - intros name user G. vm_compute in G. discriminate.
Qed.

Lemma registered_at_most_three (ls : LocalStorage) :
  registered ls -> (length (Storage.getAllUsers ls) <= 3)%nat.
Proof.
  intros (Huniq & Hnamed & Hplain).
  unfold Storage.getAllUsers. rewrite length_map.
  set (listed := List.filter
                   (fun kv => String.prefix CONFIG.STORAGE_PREFIX (fst kv))
                   (map_to_list (items ls))).
  assert (Hitem : forall kv, kv ∈ listed ->
             exists name, fst kv = UserManager.storageKey name
                          /\ UserManager.get name ls = Some (snd kv)).
  { intros [k u] Hin. apply list_elem_of_In, filter_In in Hin as [Hin Hpre].
    simpl in Hpre. apply prefix_append in Hpre as [name ->]. exists name.
    split; [reflexivity |].
    apply list_elem_of_In in Hin. now apply elem_of_map_to_list in Hin. }
  assert (Hcode : forall kv name, UserManager.get name ls = Some (snd kv) ->
             In (firstCode kv) redeemableCodes /\ holds (firstCode kv) (snd kv) = true).
  { intros kv name Hget. destruct (Hplain _ _ Hget) as (_ & k & Hk & Hred).
    unfold firstCode, holds. rewrite Hk. simpl.
    split; [assumption |]. now rewrite String.eqb_refl. }
  assert (Hnodup : NoDup (firstCode <$> listed)).
  { apply NoDup_fmap_2_strong.
    - intros [k1 u1] [k2 u2] H1 H2 Heq.
      destruct (Hitem _ H1) as (n1 & E1 & G1). destruct (Hitem _ H2) as (n2 & E2 & G2).
      simpl in E1, E2, G1, G2. subst k1 k2.
      destruct (Hcode (UserManager.storageKey n1, u1) n1 G1) as [_ Hh1].
      destruct (Hcode (UserManager.storageKey n2, u2) n2 G2) as [_ Hh2].
      simpl in Hh1, Hh2. rewrite <- Heq in Hh2.
      pose proof (Huniq n1 n2 u1 u2 _ G1 G2 Hh1 Hh2) as ->.
      congruence.
    - unfold listed. apply NoDup_ListNoDup, List.NoDup_filter, NoDup_ListNoDup.
      apply NoDup_map_to_list. }
  assert (Hsub : firstCode <$> listed ⊆+ redeemableCodes).
  { apply NoDup_submseteq; [assumption |].
    intros c Hc. apply list_elem_of_fmap in Hc as (kv & -> & Hin).
    destruct (Hitem _ Hin) as (name & _ & Hget).
    apply list_elem_of_In. now apply (Hcode kv name). }
  apply submseteq_length in Hsub. now rewrite length_fmap in Hsub.
Qed.

End Registrations.

(** X12. Whatever registrations are attempted, one after the other from
    the empty store, in the store they leave no key code is held by two
    accounts, every record sits under its own username, every account is a
    non-admin account with exactly one key, one of the three codes that the
    key pattern accepts, and there are at most three accounts. *)
Theorem registrations_at_most_three (requests : list (Z * string * string * string)) :
  let ls := registerAll requests emptyStorage in
  unique_keys ls
  /\ named ls
  /\ (forall name user, UserManager.get name ls = Some user -> plain_account user)
  /\ (length (Storage.getAllUsers ls) <= 3)%nat.
Proof.
  intros ls.
  assert (H : registered ls) by apply registered_registerAll, registered_empty.
  pose proof (registered_at_most_three ls H) as Hthree.
  destruct H as (Hu & Hn & Hp). auto.
Qed.

(* ===================================================================== *)
(** ** Login and the session *)
(* ===================================================================== *)

Lemma updateKeyStatus_shape (now : Z) (user : User.t) (ls : LocalStorage) :
  currentUser (snd (UserManager.updateKeyStatus now user ls)) = currentUser ls
  /\ setItem_throws (snd (UserManager.updateKeyStatus now user ls)) = setItem_throws ls
  /\ setItem_calls (snd (UserManager.updateKeyStatus now user ls))
     = (setItem_calls ls
        + if existsb (staleKey now) (User.keys user) then 1 else 0)%nat.
Proof.
  rewrite updateKeyStatus_store.
  destruct (existsb (staleKey now) (User.keys user)).
  - pose proof (update_shape (User.username user)
                  (User.set_keys (map (refreshKey now) (User.keys user)) user) ls)
      as (H1 & H2 & H3 & _).
    rewrite H1, H2, H3. repeat split. lia.
  - repeat split. lia.
Qed.

Lemma get_updateKeyStatus (now : Z) (user : User.t) (name : string) (ls : LocalStorage) :
  UserManager.get name (snd (UserManager.updateKeyStatus now user ls))
  = if existsb (staleKey now) (User.keys user)
       && negb (setItem_throws ls (setItem_calls ls))
       && String.eqb (User.username user) name
    then Some (fst (UserManager.updateKeyStatus now user ls))
    else UserManager.get name ls.
Proof.
  rewrite updateKeyStatus_store, updateKeyStatus_user.
  destruct (existsb (staleKey now) (User.keys user)); [| reflexivity].
  rewrite get_update.
  destruct (setItem_throws ls (setItem_calls ls)); [reflexivity |].
  now destruct (String.eqb (User.username user) name).
Qed.

Lemma setCurrentUserKey_shape (username : string) (ls : LocalStorage) :
  items (snd (Storage.setCurrentUserKey username ls)) = items ls
  /\ setItem_throws (snd (Storage.setCurrentUserKey username ls)) = setItem_throws ls
  /\ setItem_calls (snd (Storage.setCurrentUserKey username ls)) = S (setItem_calls ls)
  /\ currentUser (snd (Storage.setCurrentUserKey username ls))
     = if setItem_throws ls (setItem_calls ls) then currentUser ls else Some username.
Proof.
  unfold Storage.setCurrentUserKey.
  now destruct (setItem_throws ls (setItem_calls ls)).
Qed.

(** The account that a login at [now] writes. *)
Lemma login_success (now : Z) (username password : string) (user : User.t)
    (ls : LocalStorage) :
  UserManager.get username ls = Some user ->
  User.password user = password ->
  Auth.login now username password ls
  = (Result.redirect (if User.isAdmin user then "admin.html" else "dashboard.html"),
     snd (Storage.setCurrentUserKey username
            (snd (UserManager.update username
                    (fst (UserManager.updateKeyStatus now (User.set_lastLogin now user) ls))
                    (snd (UserManager.updateKeyStatus now (User.set_lastLogin now user) ls)))))).
Proof.
  intros Hget Hpw. unfold Auth.login. rewrite Hget, Hpw, String.eqb_refl. simpl negb.
  cbv iota.
  pose proof (updateKeyStatus_user now (User.set_lastLogin now user) ls) as Hu.
  destruct (UserManager.updateKeyStatus now (User.set_lastLogin now user) ls)
    as [user2 ls1]. simpl in *. now rewrite Hu.
Qed.

(** What a login with the stored password leaves in the store. *)
Lemma login_stores (now : Z) (username password : string) (user : User.t)
    (ls : LocalStorage) :
  UserManager.get username ls = Some user ->
  User.password user = password ->
  setItem_calls (snd (Auth.login now username password ls))
  = (setItem_calls ls + 2
     + if existsb (staleKey now) (User.keys user) then 1 else 0)%nat
  /\ (reliable ls ->
      currentUser (snd (Auth.login now username password ls)) = Some username
      /\ UserManager.get username (snd (Auth.login now username password ls))
         = Some (User.set_keys (map (refreshKey now) (User.keys user))
                   (User.set_lastLogin now user))).
Proof.
  intros Hget Hpw. rewrite (login_success now username password user ls Hget Hpw).
  simpl snd.
  set (user1 := User.set_lastLogin now user).
  pose proof (updateKeyStatus_shape now user1 ls) as (Hc1 & Ht1 & Hn1).
  set (ls1 := snd (UserManager.updateKeyStatus now user1 ls)) in *.
  set (user2 := fst (UserManager.updateKeyStatus now user1 ls)).
  pose proof (update_shape username user2 ls1) as (Hc2 & Hn2 & Ht2 & _).
  pose proof (get_update username username user2 ls1) as Hg2.
  set (ls2 := snd (UserManager.update username user2 ls1)) in *.
  pose proof (setCurrentUserKey_shape username ls2) as (Hi3 & Ht3 & Hn3 & Hc3).
  split.
  - rewrite Hn3, Hn2, Hn1. change (User.keys user1) with (User.keys user). lia.
  - intros Hrel. split.
    + rewrite Hc3, Ht2, Ht1. now rewrite Hrel.
    + unfold UserManager.get, Storage.get in *. rewrite Hi3, Hg2, Ht1, Hrel.
      rewrite String.eqb_refl. unfold user2. now rewrite updateKeyStatus_user.
Qed.

(** X13. [login] answers 'User not found' when the username has no record
    and 'Incorrect password' when the stored password is not the one given,
    character for character; in both cases it writes nothing and leaves the
    session as it was.  Otherwise it answers with the page of the account,
    and it calls [setItem] twice, or three times when a stored flag was
    wrong.  On a store that accepts every write it leaves the session pointer
    on the username and, under the username, the account with the login time
    set to the clock value and the flags refreshed. *)
Theorem login_effect (now : Z) (username password : string) (ls : LocalStorage) :
  let r := Auth.login now username password ls in
  (UserManager.get username ls = None ->
   r = (Result.failure "User not found", ls))
  /\ (forall user,
        UserManager.get username ls = Some user ->
        User.password user <> password ->
        r = (Result.failure "Incorrect password", ls))
  /\ (forall user,
        UserManager.get username ls = Some user ->
        User.password user = password ->
        fst r = Result.redirect (if User.isAdmin user then "admin.html"
                                 else "dashboard.html")
        /\ setItem_calls (snd r)
           = (setItem_calls ls + 2
              + if existsb (staleKey now) (User.keys user) then 1 else 0)%nat
        /\ (reliable ls ->
            currentUser (snd r) = Some username
            /\ UserManager.get username (snd r)
               = Some (User.set_keys (map (refreshKey now) (User.keys user))
                         (User.set_lastLogin now user)))).
Proof.
  intros r. subst r. split; [| split].
  - intros Hnone. unfold Auth.login. now rewrite Hnone.
  - intros user Hget Hpw. unfold Auth.login. rewrite Hget.
    apply String.eqb_neq in Hpw. now rewrite Hpw.
  - intros user Hget Hpw. split.
    + now rewrite (login_success now username password user ls Hget Hpw).
    + now apply login_stores.
Qed.

Lemma login_effect_witness :
  Auth.login 3000 "zoe" "secret1" aliceStore
  = (Result.failure "User not found", aliceStore)
  /\ Auth.login 3000 "alice" "Secret1" aliceStore
     = (Result.failure "Incorrect password", aliceStore)
  /\ fst (Auth.login 3000 "alice" "secret1" aliceStore)
     = Result.redirect "dashboard.html".
Proof.
  pose proof (login_effect 3000 "zoe" "secret1" aliceStore) as (H1 & _).
  pose proof (login_effect 3000 "alice" "Secret1" aliceStore) as (_ & H2 & _).
  pose proof (login_effect 3000 "alice" "secret1" aliceStore) as (_ & _ & H3).
  split; [| split].
  - apply H1. vm_compute. reflexivity.
  - apply (H2 (UserManager.userData 1000 "alice" "secret1"
                 (KeyData.mk "DEMO-1234-ABCD-5678" "1day" "Trial"))).
    + vm_compute. reflexivity.
    + discriminate.
  - apply (H3 (UserManager.userData 1000 "alice" "secret1"
                 (KeyData.mk "DEMO-1234-ABCD-5678" "1day" "Trial"))).
    + vm_compute. reflexivity.
    + reflexivity.
Defined.

(** X14. After a successful registration a login with the same username
    and password succeeds at any time and leads to 'dashboard.html', never
    to the admin page; with any other password it answers 'Incorrect
    password' and changes nothing. *)
Theorem register_then_login
    (t0 t1 : Z) (username password key : string) (ls : LocalStorage) :
  Result.success (fst (Auth.register t0 username password key ls)) = true ->
  let ls' := snd (Auth.register t0 username password key ls) in
  fst (Auth.login t1 username password ls') = Result.redirect "dashboard.html"
  /\ forall other, other <> password ->
       Auth.login t1 username other ls' = (Result.failure "Incorrect password", ls').
Proof.
  intros Hok ls'. subst ls'.
  destruct (register_outcome t0 username password key ls)
    as [(Hfail & _) | (keyData & _ & _ & _ & _ & _ & Hk & E)].
  { rewrite Hfail in Hok. discriminate. }
  rewrite E in *. simpl fst in Hok. simpl snd.
  destruct (setItem_throws ls (setItem_calls ls)) eqn:Hthrows; [discriminate |].
  set (user := UserManager.userData t0 username password keyData).
  assert (Hget : UserManager.get username (snd (UserManager.update username user ls))
                 = Some user).
  { now rewrite get_update, Hthrows, String.eqb_refl. }
  apply key_valid_entry in Hk as [Hin _].
  destruct (entry_expiry t0 keyData Hin) as (ms & _ & _ & Hadmin & _).
  split.
  - rewrite (login_success t1 username password user _ Hget eq_refl).
    simpl. now rewrite Hadmin.
  - intros other Hne. unfold Auth.login. rewrite Hget.
    assert (Hpw : String.eqb (User.password user) other = false).
    { apply String.eqb_neq. simpl. congruence. }
    now rewrite Hpw.
Qed.

Lemma register_then_login_witness :
  fst (Auth.login 9000 "alice" "secret1" aliceStore) = Result.redirect "dashboard.html"
  /\ forall other, other <> "secret1" ->
       Auth.login 9000 "alice" other aliceStore
       = (Result.failure "Incorrect password", aliceStore).
Proof.
  apply (register_then_login 1000 9000 "alice" "secret1" "DEMO-1234-ABCD-5678"
           emptyStorage).
  reflexivity.
Defined.

(** X15. On a store that accepts every write, after a successful login
    with a non-empty username [getCurrentUser] at the same clock value
    returns the account that the login stored and writes nothing.  After a
    login with the empty username it returns null, although the login
    succeeded: the session pointer is read as absent when it is empty. *)
Theorem login_then_getCurrentUser
    (now : Z) (username password : string) (user : User.t) (ls : LocalStorage) :
  reliable ls ->
  UserManager.get username ls = Some user ->
  User.password user = password ->
  let ls' := snd (Auth.login now username password ls) in
  (username <> "" ->
   Auth.getCurrentUser now ls'
   = (Some (User.set_keys (map (refreshKey now) (User.keys user))
              (User.set_lastLogin now user)), ls'))
  /\ (username = "" -> Auth.getCurrentUser now ls' = (None, ls')).
Proof.
  intros Hrel Hget Hpw ls'.
  destruct (login_stores now username password user ls Hget Hpw) as (_ & Heff).
  destruct (Heff Hrel) as [Hcur Hstored]. fold ls' in Hcur, Hstored.
  unfold Auth.getCurrentUser, Storage.getCurrentUserKey. rewrite Hcur.
  split.
  - intros Hne. apply String.eqb_neq in Hne. rewrite Hne, Hstored.
    set (user2 := User.set_keys (map (refreshKey now) (User.keys user))
                    (User.set_lastLogin now user)).
    rewrite (surjective_pairing (UserManager.updateKeyStatus now user2 ls')).
    rewrite updateKeyStatus_user, updateKeyStatus_store.
    unfold user2 at 1 2 3. rewrite refreshed_not_stale, refreshed_fixed.
    reflexivity.
  - intros ->. reflexivity.
Qed.

Lemma login_then_getCurrentUser_witness :
  (User.username <$> fst (Auth.getCurrentUser 3000 aliceLoggedIn)) = Some "alice"
  /\ snd (Auth.getCurrentUser 3000 aliceLoggedIn) = aliceLoggedIn.
Proof.
  assert (Hrel : reliable aliceStore) by (intros n; reflexivity).
  assert (Hget : UserManager.get "alice" aliceStore
                 = Some (UserManager.userData 1000 "alice" "secret1"
                           (KeyData.mk "DEMO-1234-ABCD-5678" "1day" "Trial")))
    by (vm_compute; reflexivity).
  pose proof (login_then_getCurrentUser 3000 "alice" "secret1" _ aliceStore
                Hrel Hget eq_refl) as (H & _).
  fold aliceLoggedIn in H. rewrite H by discriminate. split; reflexivity.
Defined.

(** X16. [logout] clears the session pointer and nothing else: the items
    and the count of [setItem] calls are the same, and a second logout
    changes nothing.  After it [getCurrentUser] returns null and
    [changePassword] answers 'Not logged in', both without touching the
    store, whatever accounts are stored. *)
Theorem logout_clears_session
    (now : Z) (currentPassword newPassword confirmPassword : string) (ls : LocalStorage) :
  items (Auth.logout ls) = items ls
  /\ setItem_calls (Auth.logout ls) = setItem_calls ls
  /\ Auth.logout (Auth.logout ls) = Auth.logout ls
  /\ Auth.getCurrentUser now (Auth.logout ls) = (None, Auth.logout ls)
  /\ Auth.changePassword now currentPassword newPassword confirmPassword (Auth.logout ls)
     = (Result.failure "Not logged in", Auth.logout ls)
  /\ KeyManager.redeem now newPassword (fst (Auth.getCurrentUser now (Auth.logout ls)))
       (Auth.logout ls)
     = (Result.failure "Not logged in", None, Auth.logout ls).
Proof. repeat split. Qed.

(* ===================================================================== *)
(** ** Changing the password *)
(* ===================================================================== *)

(** What [getCurrentUser] returns: nothing and the store as it was, or the
    refreshed record of the username of the session. *)
Lemma getCurrentUser_outcome (now : Z) (ls : LocalStorage) :
  Auth.getCurrentUser now ls = (None, ls)
  \/ exists name stored,
       currentUser ls = Some name /\ name <> ""
       /\ UserManager.get name ls = Some stored
       /\ Auth.getCurrentUser now ls
          = (Some (User.set_keys (map (refreshKey now) (User.keys stored)) stored),
             snd (UserManager.updateKeyStatus now stored ls)).
Proof.
  unfold Auth.getCurrentUser, Storage.getCurrentUserKey.
  destruct (currentUser ls) as [name |]; [| now left].
  destruct (String.eqb_spec name "") as [-> | Hne]; [now left |].
  destruct (UserManager.get name ls) as [stored |] eqn:Hget; [| now left].
  right. exists name, stored. repeat split; try assumption.
  rewrite (surjective_pairing (UserManager.updateKeyStatus now stored ls)).
  now rewrite updateKeyStatus_user.
Qed.

(** The outcome of [changePassword] from that of the session resolution. *)
Lemma changePassword_outcome
    (now : Z) (currentPassword newPassword confirmPassword : string) (ls : LocalStorage) :
  Auth.changePassword now currentPassword newPassword confirmPassword ls
  = match Auth.getCurrentUser now ls with
    | (None, ls1) => (Result.failure "Not logged in", ls1)
    | (Some user, ls1) =>
        if negb (String.eqb (User.password user) currentPassword)
        then (Result.failure "Current password is incorrect", ls1)
        else if String.eqb newPassword ""
             then (Result.failure "Password is required", ls1)
             else if (String.length newPassword <? 6)%nat
                  then (Result.failure "Password must be at least 6 characters", ls1)
                  else if negb (String.eqb newPassword confirmPassword)
                       then (Result.failure "Passwords do not match", ls1)
                       else (Result.ok "Password changed successfully",
                             snd (UserManager.update (User.username user)
                                    (User.set_password newPassword user) ls1))
    end.
Proof.
  unfold Auth.changePassword, Validator.password, CONFIG.MIN_PASSWORD_LENGTH.
  destruct (Auth.getCurrentUser now ls) as [[user |] ls1]; [| reflexivity].
  destruct (negb (String.eqb (User.password user) currentPassword)); [reflexivity |].
  destruct (String.eqb newPassword ""); [reflexivity |].
  now destruct (String.length newPassword <? 6)%nat.
Qed.

(** X17. [changePassword] succeeds exactly when the session resolves to an
    account, the stored password is the current one given, the new password
    has at least six characters and the confirmation equals it; whether the
    store accepts the write plays no part.  It checks in this order: without
    a session it answers 'Not logged in' whatever the passwords, and with a
    wrong current password 'Current password is incorrect' even when the new
    password is too short or the confirmation differs. *)
Theorem changePassword_cases
    (now : Z) (currentPassword newPassword confirmPassword : string) (ls : LocalStorage) :
  let r := Auth.changePassword now currentPassword newPassword confirmPassword ls in
  (Result.success (fst r) = true
   <-> exists user,
         fst (Auth.getCurrentUser now ls) = Some user
         /\ User.password user = currentPassword
         /\ (6 <= String.length newPassword)%nat
         /\ newPassword = confirmPassword)
  /\ (fst (Auth.getCurrentUser now ls) = None ->
      fst r = Result.failure "Not logged in")
  /\ (forall user,
        fst (Auth.getCurrentUser now ls) = Some user ->
        User.password user <> currentPassword ->
        fst r = Result.failure "Current password is incorrect")
  /\ (forall user,
        fst (Auth.getCurrentUser now ls) = Some user ->
        User.password user = currentPassword ->
        (String.length newPassword < 6)%nat ->
        In (Result.message (fst r))
           [Some "Password is required"; Some "Password must be at least 6 characters"])
  /\ (forall user,
        fst (Auth.getCurrentUser now ls) = Some user ->
        User.password user = currentPassword ->
        (6 <= String.length newPassword)%nat ->
        newPassword <> confirmPassword ->
        fst r = Result.failure "Passwords do not match").
Proof.
  intros r. subst r. rewrite changePassword_outcome.
  destruct (Auth.getCurrentUser now ls) as [[user |] ls1]; simpl fst.
  2: { split; [| split; [| split; [| split]]].
       - split; [discriminate | intros (u & Hu & _); discriminate Hu].
       - reflexivity.
       - intros u Hu. discriminate Hu.
       - intros u Hu. discriminate Hu.
       - intros u Hu. discriminate Hu. }
  destruct (String.eqb_spec (User.password user) currentPassword) as [Hpw | Hpw];
    simpl negb; cbv iota.
  2: { split; [| split; [| split; [| split]]].
       - split; [discriminate | intros (u & [= <-] & Hp & _); contradiction].
       - discriminate.
       - reflexivity.
       - intros u [= <-] Hp. contradiction.
       - intros u [= <-] Hp. contradiction. }
  destruct (String.eqb_spec newPassword "") as [-> | Hne].
  { split; [| split; [| split; [| split]]].
    - split; [discriminate | intros (u & _ & _ & Hl & _); simpl in Hl; lia].
    - discriminate.
    - intros u [= <-] Hp. contradiction.
    - intros u _ _ _. simpl. auto.
    - intros u _ _ Hl. simpl in Hl. lia. }
  destruct (Nat.ltb_spec (String.length newPassword) 6) as [Hshort | Hlong].
  { split; [| split; [| split; [| split]]].
    - split; [discriminate | intros (u & _ & _ & Hl & _); lia].
    - discriminate.
    - intros u [= <-] Hp. contradiction.
    - intros u _ _ _. simpl. auto.
    - intros u _ _ Hl. lia. }
  destruct (String.eqb_spec newPassword confirmPassword) as [Heq | Hneq];
    simpl negb; cbv iota.
  - split; [| split; [| split; [| split]]].
    + split; [intros _; now exists user | reflexivity].
    + discriminate.
    + intros u [= <-] Hp. contradiction.
    + intros u _ _ Hl. lia.
    + intros u _ _ _ Hn. contradiction.
  - split; [| split; [| split; [| split]]].
    + split; [discriminate | intros (u & _ & _ & _ & He); contradiction].
    + discriminate.
    + intros u [= <-] Hp. contradiction.
    + intros u _ _ Hl. lia.
    + reflexivity.
Qed.

Lemma changePassword_cases_witness :
  fst (Auth.changePassword 5000 "secret1" "abc" "abc" aliceStore)
  = Result.failure "Not logged in"
  /\ fst (Auth.changePassword 5000 "wrong" "abc" "xyz" aliceLoggedIn)
     = Result.failure "Current password is incorrect"
  /\ fst (Auth.changePassword 5000 "secret1" "secret2" "secret3" aliceLoggedIn)
     = Result.failure "Passwords do not match".
Proof.
  pose proof (changePassword_cases 5000 "secret1" "abc" "abc" aliceStore)
    as (_ & H1 & _).
  pose proof (changePassword_cases 5000 "wrong" "abc" "xyz" aliceLoggedIn)
    as (_ & _ & H2 & _).
  pose proof (changePassword_cases 5000 "secret1" "secret2" "secret3" aliceLoggedIn)
    as (_ & _ & _ & _ & H3).
  split; [| split].
  - apply H1. vm_compute. reflexivity.
  - eapply H2; [vm_compute; reflexivity | discriminate].
  - eapply H3; [vm_compute; reflexivity | reflexivity | simpl; lia | discriminate].
Defined.

(* ===================================================================== *)
(** ** Records under their own username *)
(* ===================================================================== *)

Section Named.

Variable now : Z.

Lemma named_update (user : User.t) (ls : LocalStorage) :
  named ls -> named (snd (UserManager.update (User.username user) user ls)).
Proof.
  intros Hnamed name u. rewrite get_update.
  destruct (setItem_throws ls (setItem_calls ls)); [apply Hnamed |].
  destruct (String.eqb_spec (User.username user) name) as [<- | _]; [| apply Hnamed].
  now intros [= <-].
Qed.

Lemma named_updateKeyStatus (user : User.t) (ls : LocalStorage) :
  named ls -> named (snd (UserManager.updateKeyStatus now user ls)).
Proof.
  intros Hnamed. rewrite updateKeyStatus_store.
  destruct (existsb _ _); [| assumption].
  apply (named_update (User.set_keys (map (refreshKey now) (User.keys user)) user) ls Hnamed).
Qed.

Lemma named_setCurrentUserKey (username : string) (ls : LocalStorage) :
  named ls -> named (snd (Storage.setCurrentUserKey username ls)).
Proof.
  intros Hnamed name u. unfold UserManager.get, Storage.get.
  destruct (setCurrentUserKey_shape username ls) as (-> & _). apply Hnamed.
Qed.

Lemma named_register (username password key : string) (ls : LocalStorage) :
  named ls -> named (snd (Auth.register now username password key ls)).
Proof.
  intros Hnamed.
  destruct (register_outcome now username password key ls)
    as [(_ & -> & _) | (keyData & _ & _ & _ & _ & _ & _ & ->)]; [assumption |].
  apply (named_update (UserManager.userData now username password keyData) ls Hnamed).
Qed.

Lemma named_login (username password : string) (ls : LocalStorage) :
  named ls -> named (snd (Auth.login now username password ls)).
Proof.
  intros Hnamed. unfold Auth.login.
  destruct (UserManager.get username ls) as [user |] eqn:Hget; [| assumption].
  destruct (negb _); [assumption |].
  pose proof (updateKeyStatus_user now (User.set_lastLogin now user) ls) as Hu.
  pose proof (named_updateKeyStatus (User.set_lastLogin now user) ls Hnamed) as Hs.
  destruct (UserManager.updateKeyStatus now _ ls) as [user2 ls1]. simpl in *.
  apply named_setCurrentUserKey.
  replace username with (User.username user2).
  - now apply named_update.
  - rewrite Hu. simpl. now apply Hnamed.
Qed.

Lemma named_getCurrentUser (ls : LocalStorage) :
  named ls -> named (snd (Auth.getCurrentUser now ls)).
Proof.
  intros Hnamed.
  destruct (getCurrentUser_outcome now ls) as [-> | (name & stored & _ & _ & _ & ->)];
    [assumption | now apply named_updateKeyStatus].
Qed.

Lemma named_changePassword (currentPassword newPassword confirmPassword : string)
    (ls : LocalStorage) :
  named ls ->
  named (snd (Auth.changePassword now currentPassword newPassword confirmPassword ls)).
Proof.
  intros Hnamed. rewrite changePassword_outcome.
  pose proof (named_getCurrentUser ls Hnamed) as Hs.
  destruct (Auth.getCurrentUser now ls) as [[user |] ls1]; simpl in *; [| assumption].
  repeat (match goal with |- context [if ?b then _ else _] => destruct b end;
          [assumption |]).
  apply (named_update (User.set_password newPassword user) ls1 Hs).
Qed.

Lemma named_redeem (key : string) (user : option User.t) (ls : LocalStorage) :
  named ls -> named (snd (KeyManager.redeem now key user ls)).
Proof.
  intros Hnamed. unfold KeyManager.redeem.
  destruct user as [user |]; [| assumption].
  destruct (Validator.key key) as [data | m]; [| assumption].
  destruct (existsb _ (User.keys user)); [assumption |].
  simpl snd.
  match goal with |- named (snd (UserManager.update _ ?u _)) =>
    apply (named_update u ls Hnamed) end.
Qed.

Lemma named_delete (name : string) (ls : LocalStorage) :
  named ls -> named (snd (UserManager.delete name ls)).
Proof.
  intros Hnamed other u. rewrite get_delete.
  destruct (String.eqb name other); [discriminate | apply Hnamed].
Qed.

End Named.

(** X18. The engine keeps every record under the key of its own username:
    when this holds of the store, it holds after a registration, a login, a
    session resolution, a status refresh or a redemption for any account
    object, a password change, a logout and a deletion.  It holds of the
    empty store. *)
Theorem named_is_kept (now : Z) (ls : LocalStorage) :
  named emptyStorage
  /\ (named ls ->
      (forall username password key,
         named (snd (Auth.register now username password key ls)))
      /\ (forall username password,
            named (snd (Auth.login now username password ls)))
      /\ named (snd (Auth.getCurrentUser now ls))
      /\ (forall user, named (snd (UserManager.updateKeyStatus now user ls)))
      /\ (forall key user, named (snd (KeyManager.redeem now key user ls)))
      /\ (forall currentPassword newPassword confirmPassword,
            named (snd (Auth.changePassword now currentPassword newPassword
                          confirmPassword ls)))
      /\ named (Auth.logout ls)
      /\ (forall name, named (snd (UserManager.delete name ls)))).
Proof.
  split.
  - intros name user G. vm_compute in G. discriminate.
  - intros Hnamed. repeat split.
    + intros. now apply named_register.
    + intros. now apply named_login.
    + now apply named_getCurrentUser.
    + intros. now apply named_updateKeyStatus.
    + intros. now apply named_redeem.
    + intros. now apply named_changePassword.
    + exact Hnamed.
    + intros. now apply named_delete.
Qed.

Lemma named_is_kept_witness :
  named aliceStore /\ named aliceLoggedIn.
Proof.
  destruct (named_is_kept 1000 emptyStorage) as [Hempty Hkeep].
  destruct (Hkeep Hempty) as (Hreg & _).
  assert (Halice : named aliceStore) by apply Hreg.
  split; [exact Halice |].
  destruct (named_is_kept 3000 aliceStore) as [_ Hkeep'].
  destruct (Hkeep' Halice) as (_ & Hlogin & _).
  apply Hlogin.
Defined.

Lemma named_empty : named emptyStorage.
Proof. intros name user G. vm_compute in G. discriminate. Qed.

Lemma reliable_updateKeyStatus (now : Z) (user : User.t) (ls : LocalStorage) :
  reliable ls -> reliable (snd (UserManager.updateKeyStatus now user ls)).
Proof.
  intros Hrel n. destruct (updateKeyStatus_shape now user ls) as (_ & -> & _).
  apply Hrel.
Qed.

(** The passwords that [getCurrentUser] leaves in the store. *)
Lemma getCurrentUser_passwords (now : Z) (ls : LocalStorage) (name : string) :
  named ls ->
  User.password <$> UserManager.get name (snd (Auth.getCurrentUser now ls))
  = User.password <$> UserManager.get name ls.
Proof.
  intros Hnamed.
  destruct (getCurrentUser_outcome now ls)
    as [-> | (session & stored & _ & _ & Hget & ->)]; [reflexivity |].
  simpl snd. rewrite get_updateKeyStatus, updateKeyStatus_user.
  destruct (existsb _ _ && negb _ && String.eqb (User.username stored) name) eqn:Hcond;
    [| reflexivity].
  apply andb_true_iff in Hcond as [_ Hname]. apply String.eqb_eq in Hname.
  rewrite (Hnamed _ _ Hget) in Hname. subst name. now rewrite Hget.
Qed.

(** X19. In a store whose records sit under their own usernames and that
    accepts every write, a successful [changePassword] stores the new
    password for the account of the session: afterwards a login of that
    username with the new password succeeds and a login with any other
    password, the old one included when it differs, answers 'Incorrect
    password'.  The records of the other usernames are what they were. *)
Theorem changePassword_then_login
    (now later : Z) (currentPassword newPassword confirmPassword : string)
    (ls : LocalStorage) :
  named ls ->
  reliable ls ->
  let r := Auth.changePassword now currentPassword newPassword confirmPassword ls in
  Result.success (fst r) = true ->
  exists name,
    currentUser ls = Some name
    /\ (User.password <$> UserManager.get name (snd r)) = Some newPassword
    /\ Result.success (fst (Auth.login later name newPassword (snd r))) = true
    /\ (forall other, other <> newPassword ->
          Auth.login later name other (snd r)
          = (Result.failure "Incorrect password", snd r))
    /\ (forall other, other <> name ->
          UserManager.get other (snd r) = UserManager.get other ls).
Proof.
  intros Hnamed Hrel r. subst r. rewrite changePassword_outcome.
  destruct (getCurrentUser_outcome now ls)
    as [-> | (name & stored & Hcur & _ & Hget & ->)]; [discriminate |].
  set (user := User.set_keys (map (refreshKey now) (User.keys stored)) stored).
  set (ls1 := snd (UserManager.updateKeyStatus now stored ls)).
  repeat (match goal with |- context [if ?b then _ else _] => destruct b end;
          [discriminate |]).
  intros _. cbn [fst snd].
  assert (Hname : User.username user = name) by (simpl; now apply Hnamed).
  rewrite Hname.
  assert (Hrel1 : setItem_throws ls1 (setItem_calls ls1) = false)
    by now apply reliable_updateKeyStatus.
  set (user' := User.set_password newPassword user).
  assert (Hstored : UserManager.get name (snd (UserManager.update name user' ls1))
                    = Some user').
  { now rewrite get_update, Hrel1, String.eqb_refl. }
  exists name. split; [assumption |]. split; [now rewrite Hstored |]. split; [| split].
  - now rewrite (login_success later name newPassword user' _ Hstored eq_refl).
  - intros other Hne. unfold Auth.login. rewrite Hstored.
    assert (Hpw : String.eqb (User.password user') other = false).
    { apply String.eqb_neq. simpl. congruence. }
    now rewrite Hpw.
  - intros other Hne. rewrite get_update, Hrel1.
    destruct (String.eqb_spec name other) as [-> | _]; [contradiction |].
    unfold ls1. rewrite get_updateKeyStatus.
    rewrite (Hnamed _ _ Hget).
    destruct (String.eqb_spec name other) as [-> | _]; [contradiction |].
    now rewrite andb_false_r.
Qed.

Lemma changePassword_then_login_witness :
  exists name,
    currentUser aliceLoggedIn = Some name
    /\ (User.password
          <$> UserManager.get name
                (snd (Auth.changePassword 5000 "secret1" "secret2" "secret2"
                        aliceLoggedIn)))
       = Some "secret2"
    /\ Result.success
         (fst (Auth.login 6000 name "secret2"
                 (snd (Auth.changePassword 5000 "secret1" "secret2" "secret2"
                         aliceLoggedIn)))) = true
    /\ (forall other, other <> "secret2" ->
          Auth.login 6000 name other
            (snd (Auth.changePassword 5000 "secret1" "secret2" "secret2" aliceLoggedIn))
          = (Result.failure "Incorrect password",
             snd (Auth.changePassword 5000 "secret1" "secret2" "secret2" aliceLoggedIn)))
    /\ (forall other, other <> name ->
          UserManager.get other
            (snd (Auth.changePassword 5000 "secret1" "secret2" "secret2" aliceLoggedIn))
          = UserManager.get other aliceLoggedIn).
Proof.
  apply (changePassword_then_login 5000 6000 "secret1" "secret2" "secret2" aliceLoggedIn).
  - apply named_login, named_register, named_empty.
  - intros n. reflexivity.
  - vm_compute. reflexivity.
Defined.

(** X20. In a store whose records sit under their own usernames,
    [changePassword] changes the stored password of no account when it
    fails, and of no account but that of the session when it succeeds, also
    when its session resolution persists refreshed flags. *)
Theorem changePassword_other_passwords
    (now : Z) (currentPassword newPassword confirmPassword : string)
    (ls : LocalStorage) (name : string) :
  named ls ->
  let r := Auth.changePassword now currentPassword newPassword confirmPassword ls in
  Result.success (fst r) = false \/ currentUser ls <> Some name ->
  User.password <$> UserManager.get name (snd r)
  = User.password <$> UserManager.get name ls.
Proof.
  intros Hnamed r. subst r. rewrite changePassword_outcome.
  pose proof (getCurrentUser_passwords now ls name Hnamed) as Hpw.
  destruct (getCurrentUser_outcome now ls)
    as [E | (session & stored & Hcur & _ & Hget & E)]; rewrite E in *; [auto |].
  cbn [fst snd] in *.
  repeat (match goal with |- context [if ?b then _ else _] => destruct b end;
          [intros _; exact Hpw |]).
  cbn [fst snd]. intros [Hfail | Hother]; [discriminate |].
  rewrite get_update.
  destruct (setItem_throws _ _); [exact Hpw |].
  cbn [User.username User.set_password User.set_keys].
  rewrite (Hnamed _ _ Hget).
  destruct (String.eqb_spec session name) as [-> | _]; [congruence | exact Hpw].
Qed.

Lemma changePassword_other_passwords_witness :
  User.password
    <$> UserManager.get "alice"
          (snd (Auth.changePassword 5000 "wrong" "secret2" "secret2" aliceLoggedIn))
  = User.password <$> UserManager.get "alice" aliceLoggedIn.
Proof.
  apply (changePassword_other_passwords 5000 "wrong" "secret2" "secret2"
           aliceLoggedIn "alice").
  - apply named_login, named_register, named_empty.
  - left. vm_compute. reflexivity.
Defined.

(* ===================================================================== *)
(** ** Redeeming a key *)
(* ===================================================================== *)

(** X21. [redeem] succeeds exactly when it is given an account, the key is
    one of the three codes that the key pattern accepts, and the account
    does not hold it yet; no other account is looked at.  Without account it
    answers 'Not logged in'; for any other key one of the three messages of
    the key validator; for a key of the account 'You already have this
    key'.  In these cases the account object and the store are what they
    were and [setItem] is not called. *)
Theorem redeem_cases (now : Z) (key : string) (user : option User.t) (ls : LocalStorage) :
  (Result.success (fst (fst (KeyManager.redeem now key user ls))) = true
   <-> exists u, user = Some u /\ In key redeemableCodes /\ holds key u = false)
  /\ (user = None ->
      KeyManager.redeem now key user ls = (Result.failure "Not logged in", None, ls))
  /\ (forall u, user = Some u -> ~ In key redeemableCodes ->
        exists m, In m keyMessages
                  /\ KeyManager.redeem now key user ls = (Result.failure m, Some u, ls))
  /\ (forall u, user = Some u -> In key redeemableCodes -> holds key u = true ->
        KeyManager.redeem now key user ls
        = (Result.failure "You already have this key", Some u, ls)).
Proof.
  unfold KeyManager.redeem. destruct user as [u |].
  2: { split; [| split; [| split]].
       - split; [discriminate | intros (u & Hu & _); discriminate Hu].
       - reflexivity.
       - intros u Hu. discriminate Hu.
       - intros u Hu. discriminate Hu. }
  destruct (Validator.key key) as [data | m] eqn:Hk.
  - assert (Hred : In key redeemableCodes).
    { apply key_valid_redeemable. now exists data. }
    fold (holds key u). destruct (holds key u) eqn:Hh.
    + split; [| split; [| split]].
      * split; [discriminate | intros (u' & [= <-] & _ & H); congruence].
      * discriminate.
      * intros u' _ Hout. contradiction.
      * now intros u' [= <-] _ _.
    + split; [| split; [| split]].
      * split; [intros _; now exists u | reflexivity].
      * discriminate.
      * intros u' _ Hout. contradiction.
      * intros u' [= <-] _ H. congruence.
  - assert (Hout : ~ In key redeemableCodes).
    { intros H. apply key_valid_redeemable in H as [kd H]. congruence. }
    split; [| split; [| split]].
    + split; [discriminate | intros (u' & _ & H & _); contradiction].
    + discriminate.
    + intros u' [= <-] _. exists m. split; [| reflexivity].
      now apply (key_messages key).
    + intros u' _ H. contradiction.
Qed.

Lemma redeem_cases_witness :
  KeyManager.redeem 5000 "TEST-KEY1-2025-GAME" None aliceStore
  = (Result.failure "Not logged in", None, aliceStore)
  /\ (exists m, In m keyMessages
                /\ KeyManager.redeem 5000 "ADMIN-2025-MASTER-KEY" (Some staleUser) aliceStore
                   = (Result.failure m, Some staleUser, aliceStore))
  /\ KeyManager.redeem 5000 "DEMO-1234-ABCD-5678" (Some staleUser) aliceStore
     = (Result.failure "You already have this key", Some staleUser, aliceStore).
Proof.
  split; [| split].
  - pose proof (redeem_cases 5000 "TEST-KEY1-2025-GAME" None aliceStore) as (_ & H & _).
    now apply H.
  - pose proof (redeem_cases 5000 "ADMIN-2025-MASTER-KEY" (Some staleUser) aliceStore)
      as (_ & _ & H & _).
    apply H; [reflexivity |]. simpl. intuition discriminate.
  - pose proof (redeem_cases 5000 "DEMO-1234-ABCD-5678" (Some staleUser) aliceStore)
      as (_ & _ & _ & H).
    apply H; [reflexivity | simpl; auto | reflexivity].
Defined.

Lemma holds_app (code : string) (user : User.t) (k : Key.t) :
  holds code (User.set_keys (User.keys user ++ [k]) user)
  = holds code user || String.eqb (Key.code k) code.
Proof.
  unfold holds. simpl. rewrite existsb_app. simpl. now rewrite orb_false_r.
Qed.



(* ===================================================================== *)
(** ** How many keys an account can hold *)
(* ===================================================================== *)

Lemma tidy_length (user : User.t) :
  tidy user -> (length (User.keys user) <= 3)%nat.
Proof.
  intros [Hnodup Hall].
  assert (Hsub : map Key.code (User.keys user) ⊆+ redeemableCodes).
  { apply NoDup_submseteq; [assumption |].
    intros c Hc. apply list_elem_of_In.
    rewrite List.Forall_forall in Hall. apply Hall. now apply list_elem_of_In. }
  apply submseteq_length in Hsub. now rewrite length_map in Hsub.
Qed.

Lemma holds_In (code : string) (user : User.t) :
  holds code user = true <-> In code (map Key.code (User.keys user)).
Proof.
  unfold holds. rewrite existsb_exists, in_map_iff.
  split; intros (k & H1 & H2).
  - exists k. split; [now apply String.eqb_eq | assumption].
  - exists k. split; [assumption | now apply String.eqb_eq].
Qed.

(** The account object after [redeem]: the one given, or the one given
    with one more key, of a code the account did not hold. *)
Lemma redeem_failure_or_append (now : Z) (key : string) (user : User.t)
    (ls : LocalStorage) :
  snd (fst (KeyManager.redeem now key (Some user) ls)) = Some user
  \/ exists k,
       Key.code k = key /\ In key redeemableCodes /\ holds key user = false
       /\ snd (fst (KeyManager.redeem now key (Some user) ls))
          = Some (User.set_keys (User.keys user ++ [k]) user).
Proof.
  unfold KeyManager.redeem.
  destruct (Validator.key key) as [data | m] eqn:Hk; [| now left].
  fold (holds key user). destruct (holds key user) eqn:Hh; [now left |].
  right.
  exists (Key.mk key "Reverse" (KeyData.type data) (KeyData.duration data)
            (negb (Utils.isExpired now
                     (Utils.calculateExpiryDate now (KeyData.duration data))))
            now (Utils.calculateExpiryDate now (KeyData.duration data))).
  split; [reflexivity |]. split; [| split; reflexivity].
  apply key_valid_redeemable. now exists data.
Qed.

(** X23. An account never holds more than three keys: an account without
    a code twice and with codes that the key pattern accepts only has at most
    three keys; the account that [create] builds for a validated key is such
    an account, and a status refresh and a redemption keep it so. *)
Theorem account_keys_bounded (now : Z) (user : User.t) (ls : LocalStorage) :
  (forall username password key keyData,
     Validator.key key = valid keyData ->
     tidy (UserManager.userData now username password keyData))
  /\ (tidy user ->
      (length (User.keys user) <= 3)%nat
      /\ tidy (fst (UserManager.updateKeyStatus now user ls))
      /\ (forall key user',
            snd (fst (KeyManager.redeem now key (Some user) ls)) = Some user' ->
            tidy user' /\ (length (User.keys user') <= 3)%nat)).
Proof.
  split.
  - intros username password key keyData Hk. unfold tidy. simpl. split.
    + apply NoDup_singleton.
    + constructor; [| constructor].
      apply key_valid_redeemable. exists keyData.
      now rewrite (key_valid_code _ _ Hk).
  - intros Htidy. split; [now apply tidy_length |]. split.
    + rewrite updateKeyStatus_user. destruct Htidy as [H1 H2].
      unfold tidy. simpl. rewrite map_map. simpl. now split.
    + intros key user' Hredeem.
      assert (Htidy' : tidy user'); [| split; [assumption | now apply tidy_length]].
      destruct (redeem_failure_or_append now key user ls)
        as [Hsame | (k & Hcode & Hred & Hnew & Happ)].
      * rewrite Hsame in Hredeem. now injection Hredeem as <-.
      * rewrite Happ in Hredeem. injection Hredeem as <-.
        destruct Htidy as [H1 H2]. unfold tidy. simpl. rewrite map_app. simpl.
        split.
        -- apply NoDup_app. split; [assumption |]. split; [| apply NoDup_singleton].
           intros c Hc Hc'. apply list_elem_of_In in Hc.
           apply list_elem_of_singleton in Hc'. subst c.
           apply holds_In in Hc. congruence.
        -- apply Forall_app. split; [assumption |]. constructor; [| constructor].
           now rewrite Hcode.
Qed.

Lemma account_keys_bounded_witness :
  (length (User.keys staleUser) <= 3)%nat
  /\ tidy (fst (UserManager.updateKeyStatus 5000 staleUser emptyStorage)).
Proof.
  destruct (account_keys_bounded 5000 staleUser emptyStorage) as [_ H].
  destruct H as (H1 & H2 & _).
  - split.
    + simpl. apply NoDup_singleton.
    + simpl. repeat constructor.
  - now split.
Defined.

(* ===================================================================== *)
(** ** Accounts only grow *)
(* ===================================================================== *)

Section Grows.

Variable now : Z.

Lemma grows_refl (user : User.t) : grows user user.
Proof. repeat split. exists []. now rewrite app_nil_r. Qed.

Lemma grows_trans (u1 u2 u3 : User.t) : grows u1 u2 -> grows u2 u3 -> grows u1 u3.
Proof.
  intros (A1 & B1 & C1 & e1 & D1) (A2 & B2 & C2 & e2 & D2).
  repeat split; try congruence.
  exists (e1 ++ e2)%list. rewrite D2, D1. now rewrite <- app_assoc.
Qed.

Lemma unflag_refreshed (keys : list Key.t) :
  map (Key.set_active false) (map (refreshKey now) keys)
  = map (Key.set_active false) keys.
Proof. rewrite map_map. apply map_ext. now intros []. Qed.

Lemma grows_refreshed (user : User.t) :
  grows user (User.set_keys (map (refreshKey now) (User.keys user)) user).
Proof.
  repeat split. exists []. simpl. now rewrite unflag_refreshed, app_nil_r.
Qed.

Lemma grows_set_password (password : string) (user : User.t) :
  grows user (User.set_password password user).
Proof. repeat split. exists []. simpl. now rewrite app_nil_r. Qed.

Lemma grows_set_lastLogin (user : User.t) :
  grows user (User.set_lastLogin now user).
Proof. repeat split. exists []. simpl. now rewrite app_nil_r. Qed.

Lemma grows_push (user : User.t) (k : Key.t) :
  grows user (User.set_keys (User.keys user ++ [k]) user).
Proof.
  repeat split. exists [Key.set_active false k]. simpl. now rewrite map_app.
Qed.

Lemma store_grows_refl (ls : LocalStorage) : store_grows ls ls.
Proof. intros name user H. exists user. split; [assumption | apply grows_refl]. Qed.

Lemma store_grows_trans (ls1 ls2 ls3 : LocalStorage) :
  store_grows ls1 ls2 -> store_grows ls2 ls3 -> store_grows ls1 ls3.
Proof.
  intros H12 H23 name u1 G1.
  destruct (H12 _ _ G1) as (u2 & G2 & Hg12).
  destruct (H23 _ _ G2) as (u3 & G3 & Hg23).
  exists u3. split; [assumption | now apply (grows_trans u1 u2 u3)].
Qed.

Lemma store_grows_update (value : User.t) (ls : LocalStorage) :
  (forall stored,
     UserManager.get (User.username value) ls = Some stored -> grows stored value) ->
  store_grows ls (snd (UserManager.update (User.username value) value ls)).
Proof.
  intros Hvalue name user Hget. rewrite get_update.
  destruct (setItem_throws ls (setItem_calls ls)).
  - exists user. split; [assumption | apply grows_refl].
  - destruct (String.eqb_spec (User.username value) name) as [E | _].
    + exists value. split; [reflexivity |]. apply Hvalue. now rewrite E.
    + exists user. split; [assumption | apply grows_refl].
Qed.

Lemma store_grows_updateKeyStatus (user : User.t) (ls : LocalStorage) :
  (forall stored,
     UserManager.get (User.username user) ls = Some stored -> grows stored user) ->
  store_grows ls (snd (UserManager.updateKeyStatus now user ls)).
Proof.
  intros Huser. rewrite updateKeyStatus_store.
  destruct (existsb _ _); [| apply store_grows_refl].
  apply (store_grows_update
           (User.set_keys (map (refreshKey now) (User.keys user)) user)).
  intros stored Hget. simpl in Hget.
  apply (grows_trans stored user); [now apply Huser | apply grows_refreshed].
Qed.

(** After a refresh of [user] the record under its username has grown out
    of whatever [user] had grown out of. *)
Lemma stored_after_updateKeyStatus (user base : User.t) (ls : LocalStorage) :
  (forall stored,
     UserManager.get (User.username user) ls = Some stored -> grows stored user) ->
  forall stored1,
    UserManager.get (User.username user)
      (snd (UserManager.updateKeyStatus now user ls)) = Some stored1 ->
    grows stored1 (fst (UserManager.updateKeyStatus now user ls)).
Proof.
  intros Huser stored1. rewrite get_updateKeyStatus.
  destruct (existsb _ _ && negb _ && _).
  - intros [= <-]. apply grows_refl.
  - intros Hget. rewrite updateKeyStatus_user.
    apply (grows_trans stored1 user); [now apply Huser | apply grows_refreshed].
Qed.

Lemma store_grows_register (username password key : string) (ls : LocalStorage) :
  store_grows ls (snd (Auth.register now username password key ls)).
Proof.
  destruct (register_outcome now username password key ls)
    as [(_ & -> & _) | (keyData & _ & _ & _ & Hnone & _ & _ & ->)];
    [apply store_grows_refl |].
  apply (store_grows_update (UserManager.userData now username password keyData)).
  simpl. intros stored Hget. congruence.
Qed.

Lemma store_grows_getCurrentUser (ls : LocalStorage) :
  named ls -> store_grows ls (snd (Auth.getCurrentUser now ls)).
Proof.
  intros Hnamed.
  destruct (getCurrentUser_outcome now ls)
    as [-> | (name & stored & _ & _ & Hget & ->)]; [apply store_grows_refl |].
  apply store_grows_updateKeyStatus. intros stored' Hget'.
  rewrite (Hnamed _ _ Hget) in Hget'.
  assert (stored' = stored) as -> by congruence. apply grows_refl.
Qed.

Lemma store_grows_login (username password : string) (ls : LocalStorage) :
  named ls -> store_grows ls (snd (Auth.login now username password ls)).
Proof.
  intros Hnamed. unfold Auth.login.
  destruct (UserManager.get username ls) as [user |] eqn:Hget; [| apply store_grows_refl].
  destruct (negb _); [apply store_grows_refl |].
  set (user1 := User.set_lastLogin now user).
  assert (Hname : User.username user1 = username) by (simpl; now apply Hnamed).
  assert (Hbase : forall stored,
             UserManager.get (User.username user1) ls = Some stored ->
             grows stored user1).
  { intros stored Hs. rewrite Hname in Hs.
    assert (stored = user) as -> by congruence. apply grows_set_lastLogin. }
  pose proof (store_grows_updateKeyStatus user1 ls Hbase) as H1.
  pose proof (stored_after_updateKeyStatus user1 user ls Hbase) as Hstored.
  pose proof (updateKeyStatus_user now user1 ls) as Hu.
  destruct (UserManager.updateKeyStatus now user1 ls) as [user2 ls1]. simpl in *.
  assert (Hname2 : User.username user2 = username) by (rewrite Hu; exact Hname).
  apply (store_grows_trans ls ls1); [assumption |].
  apply (store_grows_trans ls1 (snd (UserManager.update username user2 ls1))).
  - rewrite <- Hname2 at 1. apply store_grows_update.
    intros stored1 Hs1. apply Hstored. now rewrite Hname, <- Hname2.
  - intros name u G. exists u. split; [| apply grows_refl].
    unfold UserManager.get, Storage.get in *.
    now destruct (setCurrentUserKey_shape username
                    (snd (UserManager.update username user2 ls1))) as (-> & _).
Qed.

End Grows.

Lemma store_grows_changePassword
    (now : Z) (currentPassword newPassword confirmPassword : string) (ls : LocalStorage) :
  named ls ->
  store_grows ls
    (snd (Auth.changePassword now currentPassword newPassword confirmPassword ls)).
Proof.
  intros Hnamed. rewrite changePassword_outcome.
  pose proof (store_grows_getCurrentUser now ls Hnamed) as Hgrow.
  destruct (getCurrentUser_outcome now ls)
    as [E | (name & stored & _ & _ & Hget & E)]; rewrite E in *; [exact Hgrow |].
  cbn [fst snd] in *.
  repeat (match goal with |- context [if ?b then _ else _] => destruct b end;
          [exact Hgrow |]).
  cbn [snd].
  set (user := User.set_keys (map (refreshKey now) (User.keys stored)) stored).
  eapply store_grows_trans; [exact Hgrow |].
  apply (store_grows_update (User.set_password newPassword user)).
  cbn [User.username User.set_password]. intros stored1 Hs1.
  apply (grows_trans stored1 user); [| apply grows_set_password].
  assert (Hbase : forall s, UserManager.get (User.username stored) ls = Some s ->
                            grows s stored).
  { intros s Hs. rewrite (Hnamed _ _ Hget) in Hs.
    assert (s = stored) as -> by congruence. apply grows_refl. }
  pose proof (stored_after_updateKeyStatus now stored stored ls Hbase stored1) as H.
  rewrite updateKeyStatus_user in H. apply H. exact Hs1.
Qed.

Lemma store_grows_redeem (now : Z) (key : string) (user : User.t) (ls : LocalStorage) :
  (forall stored,
     UserManager.get (User.username user) ls = Some stored -> grows stored user) ->
  store_grows ls (snd (KeyManager.redeem now key (Some user) ls)).
Proof.
  intros Hbase. unfold KeyManager.redeem.
  destruct (Validator.key key) as [data | m]; [| apply store_grows_refl].
  destruct (existsb _ (User.keys user)); [apply store_grows_refl |].
  cbn [snd].
  match goal with |- store_grows ls (snd (UserManager.update _ ?u ls)) =>
    apply (store_grows_update u) end.
  cbn [User.username User.set_keys]. intros stored Hs.
  apply (grows_trans stored user); [now apply Hbase | apply grows_push].
Qed.

(** X24. In a store whose records sit under their own usernames no
    operation of the engine loses an account or a key: after a registration,
    a login, a session resolution, a password change or a logout every
    account is still stored under its username with the same admin flag and
    join date and the same keys up to their active flags, in the same order,
    possibly followed by new ones.  The same holds after a redemption when
    the account object given to [redeem] has grown out of the stored record
    of its username. *)
Theorem accounts_only_grow (now : Z) (ls : LocalStorage) :
  named ls ->
  (forall username password key,
     store_grows ls (snd (Auth.register now username password key ls)))
  /\ (forall username password,
        store_grows ls (snd (Auth.login now username password ls)))
  /\ store_grows ls (snd (Auth.getCurrentUser now ls))
  /\ (forall currentPassword newPassword confirmPassword,
        store_grows ls
          (snd (Auth.changePassword now currentPassword newPassword confirmPassword ls)))
  /\ store_grows ls (Auth.logout ls)
  /\ (forall key user,
        (forall stored,
           UserManager.get (User.username user) ls = Some stored ->
           grows stored user) ->
        store_grows ls (snd (KeyManager.redeem now key (Some user) ls))).
Proof.
  intros Hnamed. repeat split.
  - intros. apply store_grows_register.
  - intros. now apply store_grows_login.
  - now apply store_grows_getCurrentUser.
  - intros. now apply store_grows_changePassword.
  - intros name user G. exists user. split; [exact G | apply grows_refl].
  - intros. now apply store_grows_redeem.
Qed.

Lemma accounts_only_grow_witness :
  store_grows aliceStore aliceBobStore
  /\ store_grows aliceStore aliceLoggedIn.
Proof.
  assert (Hnamed : named aliceStore) by apply named_register, named_empty.
  destruct (accounts_only_grow 2000 aliceStore Hnamed) as (Hreg & _).
  destruct (accounts_only_grow 3000 aliceStore Hnamed) as (_ & Hlogin & _).
  split; [apply Hreg | apply Hlogin].
Defined.

(* ===================================================================== *)
(** ** Generated keys *)
(* ===================================================================== *)

Lemma charAt_chars (i : nat) :
  (i < 36)%nat ->
  exists c, Utils.charAt Utils.chars i = String c "" /\ upper_alnum_char c.
Proof.
  intros Hi.
  do 36 (destruct i as [| i];
         [eexists; split; [reflexivity | apply in_class_upper_alnum; reflexivity] |]).
  lia.
Qed.

Lemma randomSegment_group (draw : nat -> nat) (first : nat) :
  (forall i, (draw i < 36)%nat) ->
  key_group (Utils.randomSegment draw first 4).
Proof.
  intros Hdraw. unfold Utils.randomSegment.
  destruct (charAt_chars _ (Hdraw first)) as (c1 & -> & H1).
  destruct (charAt_chars _ (Hdraw (S first))) as (c2 & -> & H2).
  destruct (charAt_chars _ (Hdraw (S (S first)))) as (c3 & -> & H3).
  destruct (charAt_chars _ (Hdraw (S (S (S first))))) as (c4 & -> & H4).
  change (key_group (String c1 (String c2 (String c3 (String c4 ""))))).
  split; [reflexivity |]. simpl.
  repeat (apply List.Forall_cons; [assumption |]). apply List.Forall_nil.
Qed.

Lemma upperCaseUnit_alnum (c c' : ascii) :
  Utils.upperCaseUnit c = Some c' -> (upper_alnum_char c' <-> alnum_unit c).
Proof.
  unfold Utils.upperCaseUnit, upper_alnum_char, alnum_unit.
  change (nat_of_ascii "a") with 97%nat. change (nat_of_ascii "z") with 122%nat.
  change (nat_of_ascii "A") with 65%nat. change (nat_of_ascii "Z") with 90%nat.
  change (nat_of_ascii "0") with 48%nat. change (nat_of_ascii "9") with 57%nat.
  destruct (Nat.leb_spec 128 (nat_of_ascii c)) as [_ | Hascii]; [discriminate |].
  destruct (Nat.leb_spec 97 (nat_of_ascii c)) as [Hlo | Hlo];
    destruct (Nat.leb_spec (nat_of_ascii c) 122) as [Hhi | Hhi]; simpl;
    intros [= <-]; try lia.
  rewrite nat_ascii_embedding by lia. lia.
Qed.

Lemma zero_upper_alnum : upper_alnum_char "0".
Proof. apply in_class_upper_alnum. reflexivity. Qed.

(** The first segment of a generated key. *)
Lemma head_group (prefix upper : string) :
  Utils.toUpperCase prefix = Some upper ->
  String.length (String.substring 0 4 (Utils.padEnd upper 4 "0")) = 4%nat
  /\ (Forall upper_alnum_char
        (list_ascii_of_string (String.substring 0 4 (Utils.padEnd upper 4 "0")))
      <-> Forall alnum_unit (list_ascii_of_string (String.substring 0 4 prefix))).
Proof.
  pose proof zero_upper_alnum as Hz.
  destruct prefix as [| c1 [| c2 [| c3 [| c4 rest]]]]; cbn [Utils.toUpperCase].
  - intros [= <-]. split; [reflexivity |].
    change (String.substring 0 4 (Utils.padEnd "" 4 "0")) with "0000".
    simpl. rewrite !Forall_cons, !Forall_nil. tauto.
  - destruct (Utils.upperCaseUnit c1) as [d1 |] eqn:E1; [| discriminate].
    intros [= <-]. split; [reflexivity |].
    apply upperCaseUnit_alnum in E1.
    change (String.substring 0 4 (Utils.padEnd (String d1 "") 4 "0"))
      with (String d1 "000").
    simpl. rewrite !Forall_cons, !Forall_nil. tauto.
  - destruct (Utils.upperCaseUnit c1) as [d1 |] eqn:E1; [| discriminate].
    destruct (Utils.upperCaseUnit c2) as [d2 |] eqn:E2; [| discriminate].
    intros [= <-]. split; [reflexivity |].
    apply upperCaseUnit_alnum in E1, E2.
    change (String.substring 0 4 (Utils.padEnd (String d1 (String d2 "")) 4 "0"))
      with (String d1 (String d2 "00")).
    simpl. rewrite !Forall_cons, !Forall_nil. tauto.
  - destruct (Utils.upperCaseUnit c1) as [d1 |] eqn:E1; [| discriminate].
    destruct (Utils.upperCaseUnit c2) as [d2 |] eqn:E2; [| discriminate].
    destruct (Utils.upperCaseUnit c3) as [d3 |] eqn:E3; [| discriminate].
    intros [= <-]. split; [reflexivity |].
    apply upperCaseUnit_alnum in E1, E2, E3.
    change (String.substring 0 4
              (Utils.padEnd (String d1 (String d2 (String d3 ""))) 4 "0"))
      with (String d1 (String d2 (String d3 "0"))).
    simpl. rewrite !Forall_cons, !Forall_nil. tauto.
  - destruct (Utils.upperCaseUnit c1) as [d1 |] eqn:E1; [| discriminate].
    destruct (Utils.upperCaseUnit c2) as [d2 |] eqn:E2; [| discriminate].
    destruct (Utils.upperCaseUnit c3) as [d3 |] eqn:E3; [| discriminate].
    destruct (Utils.upperCaseUnit c4) as [d4 |] eqn:E4; [| discriminate].
    destruct (Utils.toUpperCase rest) as [t |]; [| discriminate].
    intros [= <-].
    apply upperCaseUnit_alnum in E1, E2, E3, E4.
    assert (Hhead : String.substring 0 4
                      (Utils.padEnd (String d1 (String d2 (String d3 (String d4 t)))) 4 "0")
                    = String d1 (String d2 (String d3 (String d4 ""))))
      by (destruct t; reflexivity).
    assert (Hcut : String.substring 0 4
                     (String c1 (String c2 (String c3 (String c4 rest))))
                   = String c1 (String c2 (String c3 (String c4 ""))))
      by (destruct rest; reflexivity).
    rewrite Hhead, Hcut. split; [reflexivity |].
    simpl. rewrite !Forall_cons, !Forall_nil. tauto.
Qed.

Lemma append_same_length (a b x y : string) :
  String.length a = String.length b -> a ++ x = b ++ y -> a = b.
Proof.
  revert b. induction a as [| c a IH]; intros [| d b] Hlen H; try discriminate.
  - reflexivity.
  - change (String c a ++ x) with (String c (a ++ x)) in H.
    change (String d b ++ y) with (String d (b ++ y)) in H.
    injection H as -> H. injection Hlen as Hlen. f_equal. now apply IH.
Qed.

Lemma length_append (a b : string) :
  String.length (a ++ b) = (String.length a + String.length b)%nat.
Proof.
  induction a as [| c a IH]; [reflexivity |].
  change (String c a ++ b) with (String c (a ++ b)). simpl. now rewrite IH.
Qed.

(** X25. [generateKey] does not read its duration.  With the random
    indices below the length of the alphabet, the key it returns has nineteen
    characters, the upper-cased prefix cut or padded with zeros to four
    characters, then three groups of four random uppercase letters and
    digits, hyphens between them.  It passes the pattern of [Validator.key]
    exactly when the first four characters of the prefix are letters or
    digits; a prefix with a hyphen or a space among them gives a key that the
    validator reports as of invalid format. *)
Theorem generateKey_format (draw : nat -> nat) (prefix duration key : string) :
  (forall i, (draw i < 36)%nat) ->
  Utils.generateKey draw prefix duration = Some key ->
  (forall other, Utils.generateKey draw prefix other = Some key)
  /\ String.length key = 19%nat
  /\ (RegExp.test Validator.keyPattern key = true
      <-> Forall alnum_unit (list_ascii_of_string (String.substring 0 4 prefix))).
Proof.
  intros Hdraw. unfold Utils.generateKey.
  destruct (Utils.toUpperCase prefix) as [upper |] eqn:Hupper; [| discriminate].
  intros [= <-].
  destruct (head_group prefix upper Hupper) as [Hlen Hhead].
  pose proof (randomSegment_group draw 0 Hdraw) as G1.
  pose proof (randomSegment_group draw 4 Hdraw) as G2.
  pose proof (randomSegment_group draw 8 Hdraw) as G3.
  split; [reflexivity |]. split.
  - clear G1 G2 G3.
    repeat match goal with
           | |- context [Utils.charAt Utils.chars (draw ?i)] =>
               destruct (charAt_chars _ (Hdraw i)) as (? & -> & _)
           end.
    rewrite length_append, Hlen. reflexivity.
  - rewrite key_format_test, <- Hhead. split.
    + intros (g1 & g2 & g3 & g4 & [L1 F1] & _ & _ & _ & E).
      apply append_same_length in E; [| now rewrite Hlen, L1].
      now rewrite E.
    + intros Hall. eexists _, _, _, _. repeat split; try eassumption; apply G1 || apply G2 || apply G3.
Qed.

Lemma generateKey_format_witness :
  (forall other,
     Utils.generateKey (fun i => i mod 36)%nat "gen" other = Some "GEN0-ABCD-EFGH-IJKL")
  /\ String.length "GEN0-ABCD-EFGH-IJKL" = 19%nat
  /\ (RegExp.test Validator.keyPattern "GEN0-ABCD-EFGH-IJKL" = true
      <-> Forall alnum_unit (list_ascii_of_string (String.substring 0 4 "gen"))).
Proof.
  apply (generateKey_format (fun i => i mod 36)%nat "gen" "lifetime").
  - intros i. apply Nat.mod_upper_bound. discriminate.
  - vm_compute. reflexivity.
Defined.

Example generateKey_samples :
  Utils.generateKey (fun i => i) "gen" "lifetime" = Some "GEN0-ABCD-EFGH-IJKL"
  /\ Utils.generateKey (fun i => (35 - i)%nat) "a-b" "1day" = Some "A-B0-9876-5432-10ZY"
  /\ (RegExp.test Validator.keyPattern "A-B0-9876-5432-10ZY" = false).
Proof. vm_compute. repeat split. Qed.

(* ===================================================================== *)
(** ** One account at a time *)
(* ===================================================================== *)

Lemma get_setCurrentUserKey (username name : string) (ls : LocalStorage) :
  UserManager.get name (snd (Storage.setCurrentUserKey username ls))
  = UserManager.get name ls.
Proof.
  unfold UserManager.get, Storage.get.
  now destruct (setCurrentUserKey_shape username ls) as (-> & _).
Qed.

Lemma get_updateKeyStatus_other (now : Z) (user : User.t) (name : string)
    (ls : LocalStorage) :
  name <> User.username user ->
  UserManager.get name (snd (UserManager.updateKeyStatus now user ls))
  = UserManager.get name ls.
Proof.
  intros Hne. rewrite get_updateKeyStatus.
  destruct (String.eqb_spec (User.username user) name) as [E | _]; [congruence |].
  now rewrite andb_false_r.
Qed.

Lemma get_update_other (name other : string) (user : User.t) (ls : LocalStorage) :
  other <> name ->
  UserManager.get other (snd (UserManager.update name user ls))
  = UserManager.get other ls.
Proof.
  intros Hne. rewrite get_update.
  destruct (setItem_throws ls (setItem_calls ls)); [reflexivity |].
  destruct (String.eqb_spec name other); [congruence | reflexivity].
Qed.

(** X26. An operation on one account leaves the records of the others as
    they are.  In a store whose records sit under their own usernames a login
    changes no record but that of the username given, a session resolution
    and a password change none but that of the username of the session, and
    a redemption, in any store, none but that under the username of the
    account object given. *)
Theorem other_accounts_untouched (now : Z) (other : string) (ls : LocalStorage) :
  named ls ->
  (forall username password,
     other <> username ->
     UserManager.get other (snd (Auth.login now username password ls))
     = UserManager.get other ls)
  /\ (currentUser ls <> Some other ->
      UserManager.get other (snd (Auth.getCurrentUser now ls))
      = UserManager.get other ls)
  /\ (forall currentPassword newPassword confirmPassword,
        currentUser ls <> Some other ->
        UserManager.get other
          (snd (Auth.changePassword now currentPassword newPassword confirmPassword ls))
        = UserManager.get other ls)
  /\ (forall key user,
        other <> User.username user ->
        UserManager.get other (snd (KeyManager.redeem now key (Some user) ls))
        = UserManager.get other ls).
Proof.
  intros Hnamed.
  assert (Hsession : currentUser ls <> Some other ->
                     UserManager.get other (snd (Auth.getCurrentUser now ls))
                     = UserManager.get other ls).
  { intros Hne.
    destruct (getCurrentUser_outcome now ls)
      as [-> | (name & stored & Hcur & _ & Hget & ->)]; [reflexivity |].
    apply get_updateKeyStatus_other. rewrite (Hnamed _ _ Hget). congruence. }
  split; [| split; [exact Hsession | split]].
  - intros username password Hne. unfold Auth.login.
    destruct (UserManager.get username ls) as [user |] eqn:Hget; [| reflexivity].
    destruct (negb _); [reflexivity |].
    pose proof (get_updateKeyStatus_other now (User.set_lastLogin now user) other ls) as H1.
    destruct (UserManager.updateKeyStatus now (User.set_lastLogin now user) ls)
      as [user2 ls1]. cbn [fst snd] in *.
    rewrite get_setCurrentUserKey, (get_update_other _ _ _ _ Hne).
    apply H1. simpl. rewrite (Hnamed _ _ Hget). exact Hne.
  - intros currentPassword newPassword confirmPassword Hne.
    rewrite changePassword_outcome. specialize (Hsession Hne).
    destruct (getCurrentUser_outcome now ls)
      as [E | (name & stored & Hcur & _ & Hget & E)]; rewrite E in *; [reflexivity |].
    cbn [fst snd] in *.
    repeat (match goal with |- context [if ?b then _ else _] => destruct b end;
            [exact Hsession |]).
    cbn [snd]. rewrite get_update_other; [exact Hsession |].
    simpl. rewrite (Hnamed _ _ Hget). congruence.
  - intros key user Hne. unfold KeyManager.redeem.
    destruct (Validator.key key); [| reflexivity].
    destruct (existsb _ (User.keys user)); [reflexivity |].
    cbn [snd]. now apply get_update_other.
Qed.

Lemma other_accounts_untouched_witness :
  UserManager.get "alice" (snd (Auth.login 5000 "bob" "secret1" aliceBobStore))
  = UserManager.get "alice" aliceBobStore.
Proof.
  assert (Hnamed : named aliceBobStore)
    by (do 2 apply named_register; apply named_empty).
  destruct (other_accounts_untouched 5000 "alice" aliceBobStore Hnamed) as (H & _).
  apply H. discriminate.
Defined.

(* ===================================================================== *)
(** ** Resolving the session *)
(* ===================================================================== *)

(** X27. [getCurrentUser] returns null exactly when there is no session
    pointer, the pointer is the empty string, or no account is stored under
    the username it names.  Otherwise it returns the stored record of that
    username with the flags refreshed, whose count of active keys is the
    number of keys not expired at the clock value.  In a store whose records
    sit under their own usernames, resolving the session again at the same
    clock value returns the same account. *)
Theorem getCurrentUser_cases (now : Z) (ls : LocalStorage) :
  (fst (Auth.getCurrentUser now ls) = None
   <-> currentUser ls = None
       \/ currentUser ls = Some ""
       \/ exists name, currentUser ls = Some name /\ UserManager.get name ls = None)
  /\ (forall user,
        fst (Auth.getCurrentUser now ls) = Some user ->
        exists name stored,
          currentUser ls = Some name
          /\ UserManager.get name ls = Some stored
          /\ user = User.set_keys (map (refreshKey now) (User.keys stored)) stored
          /\ KeyManager.getActiveCount user = unexpiredCount now stored)
  /\ (named ls ->
      fst (Auth.getCurrentUser now (snd (Auth.getCurrentUser now ls)))
      = fst (Auth.getCurrentUser now ls)).
Proof.
  split; [| split].
  - unfold Auth.getCurrentUser, Storage.getCurrentUserKey.
    destruct (currentUser ls) as [name |]; [| simpl; tauto].
    destruct (String.eqb_spec name "") as [-> | Hne]; [simpl; tauto |].
    destruct (UserManager.get name ls) as [stored |] eqn:Hget.
    + destruct (UserManager.updateKeyStatus now stored ls) as [u l]. simpl.
      split; [discriminate |].
      intros [H | [H | (n & H1 & H2)]]; try discriminate; congruence.
    + simpl. split; [| reflexivity]. intros _. right. right. now exists name.
  - intros user Huser.
    destruct (getCurrentUser_outcome now ls)
      as [E | (name & stored & Hcur & _ & Hget & E)]; rewrite E in Huser;
      [discriminate |].
    injection Huser as <-. exists name, stored. repeat split; try assumption.
    unfold KeyManager.getActiveCount, unexpiredCount. simpl. apply count_refreshed.
  - intros Hnamed.
    destruct (getCurrentUser_outcome now ls)
      as [E | (name & stored & Hcur & Hne & Hget & E)]; rewrite E; cbn [fst snd];
      [now rewrite E |].
    set (ls1 := snd (UserManager.updateKeyStatus now stored ls)).
    set (user := User.set_keys (map (refreshKey now) (User.keys stored)) stored).
    assert (Hcur1 : currentUser ls1 = Some name).
    { unfold ls1. destruct (updateKeyStatus_shape now stored ls) as (-> & _). exact Hcur. }
    assert (Hget1 : UserManager.get name ls1 = Some stored
                    \/ UserManager.get name ls1 = Some user).
    { unfold ls1. rewrite get_updateKeyStatus, updateKeyStatus_user.
      destruct (existsb _ _ && negb _ && _); [now right | now left]. }
    unfold Auth.getCurrentUser, Storage.getCurrentUserKey. rewrite Hcur1.
    apply String.eqb_neq in Hne. rewrite Hne.
    destruct Hget1 as [-> | ->];
      rewrite (surjective_pairing (UserManager.updateKeyStatus now _ ls1));
      rewrite updateKeyStatus_user; cbn [fst]; [reflexivity |].
    unfold user at 1 2. now rewrite refreshed_fixed.
Qed.

Lemma getCurrentUser_cases_witness :
  exists name stored,
    currentUser aliceLoggedIn = Some name
    /\ UserManager.get name aliceLoggedIn = Some stored
    /\ KeyManager.getActiveCount
         (User.set_keys (map (refreshKey 5000) (User.keys stored)) stored)
       = unexpiredCount 5000 stored.
Proof.
  destruct (getCurrentUser_cases 5000 aliceLoggedIn) as (_ & H & _).
  destruct (H (User.set_lastLogin 3000
                 (UserManager.userData 1000 "alice" "secret1"
                    (KeyData.mk "DEMO-1234-ABCD-5678" "1day" "Trial"))))
    as (name & stored & H1 & H2 & H3 & H4).
  - vm_compute. reflexivity.
  - exists name, stored. rewrite <- H3. auto.
Defined.

(* ===================================================================== *)
(** ** Which operations keep the key codes apart *)
(* ===================================================================== *)

Section SameCodes.

Variable now : Z.

Lemma holds_codes (code : string) (user : User.t) :
  holds code user = true <-> In code (codes user).
Proof. apply holds_In. Qed.

Lemma unique_same_codes (ls ls' : LocalStorage) :
  same_codes ls ls' -> unique_keys ls -> unique_keys ls'.
Proof.
  intros Hsame Huniq name1 name2 u1' u2' code G1 G2 H1 H2.
  pose proof (Hsame name1) as S1. pose proof (Hsame name2) as S2.
  rewrite G1 in S1. rewrite G2 in S2.
  destruct (UserManager.get name1 ls) as [u1 |] eqn:E1; [| discriminate].
  destruct (UserManager.get name2 ls) as [u2 |] eqn:E2; [| discriminate].
  injection S1 as S1. injection S2 as S2.
  apply (Huniq name1 name2 u1 u2 code E1 E2).
  - apply holds_codes. rewrite <- S1. now apply holds_codes.
  - apply holds_codes. rewrite <- S2. now apply holds_codes.
Qed.

Lemma same_codes_refl (ls : LocalStorage) : same_codes ls ls.
Proof. now intros name. Qed.

Lemma same_codes_trans (ls1 ls2 ls3 : LocalStorage) :
  same_codes ls1 ls2 -> same_codes ls2 ls3 -> same_codes ls1 ls3.
Proof. intros H12 H23 name. now rewrite H23, H12. Qed.

Lemma same_codes_update (name : string) (value : User.t) (ls : LocalStorage) :
  codes <$> UserManager.get name ls = Some (codes value) ->
  same_codes ls (snd (UserManager.update name value ls)).
Proof.
  intros Hvalue other. rewrite get_update.
  destruct (setItem_throws ls (setItem_calls ls)); [reflexivity |].
  destruct (String.eqb_spec name other) as [<- | _]; [| reflexivity].
  now rewrite Hvalue.
Qed.

Lemma same_codes_updateKeyStatus (user : User.t) (ls : LocalStorage) :
  codes <$> UserManager.get (User.username user) ls = Some (codes user) ->
  same_codes ls (snd (UserManager.updateKeyStatus now user ls)).
Proof.
  intros Huser. rewrite updateKeyStatus_store.
  destruct (existsb _ _); [| apply same_codes_refl].
  apply same_codes_update. rewrite Huser. f_equal.
  unfold codes. simpl. rewrite map_map. reflexivity.
Qed.

Lemma codes_refreshed (user : User.t) (ls : LocalStorage) :
  codes (fst (UserManager.updateKeyStatus now user ls)) = codes user.
Proof.
  rewrite updateKeyStatus_user. unfold codes. simpl. now rewrite map_map.
Qed.

Lemma same_codes_getCurrentUser (ls : LocalStorage) :
  named ls -> same_codes ls (snd (Auth.getCurrentUser now ls)).
Proof.
  intros Hnamed.
  destruct (getCurrentUser_outcome now ls)
    as [-> | (name & stored & _ & _ & Hget & ->)]; [apply same_codes_refl |].
  apply same_codes_updateKeyStatus.
  now rewrite (Hnamed _ _ Hget), Hget.
Qed.

Lemma same_codes_login (username password : string) (ls : LocalStorage) :
  named ls -> same_codes ls (snd (Auth.login now username password ls)).
Proof.
  intros Hnamed. unfold Auth.login.
  destruct (UserManager.get username ls) as [user |] eqn:Hget; [| apply same_codes_refl].
  destruct (negb _); [apply same_codes_refl |].
  set (user1 := User.set_lastLogin now user).
  assert (H1 : same_codes ls (snd (UserManager.updateKeyStatus now user1 ls))).
  { apply same_codes_updateKeyStatus. simpl.
    now rewrite (Hnamed _ _ Hget), Hget. }
  pose proof (codes_refreshed user1 ls) as Hcodes.
  destruct (UserManager.updateKeyStatus now user1 ls) as [user2 ls1].
  cbn [fst snd] in *.
  apply (same_codes_trans ls ls1); [assumption |].
  apply (same_codes_trans ls1 (snd (UserManager.update username user2 ls1))).
  - apply same_codes_update. rewrite H1, Hget, Hcodes. reflexivity.
  - intros name. now rewrite get_setCurrentUserKey.
Qed.

Lemma same_codes_changePassword
    (currentPassword newPassword confirmPassword : string) (ls : LocalStorage) :
  named ls ->
  same_codes ls
    (snd (Auth.changePassword now currentPassword newPassword confirmPassword ls)).
Proof.
  intros Hnamed. rewrite changePassword_outcome.
  pose proof (same_codes_getCurrentUser ls Hnamed) as Hsame.
  destruct (getCurrentUser_outcome now ls)
    as [E | (name & stored & _ & _ & Hget & E)]; rewrite E in *; [exact Hsame |].
  cbn [fst snd] in *.
  repeat (match goal with |- context [if ?b then _ else _] => destruct b end;
          [exact Hsame |]).
  cbn [snd]. eapply same_codes_trans; [exact Hsame |].
  apply same_codes_update. cbn [User.username User.set_password User.set_keys].
  rewrite Hsame, (Hnamed _ _ Hget), Hget. unfold codes. simpl.
  now rewrite map_map.
Qed.

Lemma unique_keys_delete (name : string) (ls : LocalStorage) :
  unique_keys ls -> unique_keys (snd (UserManager.delete name ls)).
Proof.
  intros Huniq n1 n2 u1 u2 code. rewrite !get_delete.
  destruct (String.eqb name n1); [discriminate |].
  destruct (String.eqb name n2); [discriminate |].
  apply Huniq.
Qed.

(** The store after [redeem]: the one given, or the one given after the
    write of the account with one more key, of the code given. *)
Lemma redeem_cases_store (key : string) (user : User.t) (ls : LocalStorage) :
  snd (KeyManager.redeem now key (Some user) ls) = ls
  \/ exists k,
       Key.code k = key
       /\ snd (KeyManager.redeem now key (Some user) ls)
          = snd (UserManager.update (User.username user)
                   (User.set_keys (User.keys user ++ [k]) user) ls).
Proof.
  unfold KeyManager.redeem.
  destruct (Validator.key key) as [data | m]; [| now left].
  destruct (existsb _ (User.keys user)); [now left |].
  right. eexists. split; [| reflexivity]. reflexivity.
Qed.

Lemma unique_keys_redeem (key : string) (user : User.t) (ls : LocalStorage) :
  codes <$> UserManager.get (User.username user) ls = Some (codes user) ->
  ~ held_in_store key ls ->
  unique_keys ls ->
  unique_keys (snd (KeyManager.redeem now key (Some user) ls)).
Proof.
  intros Huser Hfree Huniq.
  destruct (UserManager.get (User.username user) ls) as [stored |] eqn:Hstored;
    [| discriminate].
  injection Huser as Hcodes.
  destruct (redeem_cases_store key user ls) as [-> | (k & Hk & ->)];
    [assumption |].
  intros n1 n2 u1 u2 code. rewrite !get_update.
  destruct (setItem_throws ls (setItem_calls ls)); [apply Huniq |].
  cbn [User.username User.set_keys].
  assert (Hown : forall c,
             holds c (User.set_keys (User.keys user ++ [k]) user) = true ->
             holds c stored = true \/ c = key).
  { intros c H. rewrite holds_app in H. apply orb_true_iff in H as [H | H].
    - left. apply holds_codes. rewrite Hcodes. now apply holds_codes.
    - right. apply String.eqb_eq in H. congruence. }
  destruct (String.eqb_spec (User.username user) n1) as [<- | N1];
    destruct (String.eqb_spec (User.username user) n2) as [<- | N2];
    intros G1 G2 H1 H2.
  - reflexivity.
  - injection G1 as <-. destruct (Hown _ H1) as [H | ->].
    + exact (Huniq _ _ _ _ _ Hstored G2 H H2).
    + destruct Hfree. now exists n2, u2.
  - injection G2 as <-. destruct (Hown _ H2) as [H | ->].
    + exact (Huniq _ _ _ _ _ G1 Hstored H1 H).
    + destruct Hfree. now exists n1, u1.
  - exact (Huniq _ _ _ _ _ G1 G2 H1 H2).
Qed.

End SameCodes.

(** X28. In a store whose records sit under their own usernames, a login,
    a session resolution and a password change leave every username with the
    key codes it had, in the same order.  So when no code is held by two
    accounts, this is still so after these operations, after a registration,
    a logout and a deletion; and after a redemption too, provided the account
    object given has the codes of the stored record of its username and no
    stored account holds the key: the check that [redeem] leaves out. *)
Theorem unique_keys_kept (now : Z) (ls : LocalStorage) :
  named ls ->
  (forall username password,
     same_codes ls (snd (Auth.login now username password ls)))
  /\ same_codes ls (snd (Auth.getCurrentUser now ls))
  /\ (forall currentPassword newPassword confirmPassword,
        same_codes ls
          (snd (Auth.changePassword now currentPassword newPassword confirmPassword ls)))
  /\ (unique_keys ls ->
      (forall username password key,
         unique_keys (snd (Auth.register now username password key ls)))
      /\ (forall username password,
            unique_keys (snd (Auth.login now username password ls)))
      /\ unique_keys (snd (Auth.getCurrentUser now ls))
      /\ (forall currentPassword newPassword confirmPassword,
            unique_keys
              (snd (Auth.changePassword now currentPassword newPassword
                      confirmPassword ls)))
      /\ unique_keys (Auth.logout ls)
      /\ (forall name, unique_keys (snd (UserManager.delete name ls)))
      /\ (forall key user,
            codes <$> UserManager.get (User.username user) ls = Some (codes user) ->
            ~ held_in_store key ls ->
            unique_keys (snd (KeyManager.redeem now key (Some user) ls)))).
Proof.
  intros Hnamed.
  split; [intros; now apply same_codes_login |].
  split; [now apply same_codes_getCurrentUser |].
  split; [intros; now apply same_codes_changePassword |].
  intros Huniq. repeat split.
  - intros. now apply register_keeps_keys_unique.
  - intros. eapply unique_same_codes; [| exact Huniq]. now apply same_codes_login.
  - eapply unique_same_codes; [| exact Huniq]. now apply same_codes_getCurrentUser.
  - intros. eapply unique_same_codes; [| exact Huniq].
    now apply same_codes_changePassword.
  - exact Huniq.
  - intros. now apply unique_keys_delete.
  - intros. now apply unique_keys_redeem.
Qed.

Lemma unique_keys_kept_witness :
  unique_keys (snd (Auth.login 5000 "alice" "secret1" aliceBobStore))
  /\ unique_keys
       (snd (KeyManager.redeem 5000 "FREE-BETA-KEY9-2025"
               (UserManager.get "bob" aliceBobStore) aliceBobStore)).
Proof.
  assert (Hnamed : named aliceBobStore)
    by (do 2 apply named_register; apply named_empty).
  destruct (unique_keys_kept 5000 aliceBobStore Hnamed) as (_ & _ & _ & H).
  destruct (H unique_keys_aliceBobStore) as (_ & Hlogin & _ & _ & _ & _ & Hredeem).
  split; [apply Hlogin |].
  assert (Hbob : UserManager.get "bob" aliceBobStore
                 = Some (UserManager.userData 2000 "bob" "secret1"
                           (KeyData.mk "TEST-KEY1-2025-GAME" "1week" "Standard")))
    by (vm_compute; reflexivity).
  rewrite Hbob. apply Hredeem.
  - cbn [User.username UserManager.userData]. now rewrite Hbob.
  - intros Hheld. apply keyUsed_held in Hheld. vm_compute in Hheld. discriminate.
Defined.
